(** * cloudflare-cors-anywhere: the request/response pipeline of the worker

    A shallow embedding of the worker's [fetch] handler (target resolution,
    admission, fingerprint selection, header composition, CORS headers, the
    streaming decision and the relay) together with the properties its
    specification states about it.

    Conventions of the embedding.
    - A JavaScript string is a [string]: ASCII text stands for itself and other
      text for its UTF-8 bytes.  The handler's own string operations (ASCII
      prefix tests, the search for a percent sign, ASCII case folding before a
      search for an ASCII word) cannot tell the two readings apart, and
      [charCodeAt] is only applied to a serialized URL, which is ASCII.
    - [null] and a string are told apart by [option string]; JavaScript
      truthiness of such a value is [truthy].
    - A [Headers] object is a finite map from lower-cased names to the values
      received under the name, in order: [get] combines them, and iteration
      gives [set-cookie] once per value.
    - A plain object is the list of its own properties in the order in which
      JavaScript enumerates them, with its prototype when that was replaced.
    - What the runtime provides (regular expressions, the URL parser, the
      query-string parser, [decodeURIComponent], [JSON]) is a [Platform]; a
      call that throws returns [None].
    - A [Response] is recorded as the body and the options the handler gives
      to [new Response]; a [content-type] that the constructor derives from a
      text body on its own is not part of the record.
    - The outbound request is recorded as the arguments the handler gives to
      [new Request].  What the runtime makes of them (whether it accepts them,
      how it folds the headers object into a [Headers] object, what the target
      answers) is the environment's, a function of these arguments. *)

From Stdlib Require Import ZArith Lia List Ascii String Bool.
From stdpp Require Import base option list gmap strings fin_maps pretty sorting.

Set Warnings "-register-all".
Open Scope string_scope.
#[global] Arguments String.append : simpl nomatch.

(** ** JavaScript strings *)

Definition is_upper (c : ascii) : bool :=
  (65 <=? nat_of_ascii c)%nat && (nat_of_ascii c <=? 90)%nat.

Definition lower_ascii (c : ascii) : ascii :=
  if is_upper c then ascii_of_nat (nat_of_ascii c + 32) else c.

(** [s.toLowerCase()] *)
Fixpoint toLowerCase (s : string) : string :=
  match s with
  | EmptyString => EmptyString
  | String c s' => String (lower_ascii c) (toLowerCase s')
  end.

(** [s.startsWith(p)] *)
Fixpoint startsWith (s p : string) {struct p} : bool :=
  match p, s with
  | EmptyString, _ => true
  | String _ _, EmptyString => false
  | String a p', String b s' => Ascii.eqb a b && startsWith s' p'
  end.

(** [s.includes(x)] *)
Fixpoint includes (s x : string) : bool :=
  startsWith s x ||
  match s with
  | EmptyString => false
  | String _ s' => includes s' x
  end.

(** [s.substring(n)] *)
Fixpoint substring (n : nat) (s : string) : string :=
  match n, s with
  | O, _ => s
  | S _, EmptyString => EmptyString
  | S n', String _ s' => substring n' s'
  end.

(** A regular expression [/^p/i] for a literal [p]: a prefix test that ignores
    ASCII case. *)
Definition startsWith_ci (s p : string) : bool :=
  startsWith (toLowerCase s) (toLowerCase p).

(** [/^https?:\/\//i] *)
Definition test_http_scheme (s : string) : bool :=
  startsWith_ci s "http://" || startsWith_ci s "https://".

(** [/^https?%3A%2F%2F/i] *)
Definition test_encoded_http_scheme (s : string) : bool :=
  startsWith_ci s "http%3A%2F%2F" || startsWith_ci s "https%3A%2F%2F".

Definition nonempty (s : string) : bool := negb (String.eqb s "").

(** Truthiness of a value that is [null] or a string: the empty string is
    falsy. *)
Definition truthy (v : option string) : bool :=
  match v with
  | Some s => nonempty s
  | None => false
  end.

(** [v || d] for a string-or-null [v]. *)
Definition or_else (v : option string) (d : string) : string :=
  match v with
  | Some s => if nonempty s then s else d
  | None => d
  end.

(** [l.join(sep)] *)
Fixpoint join (sep : string) (l : list string) : string :=
  match l with
  | [] => ""
  | [x] => x
  | x :: l' => x +:+ sep +:+ join sep l'
  end.

(** [char.charCodeAt(0)] for each character of [s.split("")]. *)
Definition charCodes (s : string) : list Z :=
  map (fun c => Z.of_nat (nat_of_ascii c)) (list_ascii_of_string s).

(** ** JavaScript values that come out of [JSON.parse]

    A number is kept as the text [String(n)] gives for it, which tells any two
    numbers of a JSON text apart except the two zeros, which nothing in the
    handler distinguishes.  An object is kept as its members in the order of
    the text; [own_properties] below gives the properties of the object that
    [JSON.parse] builds from them. *)

Inductive json : Type :=
  | JNull
  | JBool (b : bool)
  | JNum (text : string)
  | JStr (s : string)
  | JArr (items : list json)
  | JObj (fields : list (string * json)).

(** ** Plain objects *)

Definition is_decimal_digit (c : ascii) : bool :=
  (48 <=? nat_of_ascii c)%nat && (nat_of_ascii c <=? 57)%nat.

Fixpoint decimal_value (acc : N) (s : string) : option N :=
  match s with
  | EmptyString => Some acc
  | String c rest =>
      if is_decimal_digit c then decimal_value (acc * 10 + (N_of_ascii c - 48)) rest
      else None
  end.

(** The array index a property name stands for, if any: the canonical decimal
    text of an integer below [2 ^ 32 - 1]. *)
Definition array_index (k : string) : option N :=
  match k with
  | EmptyString => None
  | String c rest =>
      if Ascii.eqb c "0" && nonempty rest then None
      else
        match decimal_value 0 k with
        | Some n => if (n <? 4294967295)%N then Some n else None
        | None => None
        end
  end.

Definition has_key (props : list (string * json)) (k : string) : bool :=
  existsb (fun kv => String.eqb kv.1 k) props.

(** A new value for a property the object has: the property keeps its place. *)
Fixpoint props_replace (props : list (string * json)) (k : string) (v : json)
  : list (string * json) :=
  match props with
  | [] => []
  | (k', v') :: rest =>
      if String.eqb k' k then (k', v) :: rest else (k', v') :: props_replace rest k v
  end.

(** Whether a new property [k] is enumerated before the property [k']: array
    indices come first, in ascending order, and every other name follows in
    the order of creation. *)
Definition goes_before (k k' : string) : bool :=
  match array_index k, array_index k' with
  | Some i, Some j => (i <? j)%N
  | Some _, None => true
  | None, _ => false
  end.

(** A property the object does not have yet, put at its place in the order of
    enumeration. *)
Fixpoint props_insert (props : list (string * json)) (k : string) (v : json)
  : list (string * json) :=
  match props with
  | [] => [(k, v)]
  | (k', v') :: rest =>
      if goes_before k k' then (k, v) :: props else (k', v') :: props_insert rest k v
  end.

(** Defining the own property [k] with the value [v]. *)
Definition props_set (props : list (string * json)) (k : string) (v : json)
  : list (string * json) :=
  if has_key props k then props_replace props k v else props_insert props k v.

(** [v !== null && typeof v === "object"] *)
Definition is_object (v : json) : bool :=
  match v with
  | JArr _ | JObj _ => true
  | _ => false
  end.

(** The own enumerable properties of a parsed value, in the order of
    enumeration: what [Object.assign] copies from it.  [JSON.parse] defines
    the members of an object one after the other, a repeated name keeping its
    place and taking the later value; an array has its items under their
    indices. *)
Definition own_properties (v : json) : list (string * json) :=
  match v with
  | JObj fields => fold_left (fun props kv => props_set props kv.1 kv.2) fields []
  | JArr items => imap (fun i x => (pretty i, x)) items
  | _ => []
  end.

(** A plain object: its own properties, and its prototype when an assignment
    to [__proto__] has replaced [Object.prototype] ([None] before that). *)
Record Obj : Type := mkObj {
  obj_proto : option json;
  obj_props : list (string * json)
}.

(** [{}] *)
Definition empty_object : Obj := mkObj None [].

(** Whether an assignment to [__proto__] reaches the accessor of
    [Object.prototype]: not below a [null] prototype, and not below a parsed
    object that has a member of that name. *)
Definition proto_accessor (proto : option json) : bool :=
  match proto with
  | None => true
  | Some (JObj fields) => negb (has_key fields "__proto__")
  | Some (JArr _) => true
  | Some _ => false
  end.

(** [o[k] = v].  An assignment to [__proto__] that reaches the accessor
    creates no property: it replaces the prototype when [v] is an object or
    [null], and does nothing otherwise. *)
Definition Obj_set (o : Obj) (k : string) (v : json) : Obj :=
  if String.eqb k "__proto__" && proto_accessor (obj_proto o) then
    match v with
    | JNull | JArr _ | JObj _ => mkObj (Some v) (obj_props o)
    | _ => o
    end
  else mkObj (obj_proto o) (props_set (obj_props o) k v).

(** [Object.assign(target, source)], given the own properties of [source]. *)
Definition Object_assign (target : Obj) (source : list (string * json)) : Obj :=
  fold_left (fun acc kv => Obj_set acc kv.1 kv.2) source target.

(** [o[k]] for an own property. *)
Fixpoint props_get (props : list (string * json)) (k : string) : option json :=
  match props with
  | [] => None
  | (k', v) :: rest => if String.eqb k' k then Some v else props_get rest k
  end.

(** The own properties of an object as a finite map. *)
Definition Obj_map (o : Obj) : gmap string json := list_to_map (obj_props o).

(** ** The runtime *)

(** A parsed URL, as far as the handler reads it. *)
Record URL : Type := mkURL {
  href : string;
  url_search : string
}.

Class Platform : Type := {
  (** [subject.match(pattern) !== null].  The configured patterns are taken to
      be well-formed regular expressions: on a malformed one [match] throws. *)
  regex_search : string -> string -> bool;
  (** [new URL(s)] *)
  URL_parse : string -> option URL;
  (** [new URLSearchParams(q)], as its list of entries *)
  parse_query : string -> list (string * string);
  decodeURIComponent : string -> option string;
  JSON_parse : string -> option json;
  JSON_stringify : json -> string;
  (** The message of the error [new Response] throws when it refuses a
      status. *)
  Response_error : Z -> string
}.

(** [searchParams.get(name)]: the first value recorded under [name]. *)
Fixpoint searchParams_get (params : list (string * string)) (name : string)
  : option string :=
  match params with
  | [] => None
  | (k, v) :: rest => if String.eqb k name then Some v else searchParams_get rest name
  end.

(** [Array.from(searchParams.keys())] *)
Definition searchParams_keys (params : list (string * string)) : list string :=
  map fst params.

(** [url.searchParams] *)
Definition URL_searchParams `{P : Platform} (u : URL) : list (string * string) :=
  parse_query (substring 1 (url_search u)).

(** ** Headers, requests and responses *)

(** A [Headers] object: for each name, in lower case, the values of the
    header lines of that name, in order. *)
Abbreviation Headers := (gmap string (list string)).

(** [headers.get(name)]: the values under the name, combined. *)
Definition Headers_get (h : Headers) (name : string) : option string :=
  join ", " <$> h !! toLowerCase name.

Definition Headers_set (h : Headers) (name value : string) : Headers :=
  <[toLowerCase name := [value]]> h.

Definition Headers_delete (h : Headers) (name : string) : Headers :=
  delete (toLowerCase name) h.

(** [headers.append(name, value)] *)
Definition Headers_append (h : Headers) (name value : string) : Headers :=
  <[toLowerCase name := (default [] (h !! toLowerCase name) ++ [value])%list]> h.

(** [new Headers(pairs)] from the header lines as they were received. *)
Definition Headers_of_list (lines : list (string * string)) : Headers :=
  fold_left (fun h kv => Headers_append h kv.1 kv.2) lines ∅.

(** The names of the headers, sorted, each once. *)
Definition Headers_names (h : Headers) : list string :=
  merge_sort (fun a b => Is_true (String.leb a b)) (map fst (map_to_list h)).

(** What iteration yields under one name: the combined value, except for
    [set-cookie], whose values are never combined. *)
Definition entry_values (name : string) (values : list string) : list string :=
  if String.eqb name "set-cookie" then values else [join ", " values].

(** Entries grouped by name, the way an iteration yields them. *)
Definition blocks {V : Type} (values : string -> list V) (names : list string)
  : list (string * V) :=
  flat_map (fun name => map (pair name) (values name)) names.

(** [Array.from(headers.entries())]: the names in sorted order, [set-cookie]
    once per value. *)
Definition Headers_entries (h : Headers) : list (string * string) :=
  blocks (fun name => entry_values name (default [] (h !! name))) (Headers_names h).

(** [Array.from(headers.keys())] *)
Definition Headers_keys (h : Headers) : list string :=
  map fst (Headers_entries h).

(** The well-formedness every [Headers] object has: its names are lower case,
    and a name it holds has a value. *)
Definition Headers_wf (h : Headers) : Prop :=
  forall k v, h !! k = Some v -> toLowerCase k = k /\ v <> [].

Record Config : Type := mkConfig {
  blacklistUrls : list string;
  whitelistOrigins : list string
}.

Definition DEFAULT_BLACKLIST_URLS : list string := [].
Definition DEFAULT_WHITELIST_ORIGINS : list string := [".*"].

(** [getConfig(env)] when the environment sets neither list. *)
Definition default_config : Config :=
  mkConfig DEFAULT_BLACKLIST_URLS DEFAULT_WHITELIST_ORIGINS.

(** The inbound request: its method, the query of its URL (the text after the
    question mark, empty when there is none), its headers and its body. *)
Record Request : Type := mkRequest {
  method : string;
  query : string;
  headers : Headers;
  body : option string
}.

(** [originUrl.search]: empty for an empty query, else the query with its
    question mark. *)
Definition URL_search_of (q : string) : string :=
  if nonempty q then "?" +:+ q else "".

(** A response body: none, a text, the informational page (whose text is
    not modelled), or the target's bytes, buffered or streamed. *)
Inductive Body : Type :=
  | BodyNull
  | BodyText (text : string)
  | BodyInfoPage
  | BodyBuffer (bytes : string)
  | BodyStream (bytes : string).

(** A response of the handler: the body and the options it gives to
    [new Response]. *)
Record Response : Type := mkResponse {
  status : Z;
  statusText : string;
  resp_headers : Headers;
  resp_body : Body
}.

(** What the target answers: [up_body] is [None] when [response.body] is
    [null], and otherwise the bytes of the body, read to the end. *)
Record UpstreamResponse : Type := mkUpstream {
  up_status : Z;
  up_statusText : string;
  up_headers : Headers;
  up_body : option string
}.

(** A status with which a response has no body. *)
Definition null_body_status (s : Z) : bool :=
  existsb (Z.eqb s) [101; 103; 204; 205; 304]%Z.

Definition body_is_null (b : Body) : bool :=
  match b with
  | BodyNull => true
  | _ => false
  end.

(** Whether [new Response(body, {status, ...})] builds a response.  It throws
    a [RangeError] for a status outside 200 to 599 and a [TypeError] for a
    body, even an empty one, with a null-body status.  The status text of a
    received response is a reason phrase, which the constructor accepts. *)
Definition Response_accepts (b : Body) (s : Z) : bool :=
  (200 <=? s)%Z && (s <=? 599)%Z && (body_is_null b || negb (null_body_status s)).

(** What becomes of the outbound request.  [new Request] may refuse its
    arguments (a header name or value it does not take, the method, a body on
    a [GET]); it is called before the handler's [try], so nothing catches that
    error.  Otherwise the request is fetched: the target answers and its body
    arrives whole, or the [fetch] throws an error with a message. *)
Inductive FetchResult : Type :=
  | Fetched (response : UpstreamResponse)
  | FetchFailed (message : string)
  | Refused.

(** The outbound request as the handler writes it: the arguments of
    [new Request(targetUrl, {method, headers, body, redirect: "follow"})].
    [out_headers] is the plain object [filteredHeaders], whose property names
    are told apart by letter case; the [Headers] object of the request is the
    runtime's work. *)
Record OutboundRequest : Type := mkOutbound {
  out_url : string;
  out_method : string;
  out_headers : Obj;
  out_body : option string
}.

(** ** CORS headers *)

(** [setupCORSHeaders(headers)], a closure over the request and
    [isPreflightRequest]. *)
Definition setupCORSHeaders (request : Request) (isPreflightRequest : bool)
    (headers0 : Headers) : Headers :=
  let origin := Headers_get (headers request) "Origin" in
  let h1 :=
    if truthy origin then
      Headers_set
        (Headers_set headers0 "Access-Control-Allow-Origin" (default "" origin))
        "Access-Control-Allow-Credentials" "true"
    else Headers_set headers0 "Access-Control-Allow-Origin" "*" in
  if isPreflightRequest then
    let requestMethod := Headers_get (headers request) "access-control-request-method" in
    let allowedMethods :=
      if truthy requestMethod then default "" requestMethod
      else "GET, POST, PUT, DELETE, PATCH, HEAD, OPTIONS" in
    let h2 := Headers_set h1 "Access-Control-Allow-Methods" allowedMethods in
    let requestedHeaders := Headers_get (headers request) "access-control-request-headers" in
    let h3 :=
      if truthy requestedHeaders then
        Headers_set h2 "Access-Control-Allow-Headers" (default "" requestedHeaders)
      else
        Headers_set h2 "Access-Control-Allow-Headers"
          "Content-Type, Authorization, X-Requested-With, Accept, Origin" in
    Headers_delete h3 "X-Content-Type-Options"
  else h1.

(** ** Fingerprint selection *)

(** [ToInt32] on an integer. *)
Definition wrap32 (z : Z) : Z := ((z + 2 ^ 31) mod 2 ^ 32 - 2 ^ 31)%Z.

(** [h << n]: both the operand and the result are 32-bit signed integers. *)
Definition shl32 (h n : Z) : Z := wrap32 (Z.shiftl (wrap32 h) n).

(** The reducer [(hash, char) => (hash << 5) - hash + char.charCodeAt(0)].
    Only the shift is a 32-bit operation: the subtraction and the addition are
    ordinary number arithmetic.  Numbers are doubles; the accumulator is an
    integer that grows by less than [2 ^ 32] per character
    ([fingerprintHash_bound]), so the arithmetic is exact on every target of
    fewer than [2 ^ 21] characters, and integers model it. *)
Definition hash_step (hash c : Z) : Z := (shl32 hash 5 - hash + c)%Z.

Definition fingerprintHash (targetUrl : string) : Z :=
  fold_left hash_step (charCodes targetUrl) 0%Z.

Definition dq : string := String "034"%char "".
Definition quoted (s : string) : string := dq +:+ s +:+ dq.

(** An object literal whose values are strings. *)
Definition object_of (fields : list (string * string)) : Obj :=
  mkObj None (fold_left (fun props kv => props_set props kv.1 (JStr kv.2)) fields []).

Definition chrome_accept : string :=
  "text/html,application/xhtml+xml,application/xml;q=0.9,image/avif,image/webp,image/apng,*/*;q=0.8,application/signed-exchange;v=b3;q=0.7".

Definition chrome_sec_ch_ua : string :=
  quoted "Not_A Brand" +:+ ";v=" +:+ quoted "8" +:+ ", " +:+
  quoted "Chromium" +:+ ";v=" +:+ quoted "120" +:+ ", " +:+
  quoted "Google Chrome" +:+ ";v=" +:+ quoted "120".

Definition browserFingerprints (referer secFetchSite : string) : list Obj :=
  [ (* Chrome on Windows *)
    object_of
      [ ("User-Agent", "Mozilla/5.0 (Windows NT 10.0; Win64; x64) AppleWebKit/537.36 (KHTML, like Gecko) Chrome/120.0.0.0 Safari/537.36");
        ("Accept", chrome_accept);
        ("Accept-Language", "en-US,en;q=0.9");
        ("Accept-Encoding", "gzip, deflate, br");
        ("Referer", referer);
        ("Sec-Ch-Ua", chrome_sec_ch_ua);
        ("Sec-Ch-Ua-Mobile", "?0");
        ("Sec-Ch-Ua-Platform", quoted "Windows");
        ("Sec-Ch-Ua-Platform-Version", quoted "15.0.0");
        ("Sec-Fetch-Dest", "document");
        ("Sec-Fetch-Mode", "navigate");
        ("Sec-Fetch-Site", secFetchSite);
        ("Sec-Fetch-User", "?1");
        ("Upgrade-Insecure-Requests", "1");
        ("Cache-Control", "max-age=0") ];
    (* Chrome on macOS *)
    object_of
      [ ("User-Agent", "Mozilla/5.0 (Macintosh; Intel Mac OS X 10_15_7) AppleWebKit/537.36 (KHTML, like Gecko) Chrome/120.0.0.0 Safari/537.36");
        ("Accept", chrome_accept);
        ("Accept-Language", "en-US,en;q=0.9");
        ("Accept-Encoding", "gzip, deflate, br");
        ("Referer", referer);
        ("Sec-Ch-Ua", chrome_sec_ch_ua);
        ("Sec-Ch-Ua-Mobile", "?0");
        ("Sec-Ch-Ua-Platform", quoted "macOS");
        ("Sec-Ch-Ua-Platform-Version", quoted "15.0.0");
        ("Sec-Fetch-Dest", "document");
        ("Sec-Fetch-Mode", "navigate");
        ("Sec-Fetch-Site", secFetchSite);
        ("Sec-Fetch-User", "?1");
        ("Upgrade-Insecure-Requests", "1");
        ("Cache-Control", "max-age=0") ];
    (* Firefox on Windows *)
    object_of
      [ ("User-Agent", "Mozilla/5.0 (Windows NT 10.0; Win64; x64; rv:121.0) Gecko/20100101 Firefox/121.0");
        ("Accept", "text/html,application/xhtml+xml,application/xml;q=0.9,image/avif,image/webp,*/*;q=0.8");
        ("Accept-Language", "en-US,en;q=0.5");
        ("Accept-Encoding", "gzip, deflate, br");
        ("Referer", referer);
        ("DNT", "1");
        ("Connection", "keep-alive");
        ("Upgrade-Insecure-Requests", "1");
        ("Sec-Fetch-Dest", "document");
        ("Sec-Fetch-Mode", "navigate");
        ("Sec-Fetch-Site", secFetchSite);
        ("Sec-Fetch-User", "?1");
        ("Cache-Control", "max-age=0") ];
    (* Safari on macOS *)
    object_of
      [ ("User-Agent", "Mozilla/5.0 (Macintosh; Intel Mac OS X 10_15_7) AppleWebKit/605.1.15 (KHTML, like Gecko) Version/17.1 Safari/605.1.15");
        ("Accept", "text/html,application/xhtml+xml,application/xml;q=0.9,*/*;q=0.8");
        ("Accept-Language", "en-US,en;q=0.9");
        ("Accept-Encoding", "gzip, deflate, br");
        ("Referer", referer);
        ("DNT", "1");
        ("Connection", "keep-alive");
        ("Upgrade-Insecure-Requests", "1");
        ("Sec-Fetch-Dest", "document");
        ("Sec-Fetch-Mode", "navigate");
        ("Sec-Fetch-Site", secFetchSite);
        ("Sec-Fetch-User", "?1");
        ("Cache-Control", "max-age=0") ] ].

(** [Math.abs(hash) % browserFingerprints.length]; the remainder is
    JavaScript's, which truncates. *)
Definition fingerprintIndex (targetUrl : string) : Z :=
  Z.rem (Z.abs (fingerprintHash targetUrl))
        (Z.of_nat (length (browserFingerprints "" ""))).

(** [browserFingerprints[fingerprintIndex]]; an index out of range reads
    [undefined], from which [Object.assign] copies nothing. *)
Definition defaultBrowserHeaders (targetUrl referer secFetchSite : string) : Obj :=
  default empty_object
    (browserFingerprints referer secFetchSite !! Z.to_nat (fingerprintIndex targetUrl)).

(** ** Outbound headers *)

(** [excludePatterns.some(pattern => pattern.test(key))]; the third pattern,
    [/^cf-/], carries no [i] flag. *)
Definition excluded (key : string) : bool :=
  startsWith_ci key "origin" ||
  startsWith_ci key "referer" ||
  startsWith key "cf-" ||
  startsWith_ci key "x-forw" ||
  startsWith_ci key "x-cors-headers".

(** The loop over [request.headers.entries()] that assigns every header that
    is not excluded to the object. *)
Definition overlay_inbound (target : Obj) (inbound : Headers) : Obj :=
  fold_left
    (fun acc kv => if excluded kv.1 then acc else Obj_set acc kv.1 (JStr kv.2))
    (Headers_entries inbound) target.

(** [filteredHeaders] once the three layers are in: the profile, the inbound
    headers, and [customHeaders] when it is a non-null object. *)
Definition filteredHeaders (profile : Obj) (inbound : Headers)
    (customHeaders : json) : Obj :=
  let o1 := Object_assign empty_object (obj_props profile) in
  let o2 := overlay_inbound o1 inbound in
  if is_object customHeaders then Object_assign o2 (own_properties customHeaders)
  else o2.

(** ** The handler *)

Section Handler.
Context `{P : Platform}.

(** [isListedInWhitelist(uri, listing)]; the blacklist is tested with the same
    function. *)
Definition isListedInWhitelist (uri : option string) (listing : list string) : bool :=
  match uri with
  | Some s => existsb (fun pattern => regex_search s pattern) listing
  | None => true
  end.

(** The test on the [stream] parameter of the target, inside its [try]: a
    target that does not parse is skipped. *)
Definition stream_requested (targetUrl : string) : bool :=
  if nonempty targetUrl then
    match URL_parse targetUrl with
    | Some url =>
        match searchParams_get (URL_searchParams url) "stream" with
        | Some streamParam => String.eqb streamParam "true" || String.eqb streamParam "1"
        | None => false
        end
    | None => false
    end
  else false.

(** [shouldStreamResponse(response, request, targetUrl)] *)
Definition shouldStreamResponse (response : UpstreamResponse) (request : Request)
    (targetUrl : string) : bool :=
  if String.eqb (method request) "OPTIONS" then false
  else
    let contentType := or_else (Headers_get (up_headers response) "content-type") "" in
    let transferEncoding := or_else (Headers_get (up_headers response) "transfer-encoding") "" in
    let acceptHeader := or_else (Headers_get (headers request) "accept") "" in
    if includes contentType "text/event-stream" then true
    else if includes (toLowerCase transferEncoding) "chunked" then true
    else if includes acceptHeader "text/event-stream" then true
    else if stream_requested targetUrl then true
    else
      let contentEncoding := or_else (Headers_get (up_headers response) "content-encoding") "" in
      if includes contentEncoding "chunked" then true
      else if includes contentType "application/x-ndjson" then true
      else if includes contentType "text/plain"
              && includes (toLowerCase transferEncoding) "chunked" then true
      else false.

(** The loop that rebuilds a target from the parsed parameters. *)
Definition reconstruct (params : list (string * string)) : string :=
  fold_left
    (fun reconstructed key =>
       let r1 := if nonempty reconstructed then reconstructed +:+ "/" else reconstructed in
       let r2 := r1 +:+ key in
       let value := searchParams_get params key in
       if truthy value then r2 +:+ "=" +:+ default "" value else r2)
    (searchParams_keys params) "".

(** The [try]/[catch] that percent-decodes the query once or twice. *)
Definition decodeCandidate (searchString : string) : string :=
  let attempt :=
    match decodeURIComponent searchString with
    | Some decoded =>
        if includes decoded "%" then decodeURIComponent decoded else Some decoded
    | None => None
    end in
  match attempt with
  | Some decoded => decoded
  | None =>
      if test_encoded_http_scheme searchString || test_http_scheme searchString then
        match decodeURIComponent searchString with
        | Some decoded => decoded
        | None => searchString
        end
      else searchString
  end.

(** The target as extracted from the query, before it is normalized. *)
Definition extractTarget (q : string) : option string :=
  let search := URL_search_of q in
  let searchParams := parse_query q in
  let targetUrl := searchParams_get searchParams "url" in
  if negb (truthy targetUrl) && startsWith search "?" then
    let searchString := substring 1 search in
    if nonempty searchString then
      let paramKeys := searchParams_keys searchParams in
      let targetUrl1 :=
        if (1 <? length paramKeys)%nat
           || ((length paramKeys =? 1)%nat && negb (includes searchString "=")) then
          let reconstructed := reconstruct searchParams in
          if test_http_scheme reconstructed then Some reconstructed else targetUrl
        else targetUrl in
      if negb (truthy targetUrl1) then Some (decodeCandidate searchString)
      else targetUrl1
    else targetUrl
  else targetUrl.

(** What is handed to [new URL]: the candidate, with [https://] in front of it
    unless it starts with a scheme of the web. *)
Definition with_scheme (targetUrl : string) : string :=
  if negb (test_http_scheme targetUrl) then "https://" +:+ targetUrl else targetUrl.

(** Validation and normalization of the target. *)
Definition normalizeTarget (targetUrl : option string) : option string :=
  if truthy targetUrl then
    match URL_parse (with_scheme (default "" targetUrl)) with
    | Some testUrl => Some (href testUrl)
    | None => None
    end
  else targetUrl.

(** [targetUrl] as the rest of the handler sees it. *)
Definition resolveTarget (q : string) : option string :=
  normalizeTarget (extractTarget q).

(** [customHeaders]: [null] without the header, the parsed value when the
    header parses, the header's text when it does not. *)
Definition customHeaders (request : Request) : json :=
  match Headers_get (headers request) "x-cors-headers" with
  | Some text =>
      match JSON_parse text with
      | Some value => value
      | None => JStr text
      end
  | None => JNull
  end.

(** The condition under which the handler serves the target. *)
Definition admitted (targetUrl originHeader : option string) (config : Config) : bool :=
  truthy targetUrl
  && negb (isListedInWhitelist targetUrl (blacklistUrls config))
  && isListedInWhitelist originHeader (whitelistOrigins config).

(** The outbound request of the relay branch, as the handler writes it. *)
Definition outboundRequest (request : Request) (targetUrl : string) : OutboundRequest :=
  let originHeader := Headers_get (headers request) "Origin" in
  let secFetchSite := if truthy originHeader then "cross-site" else "none" in
  let referer := or_else originHeader "https://www.google.com/" in
  mkOutbound targetUrl (method request)
    (filteredHeaders (defaultBrowserHeaders targetUrl referer secFetchSite)
                     (headers request) (customHeaders request))
    (body request).

(** The response of the [catch] block, for an error with the given message. *)
Definition errorResponse (request : Request) (isPreflightRequest : bool)
    (message : string) : Response :=
  mkResponse 502 "Bad Gateway" (setupCORSHeaders request isPreflightRequest ∅)
    (BodyText ("Error fetching target URL: " +:+ message)).

(** [Object.fromEntries(entries)]: the entries are defined one after the
    other, so of two entries of one name the later one stays. *)
Definition Object_fromEntries (entries : list (string * string)) : json :=
  JObj (fold_left (fun props kv => props_set props kv.1 (JStr kv.2)) entries []).

(** The body the relay hands on: the target's stream, which is [null] when
    the answer has no body, or its bytes in one buffer. *)
Definition relayBody (isPreflightRequest isStreaming : bool)
    (response : UpstreamResponse) : Body :=
  if isPreflightRequest then BodyNull
  else if isStreaming then
    match up_body response with
    | Some bytes => BodyStream bytes
    | None => BodyNull
    end
  else BodyBuffer (default "" (up_body response)).

(** The rest of the [try] block once the target has answered: the response
    built from the answer, or, when [new Response] refuses the status with
    the body at hand, the response of the [catch] block. *)
Definition relayResponse (request : Request) (isPreflightRequest : bool)
    (targetUrl : string) (response : UpstreamResponse) : Response :=
  let responseHeaders := up_headers response in
  let exposedHeaders :=
    (Headers_keys (up_headers response) ++ ["cors-received-headers"])%list in
  let allResponseHeaders := Object_fromEntries (Headers_entries (up_headers response)) in
  let h1 := setupCORSHeaders request isPreflightRequest responseHeaders in
  let h2 := Headers_set h1 "Access-Control-Expose-Headers" (join "," exposedHeaders) in
  let h3 := Headers_set h2 "cors-received-headers" (JSON_stringify allResponseHeaders) in
  let isStreaming := shouldStreamResponse response request targetUrl in
  let responseBody := relayBody isPreflightRequest isStreaming response in
  let status := if isPreflightRequest then 200%Z else up_status response in
  if Response_accepts responseBody status then
    mkResponse status (if isPreflightRequest then "OK" else up_statusText response)
               h3 responseBody
  else errorResponse request isPreflightRequest (Response_error status).

(** The page served with a 403. *)
Definition blocked_page : string :=
  "Create your own CORS proxy</br>" +:+ String "010"%char "" +:+
  "<a href='https://github.com/rozx/cloudflare-cors-anywhere'>https://github.com/rozx/cloudflare-cors-anywhere</a></br>"
  +:+ String "010"%char "".

(** [fetch(request, env, ctx)], with [config] for [getConfig(env)] and
    [upstream] for what becomes of the outbound request: the response, and the
    requests fetched on the way, or [None] when the handler ends in an error
    it does not catch, which is when [new Request] refuses the outbound
    request.  The other constructor calls are given a fresh [Headers] object
    and a literal status that goes with the body, which no runtime refuses.
    The patterns of [config] are regular expressions, as [regex_search] has
    it.  Logging is left out. *)
Definition fetch (upstream : OutboundRequest -> FetchResult) (config : Config)
    (request : Request) : option (Response * list OutboundRequest) :=
  let isPreflightRequest := String.eqb (method request) "OPTIONS" in
  let originHeader := Headers_get (headers request) "Origin" in
  let targetUrl := resolveTarget (query request) in
  if isPreflightRequest then
    if admitted targetUrl originHeader config then
      let preflightHeaders := setupCORSHeaders request isPreflightRequest ∅ in
      Some (mkResponse 200 "OK"
              (Headers_set preflightHeaders "Access-Control-Max-Age" "86400") BodyNull, [])
    else
      Some (mkResponse 403 "Forbidden" (setupCORSHeaders request isPreflightRequest ∅)
              BodyNull, [])
  else if admitted targetUrl originHeader config then
    let newRequest := outboundRequest request (default "" targetUrl) in
    match upstream newRequest with
    | Refused => None
    | Fetched response =>
        Some (relayResponse request isPreflightRequest (default "" targetUrl) response,
              [newRequest])
    | FetchFailed message =>
        Some (errorResponse request isPreflightRequest message, [newRequest])
    end
  else if negb (truthy targetUrl) then
    Some (mkResponse 200 "" (setupCORSHeaders request isPreflightRequest ∅) BodyInfoPage, [])
  else
    Some (mkResponse 403 "Forbidden"
            (Headers_set (setupCORSHeaders request isPreflightRequest ∅)
                         "Content-Type" "text/html")
            (BodyText blocked_page), []).

End Handler.

(** ** What the handler relies on from the runtime *)

Class PlatformLaws (P : Platform) : Prop := {
  (** [.*] matches at the start of every subject. *)
  regex_dot_star : forall s, regex_search s ".*" = true;
  (** A URL written with a web scheme serializes with that scheme, in lower
      case, followed by [://]. *)
  href_http : forall s u,
    startsWith_ci s "http://" = true -> URL_parse s = Some u ->
    startsWith (href u) "http://" = true;
  href_https : forall s u,
    startsWith_ci s "https://" = true -> URL_parse s = Some u ->
    startsWith (href u) "https://" = true;
  (** The empty string is no URL. *)
  URL_parse_empty : URL_parse "" = None;
  (** An empty query has no parameters. *)
  parse_query_empty : parse_query "" = [];
  (** Decoding never erases a whole non-empty string. *)
  decode_nonempty : forall s d,
    decodeURIComponent s = Some d -> s <> "" -> d <> ""
}.

(** ** A reference runtime

    An executable instance of [Platform] for closed examples.  Each function
    follows its standard on a fragment of the inputs, stated with it. *)

Module Reference.

(** *** Regular expressions

    The fragment: patterns made of literal characters, backslash-escaped
    punctuation, [.], the postfix operators [*], [+] and [?], and the
    assertions [^] and [$]. *)

Inductive atom : Type :=
  | Any
  | Lit (c : ascii)
  | Bol
  | Eol.

Inductive quant : Type := One | Star | Plus | Opt.

Definition set_quant (q : quant) (acc : list (atom * quant)) : list (atom * quant) :=
  match acc with
  | (a, _) :: rest => (a, q) :: rest
  | [] => []
  end.

(** The items of a pattern, last one first. *)
Fixpoint tokens (s : string) (escaped : bool) (acc : list (atom * quant))
  : list (atom * quant) :=
  match s with
  | EmptyString => acc
  | String c rest =>
      if escaped then tokens rest false ((Lit c, One) :: acc)
      else if Ascii.eqb c "\" then tokens rest true acc
      else if Ascii.eqb c "." then tokens rest false ((Any, One) :: acc)
      else if Ascii.eqb c "^" then tokens rest false ((Bol, One) :: acc)
      else if Ascii.eqb c "$" then tokens rest false ((Eol, One) :: acc)
      else if Ascii.eqb c "*" then tokens rest false (set_quant Star acc)
      else if Ascii.eqb c "+" then tokens rest false (set_quant Plus acc)
      else if Ascii.eqb c "?" then tokens rest false (set_quant Opt acc)
      else tokens rest false ((Lit c, One) :: acc)
  end.

Definition compile (pattern : string) : list (atom * quant) :=
  rev (tokens pattern false []).

Definition atom_matches (a : atom) (c : ascii) : bool :=
  match a with
  | Any => negb (Ascii.eqb c "010" || Ascii.eqb c "013")
  | Lit d => Ascii.eqb c d
  | Bol | Eol => false
  end.

(** Whether the items match a prefix of [text]; [at_start] tells whether
    [text] is the whole subject. *)
Fixpoint match_here (items : list (atom * quant)) (at_start : bool) (text : string)
  : bool :=
  match items with
  | [] => true
  | (Bol, _) :: rest => at_start && match_here rest at_start text
  | (Eol, _) :: rest => negb (nonempty text) && match_here rest at_start text
  | (a, One) :: rest =>
      match text with
      | String c t => atom_matches a c && match_here rest false t
      | EmptyString => false
      end
  | (a, Opt) :: rest =>
      match text with
      | String c t => atom_matches a c && match_here rest false t
      | EmptyString => false
      end
      || match_here rest at_start text
  | (a, Star) :: rest =>
      (fix star (at_start : bool) (text : string) : bool :=
         match_here rest at_start text
         || match text with
            | String c t => atom_matches a c && star false t
            | EmptyString => false
            end) at_start text
  | (a, Plus) :: rest =>
      match text with
      | String c t =>
          atom_matches a c &&
          (fix star (text : string) : bool :=
             match_here rest false text
             || match text with
                | String c t => atom_matches a c && star t
                | EmptyString => false
                end) t
      | EmptyString => false
      end
  end.

Fixpoint match_later (items : list (atom * quant)) (text : string) : bool :=
  match text with
  | EmptyString => false
  | String _ t => match_here items false t || match_later items t
  end.

(** [subject.match(pattern) !== null] *)
Definition search (subject pattern : string) : bool :=
  let items := compile pattern in
  match_here items true subject || match_later items subject.

(** *** Percent escapes *)

Definition hex_val (c : ascii) : option N :=
  let n := N_of_ascii c in
  if (48 <=? n)%N && (n <=? 57)%N then Some (n - 48)%N
  else if (65 <=? n)%N && (n <=? 70)%N then Some (n - 55)%N
  else if (97 <=? n)%N && (n <=? 102)%N then Some (n - 87)%N
  else None.

Definition escape_byte (a b : ascii) : option N :=
  match hex_val a, hex_val b with
  | Some x, Some y => Some (16 * x + y)%N
  | _, _ => None
  end.

(** A character of the input, or the byte an escape stands for. *)
Inductive piece : Type :=
  | Raw (c : ascii)
  | Esc (b : N).

(** The escapes of a string; [None] when a percent sign is not followed by two
    hexadecimal digits. *)
Fixpoint pieces (s : string) : option (list piece) :=
  match s with
  | EmptyString => Some []
  | String c rest =>
      if Ascii.eqb c "%" then
        match rest with
        | String a (String b rest') =>
            match escape_byte a b with
            | Some n => cons (Esc n) <$> pieces rest'
            | None => None
            end
        | _ => None
        end
      else cons (Raw c) <$> pieces rest
  end.

Definition in_range (lo hi b : N) : bool := (lo <=? b)%N && (b <=? hi)%N.
Definition continuation (b : N) : bool := in_range 128 191 b.

Definition byte (b : N) : ascii := ascii_of_N b.

(** The text the pieces stand for; [None] when escaped bytes above 127 do not
    spell a code point in UTF-8. *)
Fixpoint assemble (l : list piece) : option string :=
  match l with
  | [] => Some ""
  | Raw c :: rest => String c <$> assemble rest
  | Esc b1 :: rest =>
      if (b1 <? 128)%N then String (byte b1) <$> assemble rest
      else if in_range 194 223 b1 then
        match rest with
        | Esc b2 :: rest' =>
            if continuation b2
            then (fun t => String (byte b1) (String (byte b2) t)) <$> assemble rest'
            else None
        | _ => None
        end
      else if in_range 224 239 b1 then
        match rest with
        | Esc b2 :: Esc b3 :: rest' =>
            if in_range (if (b1 =? 224)%N then 160 else 128)
                        (if (b1 =? 237)%N then 159 else 191) b2
               && continuation b3
            then (fun t => String (byte b1) (String (byte b2) (String (byte b3) t)))
                   <$> assemble rest'
            else None
        | _ => None
        end
      else if in_range 240 244 b1 then
        match rest with
        | Esc b2 :: Esc b3 :: Esc b4 :: rest' =>
            if in_range (if (b1 =? 240)%N then 144 else 128)
                        (if (b1 =? 244)%N then 143 else 191) b2
               && continuation b3 && continuation b4
            then (fun t => String (byte b1) (String (byte b2)
                             (String (byte b3) (String (byte b4) t))))
                   <$> assemble rest'
            else None
        | _ => None
        end
      else None
  end.

(** [decodeURIComponent(s)]; [None] stands for a [URIError]. *)
Definition decode (s : string) : option string :=
  match pieces s with
  | Some l => assemble l
  | None => None
  end.

(** *** Query strings

    [application/x-www-form-urlencoded] parsing.  The fragment: input whose
    decoded bytes are well-formed UTF-8. *)

(** [s.split(sep)] *)
Fixpoint split_on (sep : ascii) (s : string) : list string :=
  match s with
  | EmptyString => [""]
  | String c rest =>
      if Ascii.eqb c sep then "" :: split_on sep rest
      else
        match split_on sep rest with
        | x :: l => String c x :: l
        | [] => [String c ""]
        end
  end.

(** The text before the first [sep] and the text after it. *)
Fixpoint cut (sep : ascii) (s : string) : string * string :=
  match s with
  | EmptyString => ("", "")
  | String c rest =>
      if Ascii.eqb c sep then ("", rest)
      else let '(a, b) := cut sep rest in (String c a, b)
  end.

(** Percent-decoding that leaves a malformed escape as it is, after each plus
    sign has become a space. *)
Fixpoint form_decode (s : string) : string :=
  match s with
  | EmptyString => ""
  | String c rest =>
      if Ascii.eqb c "+" then String " " (form_decode rest)
      else if Ascii.eqb c "%" then
        match rest with
        | String a (String b rest') =>
            match escape_byte a b with
            | Some n => String (byte n) (form_decode rest')
            | None => String c (form_decode rest)
            end
        | _ => String c (form_decode rest)
        end
      else String c (form_decode rest)
  end.

Definition query_entries (q : string) : list (string * string) :=
  map (fun item => let '(k, v) := cut "=" item in (form_decode k, form_decode v))
      (filter (fun item => item <> "") (split_on "&" q)).

(** *** URLs

    The fragment: ASCII input without surrounding blanks, tabs or line
    breaks, with a domain-name host, without credentials, whose path, query and
    fragment hold no dot segment, no backslash and no character that the
    serializer would escape. *)

Definition is_alpha (c : ascii) : bool :=
  let n := N_of_ascii c in in_range 65 90 n || in_range 97 122 n.

Definition is_digit (c : ascii) : bool := in_range 48 57 (N_of_ascii c).

Definition is_scheme_char (c : ascii) : bool :=
  is_alpha c || is_digit c || Ascii.eqb c "+" || Ascii.eqb c "-" || Ascii.eqb c ".".

(** The longest prefix whose characters satisfy [keep], and the rest. *)
Fixpoint span (keep : ascii -> bool) (s : string) : string * string :=
  match s with
  | EmptyString => ("", "")
  | String c rest =>
      if keep c then let '(a, b) := span keep rest in (String c a, b)
      else ("", s)
  end.

Definition is_one_of (set : string) (c : ascii) : bool :=
  existsb (Ascii.eqb c) (list_ascii_of_string set).

Definition forbidden_host_char (c : ascii) : bool :=
  let n := N_of_ascii c in
  (n <=? 32)%N || (127 <=? n)%N || is_one_of "#%/:<>?@[\]^|" c.

Definition all_chars (p : ascii -> bool) (s : string) : bool :=
  forallb p (list_ascii_of_string s).

Definition special_scheme (scheme : string) : option N :=
  if String.eqb scheme "http" then Some 80%N
  else if String.eqb scheme "https" then Some 443%N
  else if String.eqb scheme "ftp" then Some 21%N
  else if String.eqb scheme "ws" then Some 80%N
  else if String.eqb scheme "wss" then Some 443%N
  else None.

Definition decimal (s : string) : N :=
  fold_left (fun acc c => (10 * acc + (N_of_ascii c - 48))%N) (list_ascii_of_string s) 0%N.

(** The port as it is serialized: nothing for no port or the default one. *)
Definition port_text (default_port : N) (port : string) : option string :=
  match port with
  | EmptyString => Some ""
  | String _ digits =>
      if negb (all_chars is_digit digits) then None
      else if negb (nonempty digits) then Some ""
      else
        let n := decimal digits in
        if (65535 <? n)%N then None
        else if (n =? default_port)%N then Some ""
        else Some (":" +:+ pretty n)
  end.

(** A URL of a special scheme: the text after [scheme:]. *)
Definition parse_special (scheme : string) (default_port : N) (rest : string)
  : option URL :=
  let '(_, rest2) := span (is_one_of "/\") rest in
  let '(authority, rest3) := span (fun c => negb (is_one_of "/\?#" c)) rest2 in
  let '(host, port) := span (fun c => negb (Ascii.eqb c ":")) authority in
  if negb (nonempty host) || negb (all_chars (fun c => negb (forbidden_host_char c)) host)
  then None
  else
    match port_text default_port port with
    | None => None
    | Some port' =>
        let '(path, rest4) := span (fun c => negb (is_one_of "?#" c)) rest3 in
        let '(qry, fragment) := span (fun c => negb (Ascii.eqb c "#")) rest4 in
        Some (mkURL
                (scheme +:+ "://" +:+
                 (toLowerCase host +:+ port' +:+ (if nonempty path then path else "/")
                  +:+ qry +:+ fragment))
                (if String.eqb qry "?" then "" else qry))
    end.

(** [new URL(s)] *)
Definition parse_url (s : string) : option URL :=
  let '(name, rest) := span is_scheme_char s in
  match name, rest with
  | String c _, String colon rest1 =>
      if is_alpha c && Ascii.eqb colon ":" then
        let scheme := toLowerCase name in
        match special_scheme scheme with
        | Some default_port => parse_special scheme default_port rest1
        | None =>
            let '(_, rest2) := span (fun c => negb (is_one_of "?#" c)) rest1 in
            let '(qry, _) := span (fun c => negb (Ascii.eqb c "#")) rest2 in
            Some (mkURL (scheme +:+ ":" +:+ rest1) (if String.eqb qry "?" then "" else qry))
        end
      else None
  | _, _ => None
  end.

(** *** JSON

    The fragment: numbers are integer literals, and a [\u] escape names an
    ASCII character. *)

Definition is_ws (c : ascii) : bool :=
  Ascii.eqb c " " || Ascii.eqb c "009" || Ascii.eqb c "010" || Ascii.eqb c "013".

Fixpoint skip_ws (s : string) : string :=
  match s with
  | String c rest => if is_ws c then skip_ws rest else s
  | EmptyString => ""
  end.

Definition unescape (e : ascii) : option ascii :=
  if Ascii.eqb e "034" then Some "034"%char
  else if Ascii.eqb e "\" then Some "\"%char
  else if Ascii.eqb e "/" then Some "/"%char
  else if Ascii.eqb e "b" then Some "008"%char
  else if Ascii.eqb e "f" then Some "012"%char
  else if Ascii.eqb e "n" then Some "010"%char
  else if Ascii.eqb e "r" then Some "013"%char
  else if Ascii.eqb e "t" then Some "009"%char
  else None.

Definition push (c : ascii) (r : string * string) : string * string :=
  (String c r.1, r.2).

(** The text of a string literal after its opening quote, and what follows
    its closing quote. *)
Fixpoint string_body (s : string) : option (string * string) :=
  match s with
  | EmptyString => None
  | String c rest =>
      if Ascii.eqb c "034" then Some ("", rest)
      else if Ascii.eqb c "\" then
        match rest with
        | String e rest' =>
            if Ascii.eqb e "u" then
              match rest' with
              | String a (String b (String x (String y rest''))) =>
                  match escape_byte a b, escape_byte x y with
                  | Some 0%N, Some n =>
                      if (n <? 128)%N then push (byte n) <$> string_body rest'' else None
                  | _, _ => None
                  end
              | _ => None
              end
            else
              match unescape e with
              | Some ch => push ch <$> string_body rest'
              | None => None
              end
        | EmptyString => None
        end
      else if (N_of_ascii c <? 32)%N then None
      else push c <$> string_body rest
  end.

(** An integer literal of at most fifteen digits at the head of [s]: the
    numbers whose text [String] gives back digit for digit. *)
Definition number (s : string) : option (json * string) :=
  let '(negative, s1) :=
    match s with
    | String c rest => if Ascii.eqb c "-" then (true, rest) else (false, s)
    | EmptyString => (false, s)
    end in
  let '(digits, rest) := span is_digit s1 in
  let more :=
    match rest with
    | String c _ => is_one_of ".eE" c
    | EmptyString => false
    end in
  if negb (nonempty digits) || more
     || (startsWith digits "0" && negb (String.eqb digits "0"))
     || (15 <? String.length digits)%nat then None
  else
    Some (JNum (if negative && negb (String.eqb digits "0") then "-" +:+ digits
                else digits), rest).

Definition keyword (word : string) (v : json) (s : string) : option (json * string) :=
  if startsWith s word then Some (v, substring (String.length word) s) else None.

Fixpoint value (fuel : nat) (s : string) : option (json * string) :=
  match fuel with
  | O => None
  | S fuel' =>
      match skip_ws s with
      | EmptyString => None
      | String c rest =>
          if Ascii.eqb c "{" then
            match skip_ws rest with
            | String d after =>
                if Ascii.eqb d "}" then Some (JObj [], after)
                else (fun r => (JObj r.1, r.2)) <$> members fuel' rest
            | EmptyString => None
            end
          else if Ascii.eqb c "[" then
            match skip_ws rest with
            | String d after =>
                if Ascii.eqb d "]" then Some (JArr [], after)
                else (fun r => (JArr r.1, r.2)) <$> elements fuel' rest
            | EmptyString => None
            end
          else if Ascii.eqb c "034" then
            (fun r => (JStr r.1, r.2)) <$> string_body rest
          else if Ascii.eqb c "t" then keyword "true" (JBool true) (String c rest)
          else if Ascii.eqb c "f" then keyword "false" (JBool false) (String c rest)
          else if Ascii.eqb c "n" then keyword "null" JNull (String c rest)
          else number (String c rest)
      end
  end
with elements (fuel : nat) (s : string) : option (list json * string) :=
  match fuel with
  | O => None
  | S fuel' =>
      match value fuel' s with
      | Some (v, rest) =>
          match skip_ws rest with
          | String c after =>
              if Ascii.eqb c "," then
                (fun r => (v :: r.1, r.2)) <$> elements fuel' after
              else if Ascii.eqb c "]" then Some ([v], after)
              else None
          | EmptyString => None
          end
      | None => None
      end
  end
with members (fuel : nat) (s : string) : option (list (string * json) * string) :=
  match fuel with
  | O => None
  | S fuel' =>
      match skip_ws s with
      | String q rest =>
          if Ascii.eqb q "034" then
            match string_body rest with
            | Some (key, rest1) =>
                match skip_ws rest1 with
                | String colon rest2 =>
                    if Ascii.eqb colon ":" then
                      match value fuel' rest2 with
                      | Some (v, rest3) =>
                          match skip_ws rest3 with
                          | String c after =>
                              if Ascii.eqb c "," then
                                (fun r => ((key, v) :: r.1, r.2)) <$> members fuel' after
                              else if Ascii.eqb c "}" then Some ([(key, v)], after)
                              else None
                          | EmptyString => None
                          end
                      | None => None
                      end
                    else None
                | EmptyString => None
                end
            | None => None
            end
          else None
      | EmptyString => None
      end
  end.

(** [JSON.parse(s)]; [None] stands for a [SyntaxError]. *)
Definition parse_json (s : string) : option json :=
  match value (2 * String.length s + 2) s with
  | Some (v, rest) => if nonempty (skip_ws rest) then None else Some v
  | None => None
  end.

Definition hex_digit (n : N) : ascii :=
  if (n <? 10)%N then ascii_of_N (48 + n) else ascii_of_N (87 + n).

Fixpoint escape_text (s : string) : string :=
  match s with
  | EmptyString => ""
  | String c rest =>
      let n := N_of_ascii c in
      (if Ascii.eqb c "034" then "\" +:+ dq
       else if Ascii.eqb c "\" then "\\"
       else if (n =? 8)%N then "\b"
       else if (n =? 9)%N then "\t"
       else if (n =? 10)%N then "\n"
       else if (n =? 12)%N then "\f"
       else if (n =? 13)%N then "\r"
       else if (n <? 32)%N then
         "\u00" +:+ String (hex_digit (n / 16)) (String (hex_digit (n mod 16)) "")
       else String c "")
      +:+ escape_text rest
  end.

(** [JSON.stringify(v)] *)
Fixpoint stringify (v : json) : string :=
  match v with
  | JNull => "null"
  | JBool true => "true"
  | JBool false => "false"
  | JNum text => text
  | JStr s => quoted (escape_text s)
  | JArr items => "[" +:+ join "," (map stringify items) +:+ "]"
  | JObj fields =>
      "{" +:+
      join "," (map (fun kv => let '(k, x) := kv in
                               quoted (escape_text k) +:+ ":" +:+ stringify x) fields)
      +:+ "}"
  end.

End Reference.

Definition reference_platform : Platform := {|
  regex_search := Reference.search;
  URL_parse := Reference.parse_url;
  parse_query := Reference.query_entries;
  decodeURIComponent := Reference.decode;
  JSON_parse := Reference.parse_json;
  JSON_stringify := Reference.stringify;
  Response_error := fun status => "Invalid response status code " +:+ pretty status
|}.

(** ** The specification's own words

    Definitions that follow the specification rather than the code, for
    comparison with the code. *)

(** The invariant of a resolved target: [null], or a string that starts with
    [http://] or [https://]. *)
Definition TargetUrl_inv (t : option string) : Prop :=
  match t with
  | None => True
  | Some h => startsWith h "http://" = true \/ startsWith h "https://" = true
  end.

(** The fingerprint hash as the specification words it: the recurrence
    [hash * 31 + charCode], wrapped to a signed 32-bit integer at every step. *)
Definition hash32_step (hash c : Z) : Z := wrap32 (hash * 31 + c).

Definition hash32 (targetUrl : string) : Z :=
  fold_left hash32_step (charCodes targetUrl) 0%Z.

Definition fingerprintIndex_spec (targetUrl : string) : Z :=
  (Z.abs (hash32 targetUrl) mod 4)%Z.

(** "The target URL has a [stream] query parameter equal to [true] or [1]". *)
Definition has_stream_parameter `{P : Platform} (targetUrl : string) : Prop :=
  exists url,
    URL_parse targetUrl = Some url /\
    (searchParams_get (URL_searchParams url) "stream" = Some "true" \/
     searchParams_get (URL_searchParams url) "stream" = Some "1").

(** The six conditions the specification lists for streaming a response. *)
Definition stream_conditions_spec `{P : Platform} (response : UpstreamResponse)
    (request : Request) (targetUrl : string) : Prop :=
  let contentType := or_else (Headers_get (up_headers response) "content-type") "" in
  let transferEncoding := or_else (Headers_get (up_headers response) "transfer-encoding") "" in
  let acceptHeader := or_else (Headers_get (headers request) "accept") "" in
  includes contentType "text/event-stream" = true
  \/ includes (toLowerCase transferEncoding) "chunked" = true
  \/ includes acceptHeader "text/event-stream" = true
  \/ has_stream_parameter targetUrl
  \/ includes contentType "application/x-ndjson" = true
  \/ (includes contentType "text/plain" = true
      /\ includes (toLowerCase transferEncoding) "chunked" = true).

(** The five exclusion patterns of the specification, each matched without
    regard to letter case. *)
Definition excluded_spec (name : string) : bool :=
  existsb (startsWith_ci name) ["origin"; "referer"; "cf-"; "x-forw"; "x-cors-headers"].

(** A header set as the specification has it: a finite map from names to
    values.  Overlaying entries on it, a later entry taking precedence. *)
Definition overlay {V : Type} (entries : list (string * V)) (base : gmap string V)
  : gmap string V :=
  fold_left (fun m kv => <[kv.1 := kv.2]> m) entries base.

(** The inbound header map: for each name, the value the request has under
    it, which for [set-cookie] is that of the last line. *)
Definition header_map (h : Headers) : gmap string string :=
  map_imap (fun name values => last (entry_values name values)) h.

(** The custom headers as the specification has them: the entries of the
    value of [x-cors-headers] when it parses as a JSON object, and nothing
    otherwise. *)
Definition custom_entries_spec `{P : Platform} (x_cors_headers : option string)
  : list (string * json) :=
  match x_cors_headers with
  | Some text =>
      match JSON_parse text with
      | Some (JObj fields) => fields
      | _ => []
      end
  | None => []
  end.

(** The outbound headers as the specification composes them: the profile,
    overlaid with the inbound headers that match no exclusion pattern,
    overlaid with the custom headers. *)
Definition composeOutbound_spec `{P : Platform} (profile : gmap string json)
    (inbound : gmap string string) (x_cors_headers : option string)
  : gmap string json :=
  overlay (custom_entries_spec x_cors_headers)
    ((JStr <$> filter (fun kv => excluded_spec kv.1 = false) inbound) ∪ profile).

(** The same composition with the two amendments the code calls for: a JSON
    array counts as custom headers, with its items under their indices, and
    the name [__proto__] is never overlaid, be it inbound or custom. *)
Definition assignable (name : string) : bool := negb (String.eqb name "__proto__").

Definition custom_entries `{P : Platform} (x_cors_headers : option string)
  : list (string * json) :=
  match x_cors_headers with
  | Some text =>
      match JSON_parse text with
      | Some (JObj fields) => fields
      | Some (JArr items) => imap (fun i item => (pretty i, item)) items
      | _ => []
      end
  | None => []
  end.

Definition composeOutbound `{P : Platform} (profile : gmap string json)
    (inbound : gmap string string) (x_cors_headers : option string)
  : gmap string json :=
  overlay (filter (fun kv => assignable kv.1 = true) (custom_entries x_cors_headers))
    ((JStr <$> filter (fun kv => excluded_spec kv.1 = false /\ assignable kv.1 = true)
                      inbound) ∪ profile).

(** What [filteredHeaders] expects of a profile: an object literal without
    repeated names and without [__proto__]. *)
Definition profile_wf (profile : Obj) : Prop :=
  NoDup (obj_props profile).*1 /\ "__proto__" ∉ (obj_props profile).*1.

(** One parsed parameter as the specification writes it: the key, followed by
    [=value] when its value, the one [searchParams.get] returns for the key, is
    not empty. *)
Definition parameter_text (params : list (string * string)) (key : string) : string :=
  let value := searchParams_get params key in
  if truthy value then key +:+ "=" +:+ default "" value else key.

(** The reconstruction as the specification words it: the parameters joined
    by a slash. *)
Definition reconstruct_spec (params : list (string * string)) : string :=
  join "/" (map (parameter_text params) (searchParams_keys params)).

(** "More than one parameter key was parsed, or exactly one key was parsed and
    the original string contains no [=]". *)
Definition reconstruction_attempted (params : list (string * string))
    (searchString : string) : bool :=
  (1 <? length (searchParams_keys params))%nat
  || ((length (searchParams_keys params) =? 1)%nat && negb (includes searchString "=")).

(** The candidate of a legacy query as the specification words it. *)
Definition legacyCandidate_spec `{P : Platform} (q : string) : string :=
  let params := parse_query q in
  if reconstruction_attempted params q && test_http_scheme (reconstruct_spec params)
  then reconstruct_spec params
  else decodeCandidate q.

(** One turn of the reconstruction loop, in terms of [parameter_text]. *)
Definition reconstruct_step (params : list (string * string))
    (reconstructed key : string) : string :=
  (if nonempty reconstructed then reconstructed +:+ "/" else reconstructed)
  +:+ parameter_text params key.

(** What follows the first item of a joined list. *)
Definition joined_tail (sep : string) (l : list string) : string :=
  fold_right (fun x r => sep +:+ x +:+ r) "" l.

(** A list of strings without its leading empty strings. *)
Fixpoint drop_empty (l : list string) : list string :=
  match l with
  | [] => []
  | x :: l' => if nonempty x then l else drop_empty l'
  end.

(** Progressive decoding as the specification words it: a failed decoding
    falls back to the previous level. *)
Definition decodeCandidate_spec `{P : Platform} (searchString : string) : string :=
  match decodeURIComponent searchString with
  | None => searchString
  | Some once =>
      if includes once "%" then
        match decodeURIComponent once with
        | Some twice => twice
        | None => once
        end
      else once
  end.

(** ** Configuration and version *)

(** The [CF_VERSION_METADATA] binding: each field a string, or missing. *)
Record VersionMetadata : Type := mkVersionMetadata {
  vm_id : option string;
  vm_tag : option string;
  vm_timestamp : option string
}.

(** The environment of the worker, as far as it is read: each variable a
    string, or missing. *)
Record Env : Type := mkEnv {
  CF_VERSION_METADATA : option VersionMetadata;
  VERSION : option string;
  DEPLOYMENT_VERSION : option string;
  BLACKLIST_URLS : option string;
  WHITELIST_ORIGINS : option string
}.

(** What [getConfig] returns: two arrays, of whatever values the environment's
    JSON holds. *)
Record ParsedConfig : Type := mkParsedConfig {
  parsed_blacklistUrls : list json;
  parsed_whitelistOrigins : list json
}.

(** [getConfig(env)]; [env] itself may be missing. *)
Definition getConfig `{P : Platform} (env : option Env) : ParsedConfig :=
  let blacklistUrls0 := map JStr DEFAULT_BLACKLIST_URLS in
  let whitelistOrigins0 := map JStr DEFAULT_WHITELIST_ORIGINS in
  match env with
  | Some env =>
      let blacklistUrls1 :=
        if truthy (BLACKLIST_URLS env) then
          match JSON_parse (default "" (BLACKLIST_URLS env)) with
          | Some (JArr items) => items
          | Some _ => map JStr DEFAULT_BLACKLIST_URLS
          | None => map JStr DEFAULT_BLACKLIST_URLS
          end
        else blacklistUrls0 in
      let whitelistOrigins1 :=
        if truthy (WHITELIST_ORIGINS env) then
          match JSON_parse (default "" (WHITELIST_ORIGINS env)) with
          | Some (JArr items) => items
          | Some _ => map JStr DEFAULT_WHITELIST_ORIGINS
          | None => map JStr DEFAULT_WHITELIST_ORIGINS
          end
        else whitelistOrigins0 in
      mkParsedConfig blacklistUrls1 whitelistOrigins1
  | None => mkParsedConfig blacklistUrls0 whitelistOrigins0
  end.

(** A setting that [getConfig] cannot use: missing, empty, not JSON, or JSON
    that is no array. *)
Definition unusable `{P : Platform} (setting : option string) : Prop :=
  truthy setting = false \/
  forall items, JSON_parse (default "" setting) <> Some (JArr items).

(** The patterns of an array whose items are all strings. *)
Fixpoint pattern_strings (items : list json) : option (list string) :=
  match items with
  | [] => Some []
  | JStr s :: rest => cons s <$> pattern_strings rest
  | _ :: _ => None
  end.

(** The configuration the handler matches with, when every pattern is a
    string. *)
Definition Config_of (c : ParsedConfig) : option Config :=
  match pattern_strings (parsed_blacklistUrls c),
        pattern_strings (parsed_whitelistOrigins c) with
  | Some b, Some w => Some (mkConfig b w)
  | _, _ => None
  end.

(** What [getVersionMetadata] returns. *)
Record VersionInfo : Type := mkVersionInfo {
  version : string;
  versionId : option string;
  versionTag : option string;
  versionTimestamp : option string
}.

Section Version.
(** [s.trim()], and the version of the package, which the build writes into a
    file of its own. *)
Variable trim : string -> string.
Variable DEFAULT_VERSION : string.

(** [getVersionMetadata(env)] *)
Definition getVersionMetadata (env : option Env) : VersionInfo :=
  let fallback :=
    let version :=
      or_else (env ≫= VERSION) (or_else (env ≫= DEPLOYMENT_VERSION) DEFAULT_VERSION) in
    mkVersionInfo version None None None in
  match env ≫= CF_VERSION_METADATA with
  | Some metadata =>
      let id := vm_id metadata in
      let tag := vm_tag metadata in
      let timestamp := vm_timestamp metadata in
      let versionId :=
        if truthy id && nonempty (trim (default "" id)) then id else None in
      let versionTag :=
        if truthy tag && nonempty (trim (default "" tag)) then tag else None in
      let versionTimestamp :=
        if truthy timestamp
           && negb (String.eqb (default "" timestamp) "0001-01-01T00:00:00Z")
           && nonempty (trim (default "" timestamp))
        then timestamp else None in
      if truthy versionId || truthy versionTag then
        mkVersionInfo
          (if truthy versionTag then default "" versionTag else default "" versionId)
          versionId versionTag versionTimestamp
      else fallback
  | None => fallback
  end.

End Version.

(** [s.trim()] on text whose blanks are ASCII: the text between its first and
    its last character that is no blank. *)
Definition is_blank (c : ascii) : bool :=
  let n := nat_of_ascii c in
  ((9 <=? n)%nat && (n <=? 13)%nat) || (n =? 32)%nat.

Fixpoint trimStart (s : string) : string :=
  match s with
  | String c rest => if is_blank c then trimStart rest else s
  | EmptyString => ""
  end.

Fixpoint trimEnd (s : string) : string :=
  match s with
  | String c rest =>
      let rest' := trimEnd rest in
      if is_blank c && negb (nonempty rest') then "" else String c rest'
  | EmptyString => ""
  end.

Definition ascii_trim (s : string) : string := trimEnd (trimStart s).

(** ** The service-worker variant

    [src/index.js] is the same proxy written as a [fetch] event listener.  It
    shares [getConfig], [isListedInWhitelist], [setupCORSHeaders], the custom
    headers and the outbound request with the worker, word for word.  It
    differs in how the target is read from the query (no reconstruction from
    parameters, no normalization), in buffering every answer, and in the text
    of its informational page. *)

Section Listener.
Context `{P : Platform}.

(** The text of the informational page of this variant, which is made of data
    of the request that is not modelled. *)
Variable infoText : Request -> string.

(** [targetUrl] of the listener: the [url] parameter, or else the query
    decoded twice, or once, or as it is. *)
Definition listener_targetUrl (q : string) : option string :=
  let search := URL_search_of q in
  let targetUrl := searchParams_get (parse_query q) "url" in
  if negb (truthy targetUrl) && startsWith search "?" then
    let searchString := substring 1 search in
    if nonempty searchString then
      match decodeURIComponent searchString ≫= decodeURIComponent with
      | Some decoded => Some decoded
      | None =>
          match decodeURIComponent searchString with
          | Some decoded => Some decoded
          | None => Some searchString
          end
      end
    else targetUrl
  else targetUrl.

(** The rest of the listener's [try] block once the target has answered:
    the response is always built from one buffer, and [new Response] may
    refuse it as in the worker. *)
Definition listener_relayResponse (request : Request) (isPreflightRequest : bool)
    (response : UpstreamResponse) : Response :=
  let responseHeaders := up_headers response in
  let exposedHeaders :=
    (Headers_keys (up_headers response) ++ ["cors-received-headers"])%list in
  let allResponseHeaders := Object_fromEntries (Headers_entries (up_headers response)) in
  let h1 := setupCORSHeaders request isPreflightRequest responseHeaders in
  let h2 := Headers_set h1 "Access-Control-Expose-Headers" (join "," exposedHeaders) in
  let h3 := Headers_set h2 "cors-received-headers" (JSON_stringify allResponseHeaders) in
  let responseBody :=
    if isPreflightRequest then BodyNull else BodyBuffer (default "" (up_body response)) in
  let status := if isPreflightRequest then 200%Z else up_status response in
  if Response_accepts responseBody status then
    mkResponse status (if isPreflightRequest then "OK" else up_statusText response)
               h3 responseBody
  else errorResponse request isPreflightRequest (Response_error status).

(** The function given to [event.respondWith], with [config] for
    [getConfig(event.env)], which is the default configuration where the
    event has no [env], and [upstream] for what becomes of the outbound
    request, as in [fetch]; [None] when the promise is rejected because
    [new Request] refuses its arguments, of which the target is one: the
    listener hands it over as it read it. *)
Definition listener (upstream : OutboundRequest -> FetchResult) (config : Config)
    (request : Request) : option (Response * list OutboundRequest) :=
  let isPreflightRequest := String.eqb (method request) "OPTIONS" in
  let originHeader := Headers_get (headers request) "Origin" in
  let targetUrl := listener_targetUrl (query request) in
  if isPreflightRequest then
    if admitted targetUrl originHeader config then
      let preflightHeaders := setupCORSHeaders request isPreflightRequest ∅ in
      Some (mkResponse 200 "OK"
              (Headers_set preflightHeaders "Access-Control-Max-Age" "86400") BodyNull, [])
    else
      Some (mkResponse 403 "Forbidden" (setupCORSHeaders request isPreflightRequest ∅)
              BodyNull, [])
  else if admitted targetUrl originHeader config then
    let newRequest := outboundRequest request (default "" targetUrl) in
    match upstream newRequest with
    | Refused => None
    | Fetched response =>
        Some (listener_relayResponse request isPreflightRequest response, [newRequest])
    | FetchFailed message =>
        Some (errorResponse request isPreflightRequest message, [newRequest])
    end
  else if negb (truthy targetUrl) then
    Some (mkResponse 200 "" (setupCORSHeaders request isPreflightRequest ∅)
            (BodyText (infoText request)), [])
  else
    Some (mkResponse 403 "Forbidden"
            (Headers_set (setupCORSHeaders request isPreflightRequest ∅)
                         "Content-Type" "text/html")
            (BodyText blocked_page), []).

End Listener.

(** ** Sample requests and answers *)

(** A [GET] for the query [q] with the given header lines. *)
Definition plain_get (q : string) (lines : list (string * string)) : Request :=
  mkRequest "GET" q (Headers_of_list lines) None.

(** A preflight for the query [q] with the given header lines. *)
Definition preflight (q : string) (lines : list (string * string)) : Request :=
  mkRequest "OPTIONS" q (Headers_of_list lines) None.

(** A response that only announces [content-encoding: aws-chunked]. *)
Definition aws_chunked_response : UpstreamResponse :=
  mkUpstream 200 "OK"
    (Headers_of_list [("Content-Type", "application/json");
                      ("Content-Encoding", "aws-chunked")])
    (Some "{}").

(** A target that cannot be reached. *)
Definition unreachable : OutboundRequest -> FetchResult :=
  fun _ => FetchFailed "connection refused".

(** * Properties *)

(** ** Strings *)

Lemma append_assoc (a b c : string) : (a +:+ b) +:+ c = a +:+ (b +:+ c).
Proof. induction a as [|x a IH]; simpl; [reflexivity | now rewrite IH]. Qed.

Lemma startsWith_app (p s : string) : startsWith (p +:+ s) p = true.
Proof.
  induction p as [|c p IH]; simpl.
  - reflexivity.
  - rewrite IH, Ascii.eqb_refl. reflexivity.
Qed.

Lemma nonempty_true (s : string) : nonempty s = true <-> s <> "".
Proof.
  unfold nonempty. rewrite negb_true_iff, String.eqb_neq. reflexivity.
Qed.

Lemma nonempty_false (s : string) : nonempty s = false <-> s = "".
Proof.
  unfold nonempty. rewrite negb_false_iff, String.eqb_eq. reflexivity.
Qed.

Lemma truthy_Some (v : option string) :
  truthy v = true <-> exists s, v = Some s /\ s <> "".
Proof.
  destruct v as [s|]; simpl.
  - rewrite nonempty_true. split; [eauto | intros (? & [= <-] & ?); assumption].
  - split; [discriminate | intros (? & [=] & _)].
Qed.

Lemma test_http_scheme_nonempty (s : string) :
  test_http_scheme s = true -> s <> "".
Proof. intros H ->. discriminate H. Qed.

(** Lower-casing only ever changes an upper-case letter. *)
Lemma lower_ascii_inv (c d : ascii) :
  lower_ascii c = d ->
  c = d \/ (c = ascii_of_nat (nat_of_ascii d - 32) /\ is_upper c = true).
Proof.
  intros <-.
  destruct c as [[] [] [] [] [] [] [] []]; vm_compute; auto.
Qed.

Lemma lower_ascii_idem (c : ascii) : lower_ascii (lower_ascii c) = lower_ascii c.
Proof. destruct c as [[] [] [] [] [] [] [] []]; reflexivity. Qed.

Lemma toLowerCase_idem (s : string) : toLowerCase (toLowerCase s) = toLowerCase s.
Proof.
  induction s as [|c s IH]; simpl; [reflexivity|].
  now rewrite lower_ascii_idem, IH.
Qed.

(** On a lower-case name, a prefix test that ignores case is a plain prefix
    test. *)
Lemma startsWith_ci_lower (key p : string) :
  toLowerCase key = key -> toLowerCase p = p ->
  startsWith_ci key p = startsWith key p.
Proof. unfold startsWith_ci. now intros -> ->. Qed.

(** ** The reference runtime satisfies the laws *)

Lemma parse_special_href (scheme : string) (port : N) (rest : string) (u : URL) :
  Reference.parse_special scheme port rest = Some u ->
  startsWith (href u) (scheme +:+ "://") = true.
Proof.
  unfold Reference.parse_special.
  repeat case_match; intros; simplify_eq; cbn [href];
    rewrite <- (append_assoc scheme "://"); apply startsWith_app.
Qed.

Ltac next_char s H :=
  let Hc := fresh "Hc" in
  destruct s as [|? s]; cbn [startsWith toLowerCase] in H; [discriminate H|];
  apply andb_prop in H as [Hc H];
  apply Ascii.eqb_eq in Hc; symmetry in Hc; apply lower_ascii_inv in Hc; simpl in Hc.

Ltac pick_case Hc :=
  destruct Hc as [-> | [-> Hc]]; [| try discriminate Hc; clear Hc].

Lemma reference_href_https (s : string) (u : URL) :
  startsWith_ci s "https://" = true -> Reference.parse_url s = Some u ->
  startsWith (href u) "https://" = true.
Proof.
  unfold startsWith_ci. intros H.
  change (toLowerCase "https://") with "https://" in H.
  do 8 next_char s H.
  clear H.
  pick_case Hc; pick_case Hc0; pick_case Hc1; pick_case Hc2; pick_case Hc3;
    pick_case Hc4; pick_case Hc5; pick_case Hc6;
    change (Reference.parse_special "https" 443 (String "/" (String "/" s)) = Some u ->
            startsWith (href u) ("https" +:+ "://") = true);
    apply parse_special_href.
Qed.

Lemma reference_href_http (s : string) (u : URL) :
  startsWith_ci s "http://" = true -> Reference.parse_url s = Some u ->
  startsWith (href u) "http://" = true.
Proof.
  unfold startsWith_ci. intros H.
  change (toLowerCase "http://") with "http://" in H.
  do 7 next_char s H.
  clear H.
  pick_case Hc; pick_case Hc0; pick_case Hc1; pick_case Hc2; pick_case Hc3;
    pick_case Hc4; pick_case Hc5;
    change (Reference.parse_special "http" 80 (String "/" (String "/" s)) = Some u ->
            startsWith (href u) ("http" +:+ "://") = true);
    apply parse_special_href.
Qed.

Lemma reference_decode_nonempty (s d : string) :
  Reference.decode s = Some d -> s <> "" -> d <> "".
Proof.
  unfold Reference.decode. intros H Hs.
  destruct s as [|c s]; [congruence|].
  cbn [Reference.pieces] in H.
  repeat (case_match; simplify_option_eq; try discriminate).
Qed.

Lemma reference_dot_star (s : string) : Reference.search s ".*" = true.
Proof. destruct s; reflexivity. Qed.

Lemma reference_laws : PlatformLaws reference_platform.
Proof.
  split; simpl.
  - exact reference_dot_star.
  - exact reference_href_http.
  - exact reference_href_https.
  - reflexivity.
  - reflexivity.
  - exact reference_decode_nonempty.
Qed.

(** ** Admission *)

Section Admission.
Context `{P : Platform}.

Lemma isListedInWhitelist_true (s : string) (listing : list string) :
  isListedInWhitelist (Some s) listing = true <->
  exists pattern, In pattern listing /\ regex_search s pattern = true.
Proof. simpl. apply existsb_exists. Qed.

Lemma isListedInWhitelist_false (s : string) (listing : list string) :
  isListedInWhitelist (Some s) listing = false <->
  forall pattern, In pattern listing -> regex_search s pattern = false.
Proof.
  simpl. induction listing as [|p l IH]; simpl.
  - split; [intros _ ? [] | reflexivity].
  - rewrite orb_false_iff, IH. split.
    + intros [Hp Hl] q [<- | Hq]; auto.
    + intros H. split; [apply H; now left | intros q Hq; apply H; now right].
Qed.

Lemma TargetUrl_inv_truthy (t : option string) :
  TargetUrl_inv t -> truthy t = true <-> t <> None.
Proof.
  destruct t as [h|]; simpl.
  - intros Hinv. split; [discriminate | intros _].
    apply nonempty_true. intros ->. destruct Hinv as [H | H]; discriminate H.
  - intros _. split; [discriminate | congruence].
Qed.

(** C1.  A resolved target with an origin header is admitted exactly when the
    target is not null, no blacklist pattern is found in the target, and the
    origin header is null or some whitelist pattern is found in it; under the
    default configuration every target that is not null is admitted, whatever
    the origin. *)
Theorem admission_rule (targetUrl originHeader : option string) (config : Config) :
  PlatformLaws P -> TargetUrl_inv targetUrl ->
  (admitted targetUrl originHeader config = true <->
     targetUrl <> None /\
     (forall t pattern,
        targetUrl = Some t -> In pattern (blacklistUrls config) ->
        regex_search t pattern = false) /\
     (originHeader = None \/
      exists o pattern,
        originHeader = Some o /\ In pattern (whitelistOrigins config) /\
        regex_search o pattern = true))
  /\ (targetUrl <> None -> admitted targetUrl originHeader default_config = true).
Proof.
  intros L Hinv. pose proof (TargetUrl_inv_truthy _ Hinv) as Ht.
  unfold admitted. split.
  - rewrite !andb_true_iff, negb_true_iff, Ht.
    destruct targetUrl as [t|]; [|split; [intros [[Hn _] _] | intros [Hn _]]; congruence].
    rewrite isListedInWhitelist_false.
    destruct originHeader as [o|].
    + rewrite isListedInWhitelist_true. split.
      * intros [[_ Hb] (p & Hin & Hm)]. split; [discriminate|]. split.
        -- intros t' q [= <-]. apply Hb.
        -- right. eauto.
      * intros (_ & Hb & [Ho | (o' & p & [= <-] & Hin & Hm)]); [discriminate|].
        split; [split; [discriminate | eauto] | eauto].
    + simpl. split.
      * intros [[_ Hb] _]. split; [discriminate|]. split; [|now left].
        intros t' q [= <-]. apply Hb.
      * intros (_ & Hb & _). split; [split; [discriminate | eauto] | reflexivity].
  - intros Hn. apply Ht in Hn. rewrite Hn.
    destruct targetUrl as [t|]; [|discriminate Hn].
    destruct originHeader as [o|]; simpl; [|reflexivity].
    now rewrite regex_dot_star.
Qed.

End Admission.

Lemma admission_rule_witness :
  admitted (P := reference_platform) (Some "https://httpbin.org/get")
           (Some "https://app.test") default_config = true.
Proof.
  refine (proj2 (admission_rule (P := reference_platform) (Some "https://httpbin.org/get")
                   (Some "https://app.test") default_config reference_laws _) _).
  - right. reflexivity.
  - discriminate.
Defined.

(** ** Target resolution *)

Section Resolver.
Context `{P : Platform} (L : PlatformLaws P).

Lemma decodeCandidate_nonempty (searchString : string) :
  searchString <> "" -> decodeCandidate searchString <> "".
Proof.
  intros Hs. unfold decodeCandidate.
  destruct (decodeURIComponent searchString) as [d1|] eqn:H1.
  - pose proof (decode_nonempty _ _ H1 Hs) as Hd1.
    destruct (includes d1 "%").
    + destruct (decodeURIComponent d1) as [d2|] eqn:H2.
      * exact (decode_nonempty _ _ H2 Hd1).
      * destruct (_ || _); assumption.
    + assumption.
  - destruct (_ || _); assumption.
Qed.

Lemma URL_search_of_cons (c : ascii) (q : string) :
  URL_search_of (String c q) = "?" +:+ String c q.
Proof. reflexivity. Qed.

(** Every candidate the handler extracts is a non-empty string. *)
Lemma extractTarget_nonempty (q c : string) :
  extractTarget q = Some c -> c <> "".
Proof.
  unfold extractTarget.
  set (targetUrl := searchParams_get (parse_query q) "url").
  destruct (truthy targetUrl) eqn:Ht; cbn [negb andb].
  - intros Hc. rewrite Hc in Ht. now apply nonempty_true.
  - destruct q as [|a q].
    + subst targetUrl. rewrite parse_query_empty. discriminate.
    + rewrite URL_search_of_cons. cbn [String.append startsWith substring].
      rewrite Ascii.eqb_refl. cbn [andb].
      change (nonempty (String a q)) with true. cbv iota.
      destruct (_ || _).
      * destruct (test_http_scheme (reconstruct (parse_query (String a q)))) eqn:Hr.
        -- simpl. apply test_http_scheme_nonempty in Hr.
           apply nonempty_true in Hr. rewrite Hr. simpl.
           intros [= <-]. now apply nonempty_true.
        -- rewrite Ht. cbn [negb]. intros [= <-].
           now apply decodeCandidate_nonempty.
      * rewrite Ht. cbn [negb]. intros [= <-].
        now apply decodeCandidate_nonempty.
Qed.

Lemma with_scheme_cases (c : string) :
  (startsWith_ci c "http://" = true /\ with_scheme c = c) \/
  startsWith_ci (with_scheme c) "https://" = true.
Proof.
  unfold with_scheme, test_http_scheme.
  destruct (startsWith_ci c "http://") eqn:H1; [now left|].
  destruct (startsWith_ci c "https://") eqn:H2; [now right|].
  right. reflexivity.
Qed.

Lemma normalizeTarget_Some (c : string) :
  c <> "" ->
  normalizeTarget (Some c)
  = href <$> URL_parse (if test_http_scheme c then c else "https://" +:+ c).
Proof.
  intros Hc. unfold normalizeTarget, with_scheme. simpl.
  apply nonempty_true in Hc. rewrite Hc.
  destruct (test_http_scheme c); simpl; now destruct (URL_parse _).
Qed.

Lemma normalizeTarget_inv (c : string) :
  c <> "" -> TargetUrl_inv (normalizeTarget (Some c)).
Proof.
  intros Hc. unfold normalizeTarget. simpl.
  apply nonempty_true in Hc. rewrite Hc.
  destruct (URL_parse (with_scheme c)) as [u|] eqn:Hu; simpl; [|exact I].
  destruct (with_scheme_cases c) as [[H Heq] | H].
  - left. rewrite Heq in Hu. exact (href_http _ _ H Hu).
  - right. exact (href_https _ _ H Hu).
Qed.

(** C3.  A candidate that does not start with [http://] or [https://], in
    any letter case, gets [https://] in front of it before it is parsed as a
    URL, and the target is null when that fails; without a candidate the
    target is null; every candidate the handler extracts from a query is a
    non-empty string; and the resolved target is null or a string that starts
    with [http://] or [https://]. *)
Theorem target_normalization (q c : string) :
  (c <> "" ->
   normalizeTarget (Some c)
   = href <$> URL_parse (if test_http_scheme c then c else "https://" +:+ c)
   /\ TargetUrl_inv (normalizeTarget (Some c)))
  /\ normalizeTarget None = None
  /\ (forall c', extractTarget q = Some c' -> c' <> "")
  /\ TargetUrl_inv (resolveTarget q).
Proof.
  split; [|split; [|split]].
  - intros Hc. split; [now apply normalizeTarget_Some | now apply normalizeTarget_inv].
  - reflexivity.
  - intros c'. apply extractTarget_nonempty.
  - unfold resolveTarget. destruct (extractTarget q) as [c'|] eqn:Hq.
    + apply normalizeTarget_inv. exact (extractTarget_nonempty _ _ Hq).
    + exact I.
Qed.

(** C10, as the code has it.  A candidate that does not start with [http://]
    or [https://] is not accepted as it is, whatever scheme it carries: the
    handler parses [https://] followed by the candidate, so the resolved target
    is null or starts with [https://]. *)
Theorem foreign_scheme_prefixed (c : string) :
  c <> "" -> test_http_scheme c = false ->
  normalizeTarget (Some c) = href <$> URL_parse ("https://" +:+ c)
  /\ (forall t, normalizeTarget (Some c) = Some t -> startsWith t "https://" = true).
Proof.
  intros Hc Ht. rewrite (normalizeTarget_Some _ Hc), Ht. split; [reflexivity|].
  intros t. destruct (URL_parse ("https://" +:+ c)) as [u|] eqn:Hu; [|discriminate].
  intros [= <-]. exact (href_https ("https://" +:+ c) u eq_refl Hu).
Qed.

End Resolver.

Lemma target_normalization_witness :
  TargetUrl_inv (resolveTarget (P := reference_platform) "api.example.com/data").
Proof.
  exact (proj2 (proj2 (proj2
    (target_normalization (P := reference_platform) reference_laws
       "api.example.com/data" "api.example.com/data")))).
Defined.

(** The specification's example of a candidate without a scheme. *)
Example resolve_without_scheme :
  resolveTarget (P := reference_platform) "api.example.com/data"
  = Some "https://api.example.com/data".
Proof. vm_compute. reflexivity. Qed.

Lemma foreign_scheme_prefixed_witness :
  normalizeTarget (P := reference_platform) (Some "ftp://host/path")
  = href <$> URL_parse (Platform := reference_platform) "https://ftp://host/path".
Proof.
  refine (proj1 (foreign_scheme_prefixed (P := reference_platform) reference_laws
                   "ftp://host/path" _ _)).
  - discriminate.
  - reflexivity.
Defined.

(** C10, as the specification words it, fails: [ftp://host/path] parses as a
    URL of scheme [ftp], and the handler resolves it to a URL of scheme
    [https] whose host is [ftp]. *)
Lemma foreign_scheme_not_kept :
  URL_parse (Platform := reference_platform) "ftp://host/path"
    = Some (mkURL "ftp://host/path" "")
  /\ normalizeTarget (P := reference_platform) (Some "ftp://host/path")
     = Some "https://ftp//host/path"
  /\ resolveTarget (P := reference_platform) "url=ftp://host/path"
     = Some "https://ftp//host/path"
  /\ resolveTarget (P := reference_platform) "url=ftp://host/path"
     <> Some "ftp://host/path".
Proof. vm_compute. repeat split; discriminate. Qed.

(** ** Fingerprint selection *)

Section Fingerprint.
Local Open Scope Z_scope.

Lemma wrap32_mod (z : Z) : wrap32 z mod 2 ^ 32 = z mod 2 ^ 32.
Proof.
  unfold wrap32. rewrite Zminus_mod_idemp_l.
  f_equal. lia.
Qed.

Lemma wrap32_congr (a b : Z) : a mod 2 ^ 32 = b mod 2 ^ 32 -> wrap32 a = wrap32 b.
Proof.
  intros H. unfold wrap32.
  rewrite (Z.add_mod a), (Z.add_mod b), H by lia. reflexivity.
Qed.

Lemma wrap32_range (z : Z) : - 2 ^ 31 <= wrap32 z < 2 ^ 31.
Proof.
  unfold wrap32. pose proof (Z.mod_pos_bound (z + 2 ^ 31) (2 ^ 32)). lia.
Qed.

Lemma wrap32_id (z : Z) : - 2 ^ 31 <= z < 2 ^ 31 -> wrap32 z = z.
Proof.
  intros H. unfold wrap32. rewrite Z.mod_small; lia.
Qed.

(** One step of the code's reducer is, modulo [2 ^ 32], one step of the
    multiply-by-31 recurrence. *)
Lemma hash_step_wrap (h c : Z) : wrap32 (hash_step h c) = hash32_step (wrap32 h) c.
Proof.
  unfold hash_step, hash32_step, shl32. apply wrap32_congr.
  rewrite Z.shiftl_mul_pow2 by lia.
  rewrite Z.add_mod, Zminus_mod, wrap32_mod by lia.
  rewrite (Z.mul_mod (wrap32 h)), wrap32_mod, <- Z.mul_mod by lia.
  rewrite <- Zminus_mod, <- Z.add_mod by lia.
  rewrite (Z.add_mod (wrap32 h * 31)), (Z.mul_mod (wrap32 h)), wrap32_mod by lia.
  rewrite <- Z.mul_mod, <- Z.add_mod by lia.
  f_equal. lia.
Qed.

Lemma fold_hash_wrap (codes : list Z) (h : Z) :
  wrap32 (fold_left hash_step codes h) = fold_left hash32_step codes (wrap32 h).
Proof.
  revert h. induction codes as [|c codes IH]; intros h; simpl.
  - reflexivity.
  - rewrite IH, hash_step_wrap. reflexivity.
Qed.

Lemma hash_step_bound (h c : Z) :
  0 <= c < 256 -> Z.abs (hash_step h c) <= Z.abs h + 2 ^ 32.
Proof.
  intros Hc. unfold hash_step, shl32.
  pose proof (wrap32_range (Z.shiftl (wrap32 h) 5)). lia.
Qed.

Lemma charCodes_range (s : string) : Forall (fun c => 0 <= c < 256) (charCodes s).
Proof.
  unfold charCodes. induction s as [|a s IH]; simpl; constructor; [|exact IH].
  pose proof (nat_ascii_bounded a). lia.
Qed.

Lemma fold_hash_bound (codes : list Z) (h : Z) :
  Forall (fun c => 0 <= c < 256) codes ->
  Z.abs (fold_left hash_step codes h) <= Z.abs h + Z.of_nat (length codes) * 2 ^ 32.
Proof.
  intros H. revert h. induction H as [|c codes Hc _ IH]; intros h; simpl length.
  - simpl. lia.
  - cbn [fold_left]. specialize (IH (hash_step h c)).
    pose proof (hash_step_bound h c Hc). lia.
Qed.

Lemma length_charCodes (s : string) : length (charCodes s) = String.length s.
Proof.
  unfold charCodes. rewrite length_map.
  induction s as [|a s IH]; simpl; [reflexivity | now rewrite IH].
Qed.

(** The accumulator stays an integer that a double represents exactly as long
    as the target has fewer than [2 ^ 21] characters. *)
Lemma fingerprintHash_bound (targetUrl : string) :
  Z.abs (fingerprintHash targetUrl) <= Z.of_nat (String.length targetUrl) * 2 ^ 32.
Proof.
  unfold fingerprintHash.
  pose proof (fold_hash_bound (charCodes targetUrl) 0 (charCodes_range targetUrl)) as H.
  rewrite length_charCodes in H. simpl Z.abs in H. lia.
Qed.

Lemma browserFingerprints_length (referer secFetchSite : string) :
  length (browserFingerprints referer secFetchSite) = 4%nat.
Proof. reflexivity. Qed.

Lemma fingerprintIndex_mod (targetUrl : string) :
  fingerprintIndex targetUrl = Z.abs (fingerprintHash targetUrl) mod 4.
Proof.
  unfold fingerprintIndex. rewrite browserFingerprints_length.
  apply Z.rem_mod_nonneg; lia.
Qed.

(** C7, as the code has it.  Selection is a function of the target alone; the
    index is the absolute value, reduced modulo 4, of an accumulator that the
    reducer [(hash << 5) - hash + charCode] does not wrap: only its shift is a
    32-bit operation.  The accumulator is congruent modulo [2 ^ 32] to the
    32-bit hash of the recurrence [hash * 31 + charCode]; the index lies in
    [0..3], names an entry of the table, and is the index of the 32-bit hash
    whenever the accumulator ends within the signed 32-bit range. *)
Theorem fingerprint_selection (t1 t2 referer secFetchSite : string) :
  (t1 = t2 ->
   fingerprintIndex t1 = fingerprintIndex t2 /\
   defaultBrowserHeaders t1 referer secFetchSite
   = defaultBrowserHeaders t2 referer secFetchSite)
  /\ fingerprintIndex t1 = Z.abs (fingerprintHash t1) mod 4
  /\ wrap32 (fingerprintHash t1) = hash32 t1
  /\ 0 <= fingerprintIndex t1 < 4
  /\ browserFingerprints referer secFetchSite !! Z.to_nat (fingerprintIndex t1)
     = Some (defaultBrowserHeaders t1 referer secFetchSite)
  /\ (- 2 ^ 31 <= fingerprintHash t1 < 2 ^ 31 ->
      fingerprintIndex t1 = fingerprintIndex_spec t1).
Proof.
  assert (Hr : 0 <= fingerprintIndex t1 < 4).
  { rewrite fingerprintIndex_mod. apply Z.mod_pos_bound. lia. }
  assert (Hw : wrap32 (fingerprintHash t1) = hash32 t1).
  { unfold fingerprintHash, hash32. now rewrite fold_hash_wrap. }
  split; [|split; [|split; [|split; [|split]]]].
  - intros ->. now split.
  - apply fingerprintIndex_mod.
  - exact Hw.
  - exact Hr.
  - unfold defaultBrowserHeaders.
    destruct (browserFingerprints referer secFetchSite !! Z.to_nat (fingerprintIndex t1))
      as [profile|] eqn:Hp; [reflexivity|].
    apply lookup_ge_None in Hp. rewrite browserFingerprints_length in Hp. lia.
  - intros Hrange. rewrite fingerprintIndex_mod. unfold fingerprintIndex_spec.
    now rewrite <- Hw, wrap32_id.
Qed.

(** C7, as the specification words it, fails: on [https://example.com/] the
    accumulator ends at [2438468897], above the signed 32-bit range, so the
    handler selects entry 1 where the wrapped 32-bit hash, [-1856498399], gives
    entry 3. *)
Lemma fingerprint_not_int32 :
  fingerprintHash "https://example.com/" = 2438468897
  /\ hash32 "https://example.com/" = -1856498399
  /\ fingerprintIndex "https://example.com/" = 1
  /\ fingerprintIndex_spec "https://example.com/" = 3
  /\ fingerprintIndex "https://example.com/" <> fingerprintIndex_spec "https://example.com/".
Proof. vm_compute. repeat split; discriminate. Qed.

End Fingerprint.

(** ** The streaming decision *)

Section Streaming.
Context `{P : Platform} (L : PlatformLaws P).

Lemma stream_requested_iff (targetUrl : string) :
  stream_requested targetUrl = true <-> has_stream_parameter targetUrl.
Proof.
  unfold stream_requested, has_stream_parameter.
  destruct (nonempty targetUrl) eqn:Hn.
  - destruct (URL_parse targetUrl) as [url|].
    + destruct (searchParams_get (URL_searchParams url) "stream") as [v|] eqn:Hv.
      * rewrite orb_true_iff, !String.eqb_eq. split.
        -- intros [-> | ->]; exists url; (split; [reflexivity | auto]).
        -- intros (? & [= <-] & Hs). rewrite Hv in Hs.
           destruct Hs as [[= ->] | [= ->]]; auto.
      * split; [discriminate | intros (? & [= <-] & Hs)].
        rewrite Hv in Hs. destruct Hs as [[=] | [=]].
    + split; [discriminate | intros (? & [=] & _)].
  - apply nonempty_false in Hn. subst targetUrl. rewrite URL_parse_empty.
    split; [discriminate | intros (? & [=] & _)].
Qed.

(** C5, as the code has it.  A response to a request that is not a preflight
    is streamed exactly when one of the six listed conditions holds or the
    response's [content-encoding] contains [chunked]; a response to a
    preflight is never streamed. *)
Theorem streaming_decision (response : UpstreamResponse) (request : Request)
    (targetUrl : string) :
  (method request <> "OPTIONS" ->
   (shouldStreamResponse response request targetUrl = true <->
    stream_conditions_spec response request targetUrl
    \/ includes (or_else (Headers_get (up_headers response) "content-encoding") "")
                "chunked" = true))
  /\ (method request = "OPTIONS" ->
      shouldStreamResponse response request targetUrl = false).
Proof.
  unfold shouldStreamResponse, stream_conditions_spec. split.
  - intros Hm. apply String.eqb_neq in Hm. rewrite Hm.
    rewrite <- stream_requested_iff.
    destruct (includes _ "text/event-stream"); [tauto|].
    destruct (includes (toLowerCase _) "chunked"); [tauto|].
    destruct (includes _ "text/event-stream"); [tauto|].
    destruct (stream_requested targetUrl); [tauto|].
    destruct (includes _ "chunked"); [tauto|].
    destruct (includes _ "application/x-ndjson"); [tauto|].
    destruct (includes _ "text/plain"); simpl; intuition discriminate.
  - intros ->. reflexivity.
Qed.

End Streaming.

Lemma streaming_decision_witness :
  shouldStreamResponse (P := reference_platform) aws_chunked_response
    (plain_get "url=https://example.com/data" []) "https://example.com/data" = true.
Proof.
  apply (proj1 (streaming_decision (P := reference_platform) reference_laws
                  aws_chunked_response (plain_get "url=https://example.com/data" [])
                  "https://example.com/data")).
  - discriminate.
  - right. reflexivity.
Defined.

(** C5, as the specification words it, fails: a response to a [GET] whose only
    sign of streaming is [content-encoding: aws-chunked] is streamed, and
    none of the six listed conditions holds for it. *)
Lemma content_encoding_streams :
  shouldStreamResponse (P := reference_platform) aws_chunked_response
    (plain_get "url=https://example.com/data" []) "https://example.com/data" = true
  /\ ~ stream_conditions_spec (P := reference_platform) aws_chunked_response
        (plain_get "url=https://example.com/data" []) "https://example.com/data".
Proof.
  split; [reflexivity|].
  unfold stream_conditions_spec, has_stream_parameter.
  intros [H | [H | [H | [(url & Hu & Hs) | [H | [H _]]]]]];
    try (vm_compute in H; discriminate H).
  vm_compute in Hu. injection Hu as <-.
  vm_compute in Hs. destruct Hs as [Hs | Hs]; discriminate Hs.
Qed.

(** ** CORS headers *)

Lemma Headers_get_set_eq (h : Headers) (name value name' : string) :
  toLowerCase name = toLowerCase name' ->
  Headers_get (Headers_set h name value) name' = Some value.
Proof. unfold Headers_get, Headers_set. intros <-. now rewrite lookup_insert_eq. Qed.

Lemma Headers_get_set_ne (h : Headers) (name value name' : string) :
  toLowerCase name <> toLowerCase name' ->
  Headers_get (Headers_set h name value) name' = Headers_get h name'.
Proof. unfold Headers_get, Headers_set. intros H. now rewrite lookup_insert_ne. Qed.

Lemma Headers_get_delete_ne (h : Headers) (name name' : string) :
  toLowerCase name <> toLowerCase name' ->
  Headers_get (Headers_delete h name) name' = Headers_get h name'.
Proof. unfold Headers_get, Headers_delete. intros H. now rewrite lookup_delete_ne. Qed.

Lemma Headers_get_empty (name : string) : Headers_get ∅ name = None.
Proof. unfold Headers_get. now rewrite lookup_empty. Qed.

(** Rewrites a lookup through the updates made with literal names. *)
Ltac headers_lookup :=
  repeat first
    [ rewrite Headers_get_set_eq by reflexivity
    | rewrite Headers_get_set_ne by discriminate
    | rewrite Headers_get_delete_ne by discriminate
    | rewrite Headers_get_empty ].

Section Cors.
Variable request : Request.

Let origin : option string := Headers_get (headers request) "Origin".

(** What [setupCORSHeaders] leaves under [Access-Control-Allow-Origin]. *)
Lemma setupCORSHeaders_origin (isPreflightRequest : bool) (h : Headers) :
  Headers_get (setupCORSHeaders request isPreflightRequest h) "Access-Control-Allow-Origin"
  = Some (if truthy origin then default "" origin else "*").
Proof.
  unfold setupCORSHeaders. fold origin.
  destruct isPreflightRequest, (truthy origin);
    repeat match goal with |- context [if ?b then _ else _] => destruct b end;
    headers_lookup; reflexivity.
Qed.

(** What it leaves under [Access-Control-Allow-Credentials]: [true] for a
    truthy origin, and otherwise whatever was there. *)
Lemma setupCORSHeaders_credentials (isPreflightRequest : bool) (h : Headers) :
  Headers_get (setupCORSHeaders request isPreflightRequest h)
              "Access-Control-Allow-Credentials"
  = if truthy origin then Some "true"
    else Headers_get h "Access-Control-Allow-Credentials".
Proof.
  unfold setupCORSHeaders. fold origin.
  destruct isPreflightRequest, (truthy origin);
    repeat match goal with |- context [if ?b then _ else _] => destruct b end;
    headers_lookup; reflexivity.
Qed.

End Cors.

(** Names the response and the requests of an answer [Some (_, _) = Some
    (response, sent)] without unfolding either. *)
Ltac answered :=
  let Hf := fresh "Hf" in
  let H1 := fresh "H" in
  intros Hf; apply (inj Some) in Hf;
  pose proof (f_equal fst Hf) as H1; apply (f_equal snd) in Hf;
  cbn [fst snd] in H1, Hf; subst.

Section HandlerCors.
Context `{P : Platform}.
Variable upstream : OutboundRequest -> FetchResult.
Variable config : Config.

(** The handler answers every request but one whose outbound request the
    runtime refuses to build. *)
Lemma fetch_None (request : Request) :
  fetch upstream config request = None <->
  method request <> "OPTIONS"
  /\ admitted (resolveTarget (query request))
              (Headers_get (headers request) "Origin") config = true
  /\ upstream (outboundRequest request (default "" (resolveTarget (query request))))
     = Refused.
Proof.
  unfold fetch.
  destruct (String.eqb (method request) "OPTIONS") eqn:Hm.
  - apply String.eqb_eq in Hm.
    destruct (admitted _ _ config); (split; [discriminate | intros [H _]; now destruct H]).
  - apply String.eqb_neq in Hm.
    destruct (admitted _ _ config).
    + destruct (upstream _); (split; [try discriminate | intros (_ & _ & [=])]); auto.
    + destruct (negb _); (split; [discriminate | intros (_ & [=] & _)]).
Qed.

(** Every response carries the origin header of [setupCORSHeaders]. *)
Lemma fetch_allow_origin (request : Request) (response : Response)
    (sent : list OutboundRequest) :
  fetch upstream config request = Some (response, sent) ->
  Headers_get (resp_headers response) "Access-Control-Allow-Origin"
  = Some (if truthy (Headers_get (headers request) "Origin")
          then default "" (Headers_get (headers request) "Origin") else "*").
Proof.
  unfold fetch, relayResponse, errorResponse.
  destruct (String.eqb (method request) "OPTIONS");
    destruct (admitted _ _ config);
    try destruct (upstream _);
    try destruct (negb (truthy (resolveTarget (query request))));
    try destruct (Response_accepts _ _);
    try discriminate;
    answered; cbn [resp_headers]; headers_lookup; apply setupCORSHeaders_origin.
Qed.

(** The credentials header of every response: [true] for a truthy origin;
    otherwise absent, unless the response relays one that the target sent. *)
Lemma fetch_allow_credentials (request : Request) (response : Response)
    (sent : list OutboundRequest) :
  fetch upstream config request = Some (response, sent) ->
  let credentials :=
    Headers_get (resp_headers response) "Access-Control-Allow-Credentials" in
  if truthy (Headers_get (headers request) "Origin") then credentials = Some "true"
  else
    credentials = None \/
    exists target answer,
      upstream (outboundRequest request target) = Fetched answer /\
      credentials = Headers_get (up_headers answer) "Access-Control-Allow-Credentials".
Proof.
  cbv zeta. unfold fetch, relayResponse, errorResponse.
  destruct (String.eqb (method request) "OPTIONS");
    destruct (admitted _ _ config);
    try (destruct (upstream _) eqn:E);
    try destruct (negb (truthy (resolveTarget (query request))));
    try destruct (Response_accepts _ _);
    try discriminate;
    answered; cbn [resp_headers]; headers_lookup;
    rewrite setupCORSHeaders_credentials;
    destruct (truthy (Headers_get (headers request) "Origin"));
    headers_lookup; try reflexivity; try (left; reflexivity).
  all: right; eexists _, _; split; [exact E | reflexivity].
Qed.

(** C2, as the code has it.  With a configuration whose patterns are
    regular expressions, the handler answers every request but an admitted
    one, not a preflight, whose outbound request the runtime refuses to
    build: there it ends in an error it does not catch.  On every response
    it returns: when the request carries a non-empty [Origin], the response
    has [Access-Control-Allow-Origin] equal to it and
    [Access-Control-Allow-Credentials: true]; when the header is missing or
    empty, [Access-Control-Allow-Origin] is [*] and the handler sets no
    credentials header: [setupCORSHeaders] leaves that name as it finds it, so a
    response has one only if it relays the target's.  An admitted preflight is
    always answered, with status 200 and [Access-Control-Max-Age: 86400], and
    nothing is sent to the target. *)
Theorem cors_headers (request : Request) :
  let origin := Headers_get (headers request) "Origin" in
  let targetUrl := resolveTarget (query request) in
  (fetch upstream config request = None <->
   method request <> "OPTIONS"
   /\ admitted targetUrl origin config = true
   /\ upstream (outboundRequest request (default "" targetUrl)) = Refused)
  /\ (forall response sent,
        fetch upstream config request = Some (response, sent) ->
        let credentials :=
          Headers_get (resp_headers response) "Access-Control-Allow-Credentials" in
        (forall o, origin = Some o -> o <> "" ->
           Headers_get (resp_headers response) "Access-Control-Allow-Origin" = Some o
           /\ credentials = Some "true")
        /\ (origin = None \/ origin = Some "" ->
            Headers_get (resp_headers response) "Access-Control-Allow-Origin" = Some "*"
            /\ (forall isPreflightRequest h,
                  Headers_get (setupCORSHeaders request isPreflightRequest h)
                              "Access-Control-Allow-Credentials"
                  = Headers_get h "Access-Control-Allow-Credentials")
            /\ (credentials = None \/
                exists target answer,
                  upstream (outboundRequest request target) = Fetched answer /\
                  credentials
                  = Headers_get (up_headers answer) "Access-Control-Allow-Credentials")))
  /\ (method request = "OPTIONS" ->
      admitted targetUrl origin config = true ->
      exists response,
        fetch upstream config request = Some (response, [])
        /\ status response = 200%Z
        /\ resp_body response = BodyNull
        /\ Headers_get (resp_headers response) "Access-Control-Max-Age" = Some "86400").
Proof.
  cbv zeta. split; [apply fetch_None | split].
  - intros response sent Hf.
    pose proof (fetch_allow_origin _ _ _ Hf) as Ho.
    pose proof (fetch_allow_credentials _ _ _ Hf) as Hc. cbv zeta in Hc.
    split.
    + intros o Eo Hne. rewrite Eo in Ho, Hc. simpl in Ho, Hc.
      apply nonempty_true in Hne. rewrite Hne in Ho, Hc. now split.
    + intros Hfalsy.
      assert (Ht : truthy (Headers_get (headers request) "Origin") = false)
        by (destruct Hfalsy as [-> | ->]; reflexivity).
      rewrite Ht in Ho, Hc. split; [exact Ho|]. split; [|exact Hc].
      intros pf h. now rewrite setupCORSHeaders_credentials, Ht.
  - intros Hm Ha. unfold fetch. rewrite Ha, Hm, String.eqb_refl.
    eexists. split; [reflexivity|].
    cbn [status resp_body resp_headers].
    repeat split. now headers_lookup.
Qed.

(** C6, as the code has it.  When the relay of an admitted request that is
    not a preflight fails, the handler answers 502 with the text
    [Error fetching target URL: ] followed by the error's message, under the
    headers [setupCORSHeaders] puts on an empty set: the origin header, and the
    credentials header exactly when [Origin] is present and not empty.  The
    failure is an answer, never an error of the handler. *)
Theorem relay_failure (request : Request) (message : string) :
  let origin := Headers_get (headers request) "Origin" in
  let targetUrl := resolveTarget (query request) in
  method request <> "OPTIONS" ->
  admitted targetUrl origin config = true ->
  upstream (outboundRequest request (default "" targetUrl)) = FetchFailed message ->
  exists response,
    fetch upstream config request
    = Some (response, [outboundRequest request (default "" targetUrl)])
    /\ status response = 502%Z
    /\ resp_body response = BodyText ("Error fetching target URL: " +:+ message)
    /\ resp_headers response = setupCORSHeaders request false ∅
    /\ Headers_get (resp_headers response) "Access-Control-Allow-Origin"
       = Some (if truthy origin then default "" origin else "*")
    /\ Headers_get (resp_headers response) "Access-Control-Allow-Credentials"
       = (if truthy origin then Some "true" else None).
Proof.
  cbv zeta. intros Hm Ha Hf. apply String.eqb_neq in Hm.
  eexists. split.
  - unfold fetch. rewrite Hm, Ha, Hf. reflexivity.
  - cbn [errorResponse status resp_body resp_headers]. repeat split.
    + apply setupCORSHeaders_origin.
    + rewrite setupCORSHeaders_credentials.
      destruct (truthy _); [reflexivity | apply Headers_get_empty].
Qed.

End HandlerCors.

(** C2, as the specification words it, fails: a request whose [Origin] header
    is present and empty is answered with [Access-Control-Allow-Origin: *], not
    with the header's value, and without a credentials header. *)
Lemma empty_origin_gets_wildcard :
  let request := plain_get "" [("Origin", "")] in
  exists response,
    fetch (P := reference_platform) unreachable default_config request
    = Some (response, [])
    /\ Headers_get (headers request) "Origin" = Some ""
    /\ Headers_get (resp_headers response) "Access-Control-Allow-Origin" = Some "*"
    /\ Headers_get (resp_headers response) "Access-Control-Allow-Origin" <> Some ""
    /\ Headers_get (resp_headers response) "Access-Control-Allow-Credentials" = None.
Proof.
  cbv zeta. eexists. split; [vm_compute; reflexivity|].
  vm_compute. repeat split; discriminate.
Qed.

Lemma relay_failure_witness :
  exists response,
    fetch (P := reference_platform) unreachable default_config
      (plain_get "url=https://httpbin.org/get" [("Origin", "https://app.test")])
    = Some (response,
            [outboundRequest (P := reference_platform)
               (plain_get "url=https://httpbin.org/get" [("Origin", "https://app.test")])
               "https://httpbin.org/get"])
    /\ status response = 502%Z
    /\ resp_body response = BodyText "Error fetching target URL: connection refused"
    /\ Headers_get (resp_headers response) "Access-Control-Allow-Origin"
       = Some "https://app.test"
    /\ Headers_get (resp_headers response) "Access-Control-Allow-Credentials"
       = Some "true".
Proof.
  destruct (relay_failure (P := reference_platform) unreachable default_config
              (plain_get "url=https://httpbin.org/get" [("Origin", "https://app.test")])
              "connection refused")
    as (response & Hf & Hs & Hb & _ & Ho & Hc).
  - discriminate.
  - vm_compute. reflexivity.
  - reflexivity.
  - exists response. repeat split; assumption.
Defined.

(** C6, as the specification words it, fails: with an [Origin] header that is
    present and empty, the 502 carries no credentials header. *)
Lemma relay_failure_empty_origin :
  let request := plain_get "url=https://httpbin.org/get" [("Origin", "")] in
  exists response sent,
    fetch (P := reference_platform) unreachable default_config request
    = Some (response, sent)
    /\ Headers_get (headers request) "Origin" = Some ""
    /\ admitted (P := reference_platform)
         (resolveTarget (P := reference_platform) (query request))
         (Headers_get (headers request) "Origin") default_config = true
    /\ status response = 502%Z
    /\ Headers_get (resp_headers response) "Access-Control-Allow-Origin" = Some "*"
    /\ Headers_get (resp_headers response) "Access-Control-Allow-Credentials" = None.
Proof.
  cbv zeta. eexists _, _. split; [vm_compute; reflexivity|].
  vm_compute. repeat split.
Qed.

(** ** Outbound headers *)

(** ** Plain objects *)

Lemma has_key_elem (props : list (string * json)) (k : string) :
  has_key props k = true <-> k ∈ props.*1.
Proof.
  unfold has_key. induction props as [|[k' v'] props IH]; cbn.
  - split; [discriminate | intros H; inversion H].
  - rewrite orb_true_iff, IH, elem_of_cons, String.eqb_eq. intuition congruence.
Qed.

Lemma props_replace_keys (props : list (string * json)) (k : string) (v : json) :
  (props_replace props k v).*1 = props.*1.
Proof.
  induction props as [|[k' v'] props IH]; [reflexivity|].
  cbn. destruct (String.eqb k' k); cbn; [reflexivity | now rewrite IH].
Qed.

Lemma props_insert_keys (props : list (string * json)) (k : string) (v : json) :
  (props_insert props k v).*1 ≡ₚ k :: props.*1.
Proof.
  induction props as [|[k' v'] props IH]; [reflexivity|].
  cbn. destruct (goes_before k k'); cbn; [reflexivity|].
  rewrite IH. apply Permutation_swap.
Qed.

Lemma props_set_NoDup (props : list (string * json)) (k : string) (v : json) :
  NoDup props.*1 -> NoDup (props_set props k v).*1.
Proof.
  intros Hnd. unfold props_set. destruct (has_key props k) eqn:Hk.
  - now rewrite props_replace_keys.
  - rewrite props_insert_keys. apply NoDup_cons. split; [|exact Hnd].
    intros Hin. apply has_key_elem in Hin. congruence.
Qed.

Lemma props_set_map (props : list (string * json)) (k : string) (v : json) :
  list_to_map (props_set props k v) =@{gmap string json} <[k := v]> (list_to_map props).
Proof.
  unfold props_set. destruct (has_key props k) eqn:Hk.
  - induction props as [|[k' v'] props IH]; [discriminate Hk|].
    cbn in Hk |- *. destruct (String.eqb k' k) eqn:E; cbn.
    + apply String.eqb_eq in E as ->. now rewrite insert_insert_eq.
    + apply String.eqb_neq in E. rewrite (IH Hk). now apply insert_insert_ne.
  - assert (Hnot : k ∉ props.*1).
    { intros Hin. apply has_key_elem in Hin. congruence. }
    clear Hk. induction props as [|[k' v'] props IH]; cbn; [reflexivity|].
    cbn in Hnot. apply not_elem_of_cons in Hnot as [Hne Hnot].
    destruct (goes_before k k'); cbn; [reflexivity|].
    rewrite (IH Hnot). now apply insert_insert_ne.
Qed.

Lemma props_fold_NoDup {V : Type} (f : V -> json) (entries : list (string * V))
    (props : list (string * json)) :
  NoDup props.*1 ->
  NoDup (fold_left (fun props kv => props_set props kv.1 (f kv.2)) entries props).*1.
Proof.
  revert props. induction entries as [|[k v] entries IH]; intros props Hnd; [exact Hnd|].
  cbn. apply IH. now apply props_set_NoDup.
Qed.

(** ** Overlaying entries *)

Section Overlay.
Context {V : Type}.
Implicit Types (l : list (string * V)) (m : gmap string V).

Lemma overlay_cons k (v : V) l m : overlay ((k, v) :: l) m = overlay l (<[k := v]> m).
Proof. reflexivity. Qed.

Lemma overlay_app l1 l2 m : overlay (l1 ++ l2)%list m = overlay l2 (overlay l1 m).
Proof. unfold overlay. apply fold_left_app. Qed.

Lemma overlay_filter (Q : string -> bool) l m :
  overlay (filter (fun kv => Q kv.1 = true) l) (filter (fun kv => Q kv.1 = true) m)
  = filter (fun kv => Q kv.1 = true) (overlay l m).
Proof.
  revert m. induction l as [|[k v] l IH]; intros m; [reflexivity|].
  rewrite filter_cons, overlay_cons. cbn [fst].
  destruct (decide (Q k = true)) as [Hq|Hq].
  - rewrite overlay_cons, <- IH. f_equal. now rewrite map_filter_insert_True.
  - rewrite <- IH. f_equal.
    rewrite map_filter_insert_False by exact Hq.
    rewrite map_filter_delete. symmetry. apply delete_id.
    apply map_lookup_filter_None. right. intros x _. exact Hq.
Qed.

Lemma overlay_union l m : overlay l m = overlay l ∅ ∪ m.
Proof.
  revert m. induction l as [|[k v] l IH]; intros m.
  - cbn. now rewrite (left_id_L ∅ (∪)).
  - rewrite !overlay_cons. rewrite IH, (IH (<[k := v]> ∅)).
    rewrite <- (assoc_L (∪)). f_equal.
    now rewrite <- insert_union_l, (left_id_L ∅ (∪)).
Qed.

Lemma overlay_NoDup l : NoDup l.*1 -> overlay l ∅ = list_to_map l.
Proof.
  induction l as [|[k v] l IH]; intros Hnd; [reflexivity|].
  cbn in Hnd. apply NoDup_cons in Hnd as [Hk Hnd].
  rewrite overlay_cons, overlay_union, (IH Hnd). cbn [list_to_map foldr].
  rewrite <- insert_union_r, (right_id_L ∅ (∪)); [reflexivity|].
  now apply not_elem_of_list_to_map_1.
Qed.

End Overlay.

Lemma overlay_fmap {A B : Type} (f : A -> B) (l : list (string * A)) (m : gmap string A) :
  overlay (map (fun kv => (kv.1, f kv.2)) l) (f <$> m) = f <$> overlay l m.
Proof.
  revert m. induction l as [|[k v] l IH]; intros m; [reflexivity|].
  cbn [map]. rewrite !overlay_cons, <- IH. f_equal. now rewrite fmap_insert.
Qed.

Lemma props_fold_map {V : Type} (f : V -> json) (entries : list (string * V))
    (props : list (string * json)) :
  list_to_map (fold_left (fun props kv => props_set props kv.1 (f kv.2)) entries props)
  =@{gmap string json} overlay (map (fun kv => (kv.1, f kv.2)) entries) (list_to_map props).
Proof.
  revert props. induction entries as [|[k v] entries IH]; intros props; [reflexivity|].
  cbn [fold_left map]. rewrite IH, overlay_cons. f_equal. apply props_set_map.
Qed.

(** ** Assignments to an object *)

Lemma Obj_set_map (o : Obj) (k : string) (v : json) :
  Obj_map (Obj_set o k v)
  = if String.eqb k "__proto__" && proto_accessor (obj_proto o) then Obj_map o
    else <[k := v]> (Obj_map o).
Proof.
  unfold Obj_set, Obj_map.
  destruct (String.eqb k "__proto__" && proto_accessor (obj_proto o)).
  - now destruct v.
  - apply props_set_map.
Qed.

Lemma assignable_proto : assignable "__proto__" = false.
Proof. reflexivity. Qed.

Lemma assignable_true (k : string) : assignable k = true <-> k <> "__proto__".
Proof.
  unfold assignable. rewrite negb_true_iff. apply String.eqb_neq.
Qed.

(** [Object.assign] from a source without repeated names to an object whose
    prototype is still [Object.prototype]: every property is copied but
    [__proto__]. *)
Lemma Object_assign_map (target : Obj) (source : list (string * json)) :
  NoDup source.*1 ->
  obj_proto target = None \/ "__proto__" ∉ source.*1 ->
  Obj_map (Object_assign target source)
  = overlay (filter (fun kv => assignable kv.1 = true) source) (Obj_map target).
Proof.
  unfold Object_assign. revert target.
  induction source as [|[k v] source IH]; intros target Hnd Hp; [reflexivity|].
  cbn in Hnd. apply NoDup_cons in Hnd as [Hk Hnd].
  cbn [fold_left fst snd]. rewrite filter_cons. cbn [fst].
  destruct (decide (assignable k = true)) as [Ha|Ha].
  - pose proof (proj1 (assignable_true k) Ha) as Hne.
    rewrite IH.
    + rewrite overlay_cons. f_equal. rewrite Obj_set_map.
      apply String.eqb_neq in Hne. now rewrite Hne.
    + exact Hnd.
    + unfold Obj_set. apply String.eqb_neq in Hne. rewrite Hne. cbn.
      destruct Hp as [Hp | Hp]; [now left | right].
      cbn in Hp. now apply not_elem_of_cons in Hp as [_ Hp].
  - assert (k = "__proto__") as ->.
    { destruct (String.eqb_spec k "__proto__") as [E|E]; [exact E|].
      now apply assignable_true in E. }
    assert (Hnone : obj_proto target = None).
    { destruct Hp as [Hp | Hp]; [exact Hp|]. cbn in Hp.
      now apply not_elem_of_cons in Hp as [Hp _]. }
    rewrite IH.
    + f_equal. rewrite Obj_set_map, Hnone. reflexivity.
    + exact Hnd.
    + now right.
Qed.

Lemma Object_assign_proto (target : Obj) (source : list (string * json)) :
  "__proto__" ∉ source.*1 ->
  obj_proto (Object_assign target source) = obj_proto target.
Proof.
  unfold Object_assign. revert target.
  induction source as [|[k v] source IH]; intros target Hp; [reflexivity|].
  cbn in Hp. apply not_elem_of_cons in Hp as [Hne Hp].
  cbn [fold_left fst snd]. rewrite (IH _ Hp).
  unfold Obj_set. apply not_eq_sym in Hne.
  apply String.eqb_neq in Hne. now rewrite Hne.
Qed.

Lemma index_keys (items : list json) (n : nat) :
  (imap (fun i x => (pretty (n + i)%nat, x)) items).*1 = pretty <$> seq n (length items).
Proof.
  revert n. induction items as [|x items IH]; intros n; [reflexivity|].
  cbn. rewrite Nat.add_0_r. f_equal. rewrite <- IH. f_equal.
  apply imap_ext. intros i y _. cbn. do 2 f_equal. lia.
Qed.

Lemma own_properties_NoDup (v : json) : NoDup (own_properties v).*1.
Proof.
  destruct v as [| | | |items|fields]; cbn; try apply NoDup_nil_2.
  - change (NoDup (imap (fun i x => (pretty (0 + i)%nat, x)) items).*1).
    rewrite index_keys. apply (NoDup_fmap_2 _). apply NoDup_seq.
  - apply (props_fold_NoDup id fields []). apply NoDup_nil_2.
Qed.

(** ** Iteration over headers *)

Lemma Headers_names_Permutation (h : Headers) :
  Headers_names h ≡ₚ (map_to_list h).*1.
Proof. unfold Headers_names. apply merge_sort_Permutation. Qed.

Lemma Headers_names_elem (h : Headers) (k : string) :
  k ∈ Headers_names h <-> is_Some (h !! k).
Proof.
  rewrite Headers_names_Permutation, list_elem_of_fmap. split.
  - intros ([k' v] & -> & Hkv). apply elem_of_map_to_list in Hkv. simpl. eauto.
  - intros [v Hv]. exists (k, v). split; [reflexivity | now apply elem_of_map_to_list].
Qed.

Lemma Headers_names_NoDup (h : Headers) : NoDup (Headers_names h).
Proof. rewrite Headers_names_Permutation. apply NoDup_fst_map_to_list. Qed.

Lemma Headers_names_sorted (h : Headers) : StronglySorted String.le (Headers_names h).
Proof. unfold Headers_names. apply (StronglySorted_merge_sort String.le). Qed.

Lemma StronglySorted_filter {A : Type} (R : relation A) (Q : A -> Prop)
    `{!forall x, Decision (Q x)} (l : list A) :
  StronglySorted R l -> StronglySorted R (filter Q l).
Proof.
  induction 1 as [|x l Hs IH Hall]; [constructor|].
  rewrite filter_cons. destruct (decide (Q x)); [|exact IH].
  constructor; [exact IH|].
  apply Forall_forall. intros y Hy. apply list_elem_of_filter in Hy as [_ Hy].
  rewrite Forall_forall in Hall. now apply Hall.
Qed.

(** The names that pass a test are the same, in the same order, for two
    header sets that hold the same names passing it. *)
Lemma Headers_names_filter (Q : string -> Prop) `{!forall x, Decision (Q x)}
    (h1 h2 : Headers) :
  (forall k, Q k -> is_Some (h1 !! k) <-> is_Some (h2 !! k)) ->
  filter Q (Headers_names h1) = filter Q (Headers_names h2).
Proof.
  intros Hsame. apply (StronglySorted_unique String.le).
  - apply StronglySorted_filter, Headers_names_sorted.
  - apply StronglySorted_filter, Headers_names_sorted.
  - apply NoDup_Permutation.
    + apply NoDup_filter, Headers_names_NoDup.
    + apply NoDup_filter, Headers_names_NoDup.
    + intros k. rewrite !list_elem_of_filter, !Headers_names_elem.
      split; intros [Hq Hk]; (split; [exact Hq|]); now apply (Hsame k Hq).
Qed.

Section Blocks.
Context {V : Type} (values : string -> list V).

Lemma blocks_filter (Q : string -> Prop) `{!forall x, Decision (Q x)}
    (names : list string) :
  filter (fun kv => Q kv.1) (blocks values names) = blocks values (filter Q names).
Proof.
  unfold blocks. induction names as [|n names IH]; [reflexivity|].
  cbn [flat_map]. rewrite filter_app, IH, filter_cons.
  destruct (decide (Q n)) as [Hq|Hq]; cbn [flat_map]; f_equal.
  - induction (values n) as [|v vs IHv]; [reflexivity|].
    cbn [map]. rewrite filter_cons. cbn [fst].
    destruct (decide (Q n)); [now rewrite IHv | contradiction].
  - replace (filter (fun kv => Q kv.1) (map (pair n) (values n))) with (@nil (string * V));
      [reflexivity|].
    induction (values n) as [|v vs IHv]; [reflexivity|].
    cbn [map]. rewrite filter_cons. cbn [fst].
    destruct (decide (Q n)); [contradiction | exact IHv].
Qed.

Lemma overlay_block (name : string) (vs : list V) (m : gmap string V) :
  overlay (map (pair name) vs) m
  = match last vs with
    | Some v => <[name := v]> m
    | None => m
    end.
Proof.
  revert m. induction vs as [|v vs IH]; intros m; [reflexivity|].
  cbn [map]. rewrite overlay_cons, IH, last_cons.
  destruct (last vs); [apply insert_insert_eq | reflexivity].
Qed.

Lemma overlay_blocks (names : list string) (m : gmap string V) (k : string) :
  NoDup names ->
  overlay (blocks values names) m !! k
  = if decide (k ∈ names)
    then match last (values k) with
         | Some v => Some v
         | None => m !! k
         end
    else m !! k.
Proof.
  unfold blocks. revert m. induction names as [|n names IH]; intros m Hnd.
  - cbn. destruct (decide (k ∈ [])) as [Hin|]; [inversion Hin | reflexivity].
  - apply NoDup_cons in Hnd as [Hn Hnd].
    cbn [flat_map]. rewrite overlay_app, (IH _ Hnd), overlay_block.
    destruct (decide (k ∈ names)) as [Hk|Hk].
    + assert (k <> n) by (intros ->; contradiction).
      rewrite decide_True by (apply elem_of_cons; now right).
      destruct (last (values k)); [reflexivity|].
      destruct (last (values n)); [now rewrite lookup_insert_ne | reflexivity].
    + destruct (decide (k = n)) as [->|Hne].
      * rewrite decide_True by (apply elem_of_cons; now left).
        destruct (last (values n)); [now rewrite lookup_insert_eq | reflexivity].
      * rewrite decide_False by (intros [?|?]%elem_of_cons; contradiction).
        destruct (last (values n)); [now rewrite lookup_insert_ne | reflexivity].
Qed.

End Blocks.

Lemma blocks_ext {V : Type} (values1 values2 : string -> list V) (names : list string) :
  (forall k, k ∈ names -> values1 k = values2 k) ->
  blocks values1 names = blocks values2 names.
Proof.
  unfold blocks. induction names as [|n names IH]; intros Hsame; [reflexivity|].
  cbn [flat_map]. rewrite (Hsame n) by (apply elem_of_cons; now left).
  f_equal. apply IH. intros k Hk. apply Hsame, elem_of_cons. now right.
Qed.

Lemma Headers_entries_blocks (h : Headers) :
  Headers_entries h
  = blocks (fun name => entry_values name (default [] (h !! name))) (Headers_names h).
Proof. reflexivity. Qed.

(** The iteration, read as a map in which a later entry replaces an earlier
    one of the same name, is the header map. *)
Lemma overlay_entries (h : Headers) : overlay (Headers_entries h) ∅ = header_map h.
Proof.
  apply map_eq. intros k.
  rewrite Headers_entries_blocks, overlay_blocks by apply Headers_names_NoDup.
  unfold header_map. rewrite map_lookup_imap, lookup_empty.
  destruct (decide (k ∈ Headers_names h)) as [Hk|Hk].
  - apply Headers_names_elem in Hk as [vs Hvs]. rewrite Hvs. cbn.
    now destruct (last (entry_values k vs)).
  - destruct (h !! k) as [vs|] eqn:Hvs; [|reflexivity].
    destruct Hk. apply Headers_names_elem. eauto.
Qed.

Lemma header_map_dom (h : Headers) (k v : string) :
  header_map h !! k = Some v -> is_Some (h !! k).
Proof.
  unfold header_map. rewrite map_lookup_imap.
  destruct (h !! k); [eauto | discriminate].
Qed.

(** Two header sets that agree on the names matching no exclusion pattern
    give the loop the same entries to copy. *)
Lemma Headers_entries_filter (h1 h2 : Headers) :
  (forall k, excluded k = false -> h1 !! k = h2 !! k) ->
  filter (fun kv => excluded kv.1 = false) (Headers_entries h1)
  = filter (fun kv => excluded kv.1 = false) (Headers_entries h2).
Proof.
  intros Hsame. rewrite !Headers_entries_blocks.
  pose proof (fun h : Headers =>
                blocks_filter (fun name => entry_values name (default [] (h !! name)))
                              (fun k => excluded k = false) (Headers_names h)) as Hb.
  cbn beta in Hb. rewrite !Hb. clear Hb.
  rewrite (Headers_names_filter (fun k => excluded k = false) h1 h2)
    by (intros k Hk; now rewrite (Hsame k Hk)).
  apply blocks_ext. intros k Hk.
  apply list_elem_of_filter in Hk as [Hk _].
  now rewrite (Hsame k Hk).
Qed.

Lemma overlay_inbound_filter (target : Obj) (inbound : Headers) :
  overlay_inbound target inbound
  = fold_left (fun acc kv => Obj_set acc kv.1 (JStr kv.2))
      (filter (fun kv => excluded kv.1 = false) (Headers_entries inbound)) target.
Proof.
  unfold overlay_inbound. generalize (Headers_entries inbound). intros l.
  revert target. induction l as [|[k v] l IH]; intros target; [reflexivity|].
  cbn [fold_left fst snd]. rewrite filter_cons. cbn [fst].
  destruct (excluded k) eqn:E.
  - rewrite decide_False by discriminate. apply IH.
  - rewrite decide_True by reflexivity. cbn [fold_left fst snd]. apply IH.
Qed.

(** What the object handed to the loop becomes depends only on the headers
    that match no exclusion pattern. *)
Lemma overlay_inbound_ext (target : Obj) (h1 h2 : Headers) :
  (forall k, excluded k = false -> h1 !! k = h2 !! k) ->
  overlay_inbound target h1 = overlay_inbound target h2.
Proof.
  intros Hsame. now rewrite !overlay_inbound_filter, (Headers_entries_filter h1 h2 Hsame).
Qed.

Lemma assign_strings (target : Obj) (entries : list (string * string)) :
  obj_proto target = None ->
  let o := fold_left (fun acc kv => Obj_set acc kv.1 (JStr kv.2)) entries target in
  obj_proto o = None
  /\ Obj_map o
     = overlay (map (fun kv => (kv.1, JStr kv.2))
                    (filter (fun kv => assignable kv.1 = true) entries))
               (Obj_map target).
Proof.
  cbv zeta. revert target. induction entries as [|[k v] entries IH]; intros target Hp.
  - now split.
  - cbn [fold_left fst snd]. rewrite filter_cons. cbn [fst].
    assert (Hp' : obj_proto (Obj_set target k (JStr v)) = None).
    { unfold Obj_set. now destruct (String.eqb k "__proto__" && _). }
    destruct (IH _ Hp') as [Hq Hm]. split; [exact Hq|].
    rewrite Hm, Obj_set_map, Hp. cbn [proto_accessor]. rewrite andb_true_r.
    destruct (String.eqb k "__proto__") eqn:E.
    + rewrite decide_False by (unfold assignable; rewrite E; discriminate). reflexivity.
    + rewrite decide_True by (unfold assignable; now rewrite E).
      cbn [map fst snd]. now rewrite overlay_cons.
Qed.

Lemma excluded_lower (key : string) :
  toLowerCase key = key -> excluded key = excluded_spec key.
Proof.
  intros Hk. unfold excluded, excluded_spec. cbn [existsb].
  rewrite <- (startsWith_ci_lower key "cf-" Hk eq_refl).
  now rewrite orb_false_r, !orb_assoc.
Qed.

Lemma filter_filter_key {V : Type} (Q1 Q2 : string -> bool) (l : list (string * V)) :
  filter (fun kv => Q2 kv.1 = true) (filter (fun kv => Q1 kv.1 = true) l)
  = filter (fun kv => (Q1 kv.1 && Q2 kv.1) = true) l.
Proof.
  induction l as [|[k v] l IH]; [reflexivity|].
  rewrite !filter_cons. cbn [fst].
  destruct (Q1 k) eqn:E1; cbn.
  - rewrite decide_True by reflexivity. rewrite filter_cons. cbn [fst].
    destruct (Q2 k); cbn.
    + rewrite !decide_True by reflexivity. now rewrite IH.
    + rewrite !decide_False by discriminate. exact IH.
  - rewrite !decide_False by discriminate. exact IH.
Qed.

(** The loop over the inbound headers, read as an overlay of maps. *)
Lemma overlay_inbound_map (target : Obj) (inbound : Headers) :
  Headers_wf inbound ->
  obj_proto target = None ->
  obj_proto (overlay_inbound target inbound) = None
  /\ Obj_map (overlay_inbound target inbound)
     = (JStr <$> filter (fun kv => excluded_spec kv.1 = false /\ assignable kv.1 = true)
                        (header_map inbound))
       ∪ Obj_map target.
Proof.
  intros Hwf Hp. rewrite overlay_inbound_filter.
  destruct (assign_strings target
              (filter (fun kv => excluded kv.1 = false) (Headers_entries inbound)) Hp)
    as [Hq Hm].
  split; [exact Hq|]. rewrite Hm. clear Hq Hm.
  rewrite overlay_union. f_equal.
  rewrite <- (fmap_empty JStr), overlay_fmap. f_equal.
  replace (filter (fun kv => excluded kv.1 = false) (Headers_entries inbound))
    with (filter (fun kv => negb (excluded kv.1) = true) (Headers_entries inbound))
    by (apply list_filter_iff; intros [k v]; cbn; now destruct (excluded k)).
  rewrite (filter_filter_key (fun k => negb (excluded k)) assignable).
  rewrite <- (map_filter_empty (fun kv : string * string =>
                (negb (excluded kv.1) && assignable kv.1) = true)) at 1.
  rewrite (overlay_filter (fun k => negb (excluded k) && assignable k)).
  rewrite overlay_entries.
  apply map_filter_ext. intros k v Hkv. cbn [fst].
  apply header_map_dom in Hkv as [vs Hvs].
  rewrite <- (excluded_lower k (proj1 (Hwf _ _ Hvs))).
  rewrite andb_true_iff, negb_true_iff. reflexivity.
Qed.

Lemma Headers_wf_set (h : Headers) (name value : string) :
  Headers_wf h -> Headers_wf (Headers_set h name value).
Proof.
  unfold Headers_wf, Headers_set. intros Hwf k v.
  rewrite lookup_insert_Some. intros [[<- <-] | [_ Hk]].
  - split; [apply toLowerCase_idem | discriminate].
  - exact (Hwf _ _ Hk).
Qed.

Lemma Headers_wf_delete (h : Headers) (name : string) :
  Headers_wf h -> Headers_wf (Headers_delete h name).
Proof.
  unfold Headers_wf, Headers_delete. intros Hwf k v.
  rewrite lookup_delete_Some. intros [_ Hk]. exact (Hwf _ _ Hk).
Qed.

Lemma Headers_wf_append (h : Headers) (name value : string) :
  Headers_wf h -> Headers_wf (Headers_append h name value).
Proof.
  unfold Headers_wf, Headers_append. intros Hwf k v.
  rewrite lookup_insert_Some. intros [[<- <-] | [_ Hk]].
  - split; [apply toLowerCase_idem | now destruct (default [] _)].
  - exact (Hwf _ _ Hk).
Qed.

(** Every [Headers] object built from header lines is well formed. *)
Lemma Headers_of_list_wf (lines : list (string * string)) :
  Headers_wf (Headers_of_list lines).
Proof.
  unfold Headers_of_list.
  assert (H : Headers_wf ∅) by (intros k v; now rewrite lookup_empty).
  revert H. generalize (∅ : Headers).
  induction lines as [|[k v] lines IH]; intros h Hwf; simpl; [exact Hwf|].
  apply IH. now apply Headers_wf_append.
Qed.

Lemma filter_assignable (entries : list (string * json)) :
  "__proto__" ∉ entries.*1 ->
  filter (fun kv => assignable kv.1 = true) entries = entries.
Proof.
  induction entries as [|[k v] entries IH]; intros Hp; [reflexivity|].
  cbn in Hp. apply not_elem_of_cons in Hp as [Hne Hp].
  rewrite filter_cons. cbn [fst].
  rewrite decide_True by (apply assignable_true; congruence).
  now rewrite (IH Hp).
Qed.

(** The properties of a parsed object, overlaid, are its members overlaid. *)
Lemma overlay_own_properties (fields : list (string * json)) (m : gmap string json) :
  overlay (filter (fun kv => assignable kv.1 = true) (own_properties (JObj fields))) m
  = overlay (filter (fun kv => assignable kv.1 = true) fields) m.
Proof.
  rewrite overlay_union, (overlay_union (filter _ fields)). f_equal.
  rewrite <- (map_filter_empty (fun kv : string * json => assignable kv.1 = true)).
  rewrite !(overlay_filter assignable). f_equal.
  rewrite overlay_NoDup by apply own_properties_NoDup.
  cbn [own_properties].
  pose proof (props_fold_map id fields []) as Hfold. cbv [id] in Hfold.
  rewrite Hfold. cbn [list_to_map foldr].
  f_equal. rewrite <- (map_id fields) at 2. apply map_ext. now intros [k v].
Qed.

Lemma profile_copy (profile : Obj) :
  profile_wf profile ->
  obj_proto (Object_assign empty_object (obj_props profile)) = None
  /\ Obj_map (Object_assign empty_object (obj_props profile)) = Obj_map profile.
Proof.
  intros [Hnd Hp]. split.
  - now rewrite Object_assign_proto.
  - rewrite Object_assign_map by (exact Hnd || now left).
    rewrite (filter_assignable _ Hp). now apply overlay_NoDup.
Qed.

Section Outbound.
Context `{P : Platform}.

Lemma customHeaders_entries (request : Request) (o : Obj) :
  obj_proto o = None ->
  Obj_map (if is_object (customHeaders request)
           then Object_assign o (own_properties (customHeaders request)) else o)
  = overlay (filter (fun kv => assignable kv.1 = true)
                    (custom_entries (Headers_get (headers request) "x-cors-headers")))
            (Obj_map o).
Proof.
  intros Hp. unfold customHeaders, custom_entries.
  destruct (Headers_get (headers request) "x-cors-headers") as [text|]; [|reflexivity].
  destruct (JSON_parse text) as [[| | | |items|fields]|]; try reflexivity.
  - cbn [is_object]. rewrite Object_assign_map by (apply own_properties_NoDup || now left).
    reflexivity.
  - cbn [is_object]. rewrite Object_assign_map by (apply own_properties_NoDup || now left).
    apply overlay_own_properties.
Qed.

(** The three steps of [filteredHeaders], read as overlays of maps. *)
Lemma filteredHeaders_compose (profile : Obj) (request : Request) :
  Headers_wf (headers request) ->
  profile_wf profile ->
  Obj_map (filteredHeaders profile (headers request) (customHeaders request))
  = composeOutbound (Obj_map profile) (header_map (headers request))
      (Headers_get (headers request) "x-cors-headers").
Proof.
  intros Hwf Hprofile. unfold filteredHeaders, composeOutbound.
  destruct (profile_copy profile Hprofile) as [Hp1 Hm1].
  destruct (overlay_inbound_map _ (headers request) Hwf Hp1) as [Hp2 Hm2].
  rewrite (customHeaders_entries request _ Hp2). now rewrite Hm2, Hm1.
Qed.

(** C4, as the code has it.  The headers object of the outbound request has
    the properties of the fingerprint profile, overlaid with every inbound
    header whose name matches none of the five exclusion patterns (without
    regard to letter case), overlaid with the properties of the value parsed
    from [x-cors-headers] when that value is a JSON object or a JSON array, an
    array giving its items under their indices; a header or a custom property
    named [__proto__] is never overlaid.  Where [x-cors-headers] holds no
    array and nothing is named [__proto__], this is the composition of the
    specification.  When [x-cors-headers] is not valid JSON the last layer is
    skipped, and the object is that of the same request without the header. *)
Theorem outbound_headers (profile : Obj) (m q : string)
    (b : option string) (inbound : Headers) (text : string) :
  Headers_wf inbound ->
  profile_wf profile ->
  let x_cors_headers := Headers_get inbound "x-cors-headers" in
  let out := filteredHeaders profile inbound (customHeaders (mkRequest m q inbound b)) in
  Obj_map out = composeOutbound (Obj_map profile) (header_map inbound) x_cors_headers
  /\ ((forall items, x_cors_headers ≫= JSON_parse <> Some (JArr items)) ->
      "__proto__" ∉ (custom_entries_spec x_cors_headers).*1 ->
      inbound !! "__proto__" = None ->
      Obj_map out
      = composeOutbound_spec (Obj_map profile) (header_map inbound) x_cors_headers)
  /\ (JSON_parse text = None ->
      let supplied := Headers_set inbound "x-cors-headers" text in
      let missing := Headers_delete inbound "x-cors-headers" in
      custom_entries (Headers_get supplied "x-cors-headers") = []
      /\ filteredHeaders profile supplied (customHeaders (mkRequest m q supplied b))
         = filteredHeaders profile missing (customHeaders (mkRequest m q missing b))).
Proof.
  intros Hwf Hprofile. cbv zeta.
  assert (Hcode : Obj_map (filteredHeaders profile inbound
                             (customHeaders (mkRequest m q inbound b)))
                  = composeOutbound (Obj_map profile) (header_map inbound)
                      (Headers_get inbound "x-cors-headers")).
  { exact (filteredHeaders_compose profile (mkRequest m q inbound b) Hwf Hprofile). }
  split; [exact Hcode | split].
  - intros Harr Hcustom Hinbound. rewrite Hcode.
    unfold composeOutbound, composeOutbound_spec.
    assert (Hentries : custom_entries (Headers_get inbound "x-cors-headers")
                       = custom_entries_spec (Headers_get inbound "x-cors-headers")).
    { unfold custom_entries, custom_entries_spec.
      destruct (Headers_get inbound "x-cors-headers") as [t|]; [|reflexivity].
      cbn in Harr. destruct (JSON_parse t) as [[| | | |items|fields]|]; try reflexivity.
      now destruct (Harr items). }
    rewrite Hentries, (filter_assignable _ Hcustom). do 3 f_equal.
    apply map_filter_ext. intros k v Hkv. cbn [fst].
    split; [tauto | intros He; split; [exact He|]].
    apply assignable_true. intros ->.
    apply header_map_dom in Hkv as [vs Hvs]. congruence.
  - intros Hparse. cbv zeta.
    assert (Hs : Headers_get (Headers_set inbound "x-cors-headers" text) "x-cors-headers"
                 = Some text) by now rewrite Headers_get_set_eq.
    split.
    + unfold custom_entries. now rewrite Hs, Hparse.
    + unfold filteredHeaders, customHeaders. cbn [headers]. rewrite Hs, Hparse.
      assert (Hd : Headers_get (Headers_delete inbound "x-cors-headers") "x-cors-headers"
                   = None).
      { unfold Headers_get, Headers_delete. now rewrite lookup_delete_eq. }
      rewrite Hd. cbn [is_object].
      apply overlay_inbound_ext. intros k Hk.
      unfold Headers_set, Headers_delete.
      assert (toLowerCase "x-cors-headers" <> k) by (intros <-; discriminate Hk).
      now rewrite lookup_insert_ne, lookup_delete_ne.
Qed.

End Outbound.


(** The profiles of the handler are object literals of the expected kind. *)
Lemma browserFingerprints_wf (referer secFetchSite : string) (profile : Obj) :
  profile ∈ browserFingerprints referer secFetchSite -> profile_wf profile.
Proof.
  unfold browserFingerprints. intros Hp.
  repeat (apply elem_of_cons in Hp as [-> | Hp]); [..|now apply elem_of_nil in Hp];
    (split; apply (bool_decide_unpack _); vm_compute; reflexivity).
Qed.

Lemma small_profile_wf : profile_wf (object_of [("Accept", "text/html"); ("DNT", "1")]).
Proof. split; apply (bool_decide_unpack _); vm_compute; reflexivity. Qed.

Lemma outbound_headers_witness :
  let inbound :=
    Headers_of_list
      [("Accept", "application/json"); ("CF-Ray", "8f1a");
       ("X-Cors-Headers", "{" +:+ quoted "DNT" +:+ ":" +:+ quoted "0" +:+ "}")] in
  let out :=
    filteredHeaders (object_of [("Accept", "text/html"); ("DNT", "1")]) inbound
      (customHeaders (P := reference_platform) (mkRequest "GET" "" inbound None)) in
  Obj_map out !! "DNT" = Some (JStr "0")
  /\ Obj_map out !! "Accept" = Some (JStr "text/html")
  /\ Obj_map out !! "accept" = Some (JStr "application/json")
  /\ Obj_map out !! "cf-ray" = None.
Proof.
  cbv zeta.
  rewrite (proj1 (outbound_headers (P := reference_platform)
                    (object_of [("Accept", "text/html"); ("DNT", "1")]) "GET" "" None
                    (Headers_of_list
                       [("Accept", "application/json"); ("CF-Ray", "8f1a");
                        ("X-Cors-Headers",
                         "{" +:+ quoted "DNT" +:+ ":" +:+ quoted "0" +:+ "}")])
                    "{oops" (Headers_of_list_wf _) small_profile_wf)).
  vm_compute. repeat split.
Defined.

(** C4, as the specification words it, fails.  A value of [x-cors-headers]
    that is a JSON array is no JSON object, yet its items are overlaid under
    their indices; and the entry [__proto__] of a JSON object is not
    overlaid. *)
Lemma custom_array_overlaid :
  let profile := object_of [("Accept", "text/html")] in
  let array := Headers_of_list [("X-Cors-Headers", "[" +:+ quoted "gzip" +:+ "]")] in
  let proto :=
    Headers_of_list
      [("X-Cors-Headers", "{" +:+ quoted "__proto__" +:+ ":" +:+ quoted "x" +:+ "}")] in
  let out h :=
    Obj_map (filteredHeaders profile h
               (customHeaders (P := reference_platform) (mkRequest "GET" "" h None))) in
  let spec h :=
    composeOutbound_spec (P := reference_platform) (Obj_map profile) (header_map h)
      (Headers_get h "x-cors-headers") in
  out array !! "0" = Some (JStr "gzip")
  /\ spec array !! "0" = None
  /\ out proto !! "__proto__" = None
  /\ spec proto !! "__proto__" = Some (JStr "x")
  /\ out array <> spec array.
Proof.
  cbv zeta. split; [vm_compute; reflexivity|].
  split; [vm_compute; reflexivity|].
  split; [vm_compute; reflexivity|].
  split; [vm_compute; reflexivity|].
  intros E. apply (f_equal (fun m : gmap string json => m !! "0")) in E.
  vm_compute in E. discriminate E.
Qed.

(** The three layers on a small request: the profile's [Accept] and the
    inbound [accept] are different properties of the object, [cf-ray] and
    [x-forwarded-for] are dropped, and the custom header comes last, in the
    place of the property it replaces. *)
Example outbound_headers_layers :
  filteredHeaders (object_of [("Accept", "text/html"); ("DNT", "1")])
    (Headers_of_list [("Accept", "application/json"); ("CF-Ray", "8f1a");
                      ("X-Forwarded-For", "203.0.113.7")])
    (JObj [("DNT", JStr "0")])
  = mkObj None [("Accept", JStr "text/html"); ("DNT", JStr "0");
                ("accept", JStr "application/json")].
Proof. vm_compute. reflexivity. Qed.

(** ** The legacy query *)

Lemma append_nil_r (s : string) : s +:+ "" = s.
Proof. induction s as [|c s IH]; simpl; [reflexivity | now rewrite IH]. Qed.

Lemma nonempty_app (a b : string) : nonempty a = true -> nonempty (a +:+ b) = true.
Proof. destruct a; [discriminate | reflexivity]. Qed.

Lemma join_cons (sep x : string) (l : list string) :
  join sep (x :: l) = x +:+ joined_tail sep l.
Proof.
  revert x. induction l as [|y l IH]; intros x.
  - simpl. now rewrite append_nil_r.
  - change (join sep (x :: y :: l)) with (x +:+ sep +:+ join sep (y :: l)).
    now rewrite IH.
Qed.

Section Legacy.
Context `{P : Platform}.

Lemma reconstruct_fold_acc (params : list (string * string)) (keys : list string)
    (acc : string) :
  fold_left
    (fun reconstructed key =>
       let r1 := if nonempty reconstructed then reconstructed +:+ "/" else reconstructed in
       let r2 := r1 +:+ key in
       let value := searchParams_get params key in
       if truthy value then r2 +:+ "=" +:+ default "" value else r2)
    keys acc
  = fold_left (reconstruct_step params) keys acc.
Proof.
  revert acc. induction keys as [|k keys IH]; intros acc; [reflexivity|].
  cbn [fold_left]. rewrite IH. f_equal.
  unfold reconstruct_step, parameter_text. cbv zeta.
  destruct (truthy (searchParams_get params k)); [|reflexivity].
  now rewrite !append_assoc.
Qed.

Lemma reconstruct_fold (params : list (string * string)) :
  reconstruct params
  = fold_left (reconstruct_step params) (searchParams_keys params) "".
Proof. apply reconstruct_fold_acc. Qed.

Lemma reconstruct_nonempty_acc (params : list (string * string))
    (keys : list string) (acc : string) :
  nonempty acc = true ->
  fold_left (reconstruct_step params) keys acc
  = acc +:+ joined_tail "/" (map (parameter_text params) keys).
Proof.
  revert acc. induction keys as [|k keys IH]; intros acc Hacc.
  - simpl. now rewrite append_nil_r.
  - cbn [fold_left map joined_tail fold_right].
    unfold reconstruct_step at 2. rewrite Hacc.
    rewrite IH by now apply nonempty_app, nonempty_app.
    now rewrite !append_assoc.
Qed.

(** The loop joins the parameters with slashes, except that it writes no
    slash while what it has built is still empty. *)
Lemma reconstruct_join (params : list (string * string)) :
  reconstruct params
  = join "/" (drop_empty (map (parameter_text params) (searchParams_keys params))).
Proof.
  rewrite reconstruct_fold. generalize (searchParams_keys params) as keys.
  induction keys as [|k keys IH]; [reflexivity|].
  cbn [fold_left map drop_empty]. unfold reconstruct_step at 2. cbn [nonempty String.eqb negb].
  change ("" +:+ parameter_text params k) with (parameter_text params k).
  destruct (nonempty (parameter_text params k)) eqn:Hk.
  - rewrite reconstruct_nonempty_acc by exact Hk. now rewrite join_cons.
  - apply nonempty_false in Hk. rewrite Hk. exact IH.
Qed.

Lemma drop_empty_head (x : string) (l : list string) :
  nonempty x = true -> drop_empty (x :: l) = x :: l.
Proof. intros H. simpl. now rewrite H. Qed.

(** Where the specification's reconstruction is a web URL, the loop builds
    the same text. *)
Lemma reconstruct_spec_accepted (params : list (string * string)) :
  test_http_scheme (reconstruct_spec params) = true ->
  reconstruct params = reconstruct_spec params.
Proof.
  rewrite reconstruct_join. unfold reconstruct_spec.
  destruct (map (parameter_text params) (searchParams_keys params)) as [|x l];
    [reflexivity|].
  destruct (nonempty x) eqn:Hx; [now rewrite drop_empty_head|].
  apply nonempty_false in Hx. subst x. rewrite join_cons.
  destruct l; discriminate.
Qed.

(** The candidate of a legacy query, by cases. *)
Lemma extractTarget_legacy (q : string) :
  q <> "" ->
  truthy (searchParams_get (parse_query q) "url") = false ->
  extractTarget q
  = Some (if reconstruction_attempted (parse_query q) q
             && test_http_scheme (reconstruct (parse_query q))
          then reconstruct (parse_query q)
          else decodeCandidate q).
Proof.
  intros Hq Hurl. unfold extractTarget, reconstruction_attempted.
  rewrite Hurl. destruct q as [|a q]; [congruence|].
  rewrite URL_search_of_cons. cbn [String.append startsWith substring negb andb].
  rewrite Ascii.eqb_refl. cbn [andb].
  change (nonempty (String a q)) with true. cbv iota.
  destruct (_ || _); cbn [andb].
  - destruct (test_http_scheme (reconstruct (parse_query (String a q)))) eqn:Hr.
    + apply test_http_scheme_nonempty, nonempty_true in Hr.
      cbn [truthy]. now rewrite Hr.
    + now rewrite Hurl.
  - now rewrite Hurl.
Qed.

(** C8, as the code has it.  For a non-empty query without a usable [url]
    parameter, when more than one key was parsed, or exactly one and the query
    holds no [=], the handler rebuilds a candidate from the keys in order: a
    slash when what it has built so far is not empty, then the key, then [=]
    and the key's value when that value is not empty.  That is the parameters
    joined by slashes once leading empty parameters are dropped, and it is the
    plain join whenever the plain join starts with a web scheme.  The rebuilt
    text is the candidate exactly when it matches [^https?://] without regard
    to case; otherwise, and when no rebuilding is attempted, the candidate is
    the progressively decoded query. *)
Theorem legacy_reconstruction (q : string) :
  q <> "" ->
  truthy (searchParams_get (parse_query q) "url") = false ->
  let params := parse_query q in
  reconstruct params
  = join "/" (drop_empty (map (parameter_text params) (searchParams_keys params)))
  /\ (test_http_scheme (reconstruct_spec params) = true ->
      reconstruct params = reconstruct_spec params)
  /\ extractTarget q
     = Some (if reconstruction_attempted params q && test_http_scheme (reconstruct params)
             then reconstruct params
             else decodeCandidate q).
Proof.
  intros Hq Hurl. cbv zeta. split; [|split].
  - apply reconstruct_join.
  - apply reconstruct_spec_accepted.
  - now apply extractTarget_legacy.
Qed.

(** C9, as the code has it.  For a non-empty legacy query for which no
    candidate was rebuilt, the candidate is the query decoded once, or twice
    when the first result still holds a percent sign.  When the first decoding
    fails the candidate is the raw query.  When the second decoding fails, the
    candidate is the once-decoded text if the raw query starts with
    [http://], [https://] or their percent-encoded forms (without regard to
    case), and the raw query otherwise.  A candidate is always produced. *)
Theorem progressive_decoding (q : string) :
  q <> "" ->
  truthy (searchParams_get (parse_query q) "url") = false ->
  reconstruction_attempted (parse_query q) q
  && test_http_scheme (reconstruct (parse_query q)) = false ->
  extractTarget q = Some (decodeCandidate q)
  /\ decodeCandidate q
     = match decodeURIComponent q with
       | None => q
       | Some once =>
           if includes once "%" then
             match decodeURIComponent once with
             | Some twice => twice
             | None =>
                 if test_encoded_http_scheme q || test_http_scheme q then once else q
             end
           else once
       end.
Proof.
  intros Hq Hurl Hrec. split.
  - now rewrite (extractTarget_legacy q Hq Hurl), Hrec.
  - unfold decodeCandidate.
    destruct (decodeURIComponent q) as [once|].
    + destruct (includes once "%"); [|reflexivity].
      destruct (decodeURIComponent once); [reflexivity|].
      destruct (_ || _); reflexivity.
    + destruct (_ || _); reflexivity.
Qed.

End Legacy.

Lemma legacy_reconstruction_witness :
  extractTarget (P := reference_platform) "https://api.example.com/v1/models?a=1&b=2"
  = Some "https://api.example.com/v1/models?a=1/b=2".
Proof.
  refine (proj2 (proj2 (legacy_reconstruction (P := reference_platform)
                          "https://api.example.com/v1/models?a=1&b=2" _ _))).
  - discriminate.
  - reflexivity.
Defined.

(** C8, as the specification words it, fails: the query [=&https://x] parses
    into an empty key with an empty value and the key [https://x].  Joined by
    a slash they give [/https://x], which is no web URL, so the candidate would
    be the decoded query; the loop writes no slash after the empty parameter,
    builds [https://x] and takes it as the candidate. *)
Lemma leading_empty_parameter :
  parse_query (Platform := reference_platform) "=&https://x"
    = [("", ""); ("https://x", "")]
  /\ reconstruct_spec [("", ""); ("https://x", "")] = "/https://x"
  /\ legacyCandidate_spec (P := reference_platform) "=&https://x" = "=&https://x"
  /\ extractTarget (P := reference_platform) "=&https://x" = Some "https://x"
  /\ extractTarget (P := reference_platform) "=&https://x"
     <> Some (legacyCandidate_spec (P := reference_platform) "=&https://x").
Proof. vm_compute. repeat split; discriminate. Qed.

Lemma progressive_decoding_witness :
  extractTarget (P := reference_platform) "https%253A%252F%252Fexample.com%252Fa"
  = Some (decodeCandidate (P := reference_platform)
            "https%253A%252F%252Fexample.com%252Fa").
Proof.
  refine (proj1 (progressive_decoding (P := reference_platform)
                   "https%253A%252F%252Fexample.com%252Fa" _ _ _)).
  - discriminate.
  - reflexivity.
  - reflexivity.
Defined.

(** A target that was percent-encoded twice is decoded twice. *)
Example decode_twice :
  decodeCandidate (P := reference_platform) "https%253A%252F%252Fexample.com%252Fa"
  = "https://example.com/a".
Proof. vm_compute. reflexivity. Qed.

(** C9, as the specification words it, fails: [example.com/%25zz] decodes
    once to [example.com/%zz], whose second decoding fails; the query does not
    look like a URL, so the candidate is the raw query and not the previous
    level of decoding. *)
Lemma second_failure_returns_raw :
  decodeURIComponent (Platform := reference_platform) "example.com/%25zz"
    = Some "example.com/%zz"
  /\ decodeURIComponent (Platform := reference_platform) "example.com/%zz" = None
  /\ decodeCandidate_spec (P := reference_platform) "example.com/%25zz"
     = "example.com/%zz"
  /\ extractTarget (P := reference_platform) "example.com/%25zz"
     = Some "example.com/%25zz"
  /\ decodeCandidate (P := reference_platform) "example.com/%25zz"
     <> decodeCandidate_spec (P := reference_platform) "example.com/%25zz".
Proof. vm_compute. repeat split; discriminate. Qed.

(** ** The scenarios of the specification, run on the reference runtime *)

(** A preflight for [https://example.com/api] from [https://app.test] under
    the default configuration. *)
Example scenario_preflight :
  exists response,
    fetch (P := reference_platform) unreachable default_config
      (preflight "url=https://example.com/api" [("Origin", "https://app.test")])
    = Some (response, [])
    /\ status response = 200%Z
    /\ Headers_get (resp_headers response) "Access-Control-Allow-Origin"
       = Some "https://app.test"
    /\ Headers_get (resp_headers response) "Access-Control-Allow-Credentials" = Some "true"
    /\ Headers_get (resp_headers response) "Access-Control-Max-Age" = Some "86400".
Proof. eexists. split; [vm_compute; reflexivity|]. vm_compute. repeat split. Qed.

(** A blacklisted target is refused without a request to it. *)
Example scenario_blacklisted :
  exists response,
    fetch (P := reference_platform) unreachable
      (mkConfig ["^https?://malicious\.com"] DEFAULT_WHITELIST_ORIGINS)
      (plain_get "url=https://malicious.com/x" [])
    = Some (response, [])
    /\ status response = 403%Z.
Proof. eexists. split; [vm_compute; reflexivity|]. vm_compute. repeat split. Qed.

(** A relayed answer without an [Origin] header: the status of the target,
    [Access-Control-Allow-Origin: *], and the target's headers listed. *)
Example scenario_relay :
  exists response sent,
    fetch (P := reference_platform)
      (fun _ => Fetched (mkUpstream 200 "OK"
                           (Headers_of_list [("Content-Type", "application/json")])
                           (Some "{}")))
      default_config (plain_get "url=https://httpbin.org/get" [])
    = Some (response, sent)
    /\ status response = 200%Z
    /\ resp_body response = BodyBuffer "{}"
    /\ Headers_get (resp_headers response) "Access-Control-Allow-Origin" = Some "*"
    /\ Headers_get (resp_headers response) "Access-Control-Expose-Headers"
       = Some "content-type,cors-received-headers"
    /\ (JSON_parse (Platform := reference_platform)
          <$> Headers_get (resp_headers response) "cors-received-headers")
       = Some (Some (JObj [("content-type", JStr "application/json")]))
    /\ map out_url sent = ["https://httpbin.org/get"].
Proof. eexists _, _. split; [vm_compute; reflexivity|]. vm_compute. repeat split. Qed.

(** A target that answers 204 to a request that is not streamed: the buffer
    the handler reads is a body, [new Response] refuses it with that status,
    and the handler answers 502. *)
Example scenario_no_content :
  exists response sent,
    fetch (P := reference_platform)
      (fun _ => Fetched (mkUpstream 204 "No Content" ∅ None))
      default_config (plain_get "url=https://httpbin.org/status/204" [])
    = Some (response, sent)
    /\ status response = 502%Z
    /\ Headers_get (resp_headers response) "Access-Control-Allow-Origin" = Some "*".
Proof. eexists _, _. split; [vm_compute; reflexivity|]. vm_compute. repeat split. Qed.

(** * Further properties of the worker *)

(** ** Configuration *)

Section Configuration.
Context `{P : Platform}.

Lemma getConfig_blacklist (e : Env) :
  parsed_blacklistUrls (getConfig (Some e))
  = if truthy (BLACKLIST_URLS e) then
      match JSON_parse (default "" (BLACKLIST_URLS e)) with
      | Some (JArr items) => items
      | _ => []
      end
    else [].
Proof.
  simpl. destruct (truthy (BLACKLIST_URLS e)); [|reflexivity].
  destruct (JSON_parse _) as [[]|]; reflexivity.
Qed.

Lemma getConfig_whitelist (e : Env) :
  parsed_whitelistOrigins (getConfig (Some e))
  = if truthy (WHITELIST_ORIGINS e) then
      match JSON_parse (default "" (WHITELIST_ORIGINS e)) with
      | Some (JArr items) => items
      | _ => [JStr ".*"]
      end
    else [JStr ".*"].
Proof.
  simpl. destruct (truthy (WHITELIST_ORIGINS e)); [|reflexivity].
  destruct (JSON_parse _) as [[]|]; reflexivity.
Qed.

(** X1.  [getConfig] reads each list from its own variable.  A variable
    that holds the JSON text of an array gives that array, item for item; a
    variable that is missing, empty, not JSON or not an array gives the
    default of its list, [[]] for the blacklist and [[".*"]] for the
    whitelist.  Neither list depends on the other variable.  Without an
    environment, or with two unusable variables, the configuration is the
    default one: nothing blocked, every origin allowed. *)
Theorem getConfig_fallback (env : option Env) :
  let c := getConfig env in
  (forall e text items,
     env = Some e -> BLACKLIST_URLS e = Some text -> text <> "" ->
     JSON_parse text = Some (JArr items) ->
     parsed_blacklistUrls c = items)
  /\ (forall e text items,
        env = Some e -> WHITELIST_ORIGINS e = Some text -> text <> "" ->
        JSON_parse text = Some (JArr items) ->
        parsed_whitelistOrigins c = items)
  /\ ((forall e, env = Some e -> unusable (BLACKLIST_URLS e)) ->
      parsed_blacklistUrls c = [])
  /\ ((forall e, env = Some e -> unusable (WHITELIST_ORIGINS e)) ->
      parsed_whitelistOrigins c = [JStr ".*"])
  /\ (forall e e',
        env = Some e -> BLACKLIST_URLS e' = BLACKLIST_URLS e ->
        parsed_blacklistUrls (getConfig (Some e')) = parsed_blacklistUrls c)
  /\ (forall e e',
        env = Some e -> WHITELIST_ORIGINS e' = WHITELIST_ORIGINS e ->
        parsed_whitelistOrigins (getConfig (Some e')) = parsed_whitelistOrigins c)
  /\ ((forall e, env = Some e ->
         unusable (BLACKLIST_URLS e) /\ unusable (WHITELIST_ORIGINS e)) ->
      Config_of c = Some default_config).
Proof.
  cbv zeta.
  assert (Hb : (forall e, env = Some e -> unusable (BLACKLIST_URLS e)) ->
               parsed_blacklistUrls (getConfig env) = []).
  { destruct env as [e|]; [|reflexivity]. intros H.
    rewrite getConfig_blacklist. destruct (H e eq_refl) as [-> | Hn]; [reflexivity|].
    destruct (truthy _); [|reflexivity].
    destruct (JSON_parse _) as [[]|] eqn:E; try reflexivity.
    now destruct (Hn items). }
  assert (Hw : (forall e, env = Some e -> unusable (WHITELIST_ORIGINS e)) ->
               parsed_whitelistOrigins (getConfig env) = [JStr ".*"]).
  { destruct env as [e|]; [|reflexivity]. intros H.
    rewrite getConfig_whitelist. destruct (H e eq_refl) as [-> | Hn]; [reflexivity|].
    destruct (truthy _); [|reflexivity].
    destruct (JSON_parse _) as [[]|] eqn:E; try reflexivity.
    now destruct (Hn items). }
  repeat apply conj.
  - intros e text items -> Ht Hne Hparse. rewrite getConfig_blacklist, Ht. simpl.
    apply nonempty_true in Hne. now rewrite Hne, Hparse.
  - intros e text items -> Ht Hne Hparse. rewrite getConfig_whitelist, Ht. simpl.
    apply nonempty_true in Hne. now rewrite Hne, Hparse.
  - exact Hb.
  - exact Hw.
  - intros e e' -> He. now rewrite !getConfig_blacklist, He.
  - intros e e' -> He. now rewrite !getConfig_whitelist, He.
  - intros H. unfold Config_of.
    rewrite Hb, Hw by (intros e He; now destruct (H e He)). reflexivity.
Qed.

End Configuration.

(** ** Version *)

Lemma or_else_nonempty (v : option string) (d : string) :
  d <> "" -> or_else v d <> "".
Proof.
  intros Hd. destruct v as [s|]; simpl; [|exact Hd].
  destruct (nonempty s) eqn:Hs; [now apply nonempty_true | exact Hd].
Qed.

Lemma or_else_truthy (v : option string) (d : string) :
  or_else v d = if truthy v then default "" v else d.
Proof. destruct v as [s|]; simpl; [now destruct (nonempty s) | reflexivity]. Qed.

Lemma nonblank_inv (trim : string -> string) (v : option string) (s : string) :
  (if truthy v && nonempty (trim (default "" v)) then v else None) = Some s ->
  v = Some s /\ s <> "" /\ trim s <> "".
Proof.
  destruct v as [x|]; simpl; [|discriminate].
  destruct (nonempty x) eqn:H1; simpl; [|discriminate].
  destruct (nonempty (trim x)) eqn:H2; [|discriminate].
  intros [= <-]. repeat split; now apply nonempty_true.
Qed.

Lemma timestamp_inv (trim : string -> string) (v : option string) (s : string) :
  (if truthy v && negb (String.eqb (default "" v) "0001-01-01T00:00:00Z")
      && nonempty (trim (default "" v)) then v else None) = Some s ->
  s <> "0001-01-01T00:00:00Z" /\ trim s <> "".
Proof.
  destruct v as [x|]; simpl; [|discriminate].
  destruct (nonempty x); simpl; [|discriminate].
  destruct (String.eqb x "0001-01-01T00:00:00Z") eqn:H1; simpl; [discriminate|].
  destruct (nonempty (trim x)) eqn:H2; [|discriminate].
  intros [= <-]. split; [now apply String.eqb_neq | now apply nonempty_true].
Qed.

Section VersionFacts.
Variable trim : string -> string.
Variable DEFAULT_VERSION : string.

(** X2.  What [getVersionMetadata] reports.  A tag is reported only when it
    is not blank, and then it is the version; an identifier is reported only
    when it is not blank, and without a tag it is the version.  A timestamp is
    reported only beside a tag or an identifier, and never when it is blank or
    the zero date.  With neither tag nor identifier the version is the first
    non-empty one of [VERSION], [DEPLOYMENT_VERSION] and the package version,
    so the reported version is never empty unless the package version is. *)
Theorem getVersionMetadata_report (env : option Env) :
  let r := getVersionMetadata trim DEFAULT_VERSION env in
  (forall t, versionTag r = Some t -> version r = t /\ t <> "" /\ trim t <> "")
  /\ (forall i, versionId r = Some i ->
        i <> "" /\ trim i <> "" /\ (versionTag r = None -> version r = i))
  /\ (forall ts, versionTimestamp r = Some ts ->
        ts <> "0001-01-01T00:00:00Z" /\ trim ts <> "" /\
        (versionId r <> None \/ versionTag r <> None))
  /\ (versionId r = None -> versionTag r = None ->
      versionTimestamp r = None /\
      version r
      = or_else (env ≫= VERSION) (or_else (env ≫= DEPLOYMENT_VERSION) DEFAULT_VERSION))
  /\ (DEFAULT_VERSION <> "" -> version r <> "").
Proof.
  cbv zeta. unfold getVersionMetadata.
  destruct (env ≫= CF_VERSION_METADATA) as [[id tag ts]|]; cbn [vm_id vm_tag vm_timestamp].
  2: { repeat apply conj; try discriminate; intros;
         [now split | now apply or_else_nonempty, or_else_nonempty]. }
  destruct (if truthy id && nonempty (trim (default "" id)) then id else None)
    as [i|] eqn:Eid;
  destruct (if truthy tag && nonempty (trim (default "" tag)) then tag else None)
    as [t|] eqn:Etag.
  all: try (apply nonblank_inv in Eid as (-> & Hi1 & Hi2)).
  all: try (apply nonblank_inv in Etag as (-> & Ht1 & Ht2)).
  all: cbn [truthy]; rewrite ?(proj2 (nonempty_true _) Hi1), ?(proj2 (nonempty_true _) Ht1);
    cbn [orb version versionId versionTag versionTimestamp default].
  all: simpl; repeat apply conj; intros; simplify_eq;
    repeat match goal with
           | H : (if _ then _ else _) = Some _ |- _ =>
               apply timestamp_inv in H as [? ?]
           end;
    repeat split; try assumption; try discriminate; try reflexivity;
    try (left; discriminate); try (right; discriminate);
    try now apply or_else_nonempty, or_else_nonempty.
Qed.

End VersionFacts.

(** A blank tag is passed over for the identifier, and the zero date is not
    reported. *)
Example version_from_identifier :
  getVersionMetadata ascii_trim "1.2.0"
    (Some (mkEnv (Some (mkVersionMetadata (Some "3f9c2a") (Some "  ")
                          (Some "0001-01-01T00:00:00Z")))
                 (Some "custom") None None None))
  = mkVersionInfo "3f9c2a" (Some "3f9c2a") None None.
Proof. reflexivity. Qed.

(** ** The branches of the handler *)

Section HandlerBranches.
Context `{P : Platform}.
Variable upstream : OutboundRequest -> FetchResult.
Variable config : Config.

(** X3.  A preflight is answered by the worker itself, admitted or not: no
    request goes to the target and the body is null.  The status is 200 when
    the preflight is admitted and 403 otherwise, and only the admitted answer
    carries [Access-Control-Max-Age].  Either answer echoes the requested
    method and headers, or names the default lists when the request has none,
    and carries no [X-Content-Type-Options]. *)
Theorem preflight_never_forwarded (request : Request) :
  method request = "OPTIONS" ->
  let ok := admitted (resolveTarget (query request))
                     (Headers_get (headers request) "Origin") config in
  exists r,
    fetch upstream config request = Some r
    /\ r.2 = []
    /\ resp_body r.1 = BodyNull
    /\ status r.1 = (if ok then 200 else 403)%Z
    /\ statusText r.1 = (if ok then "OK" else "Forbidden")
    /\ Headers_get (resp_headers r.1) "Access-Control-Max-Age"
       = (if ok then Some "86400" else None)
    /\ Headers_get (resp_headers r.1) "Access-Control-Allow-Methods"
       = Some (or_else (Headers_get (headers request) "access-control-request-method")
                       "GET, POST, PUT, DELETE, PATCH, HEAD, OPTIONS")
    /\ Headers_get (resp_headers r.1) "Access-Control-Allow-Headers"
       = Some (or_else (Headers_get (headers request) "access-control-request-headers")
                       "Content-Type, Authorization, X-Requested-With, Accept, Origin")
    /\ Headers_get (resp_headers r.1) "X-Content-Type-Options" = None.
Proof.
  intros Hm. cbv zeta. unfold fetch. rewrite Hm, String.eqb_refl.
  rewrite !or_else_truthy.
  destruct (admitted _ _ config); (eexists; split; [reflexivity|]);
    cbn [fst snd status statusText resp_body resp_headers];
    unfold setupCORSHeaders;
    destruct (truthy (Headers_get (headers request) "Origin"));
    destruct (truthy (Headers_get (headers request) "access-control-request-method"));
    destruct (truthy (Headers_get (headers request) "access-control-request-headers"));
    repeat split; headers_lookup; try reflexivity;
    unfold Headers_get, Headers_delete, Headers_set;
    rewrite ?lookup_insert_ne by discriminate; now rewrite lookup_delete_eq.
Qed.

(** X4.  A request that is not a preflight and is not admitted never reaches
    the target.  Without a target (none given, or one that is no URL) it gets
    the informational page with status 200; with a target that is blacklisted
    or an origin that is not whitelisted it gets status 403 and an HTML page.
    Both answers carry the CORS origin header. *)
Theorem refused_without_relay (request : Request) :
  method request <> "OPTIONS" ->
  admitted (resolveTarget (query request))
           (Headers_get (headers request) "Origin") config = false ->
  exists r,
    fetch upstream config request = Some r
    /\ r.2 = []
    /\ (if truthy (resolveTarget (query request))
        then status r.1 = 403%Z /\ statusText r.1 = "Forbidden"
             /\ resp_body r.1 = BodyText blocked_page
             /\ Headers_get (resp_headers r.1) "Content-Type" = Some "text/html"
        else status r.1 = 200%Z /\ resp_body r.1 = BodyInfoPage)
    /\ Headers_get (resp_headers r.1) "Access-Control-Allow-Origin"
       = Some (or_else (Headers_get (headers request) "Origin") "*").
Proof.
  intros Hm Ha. apply String.eqb_neq in Hm.
  destruct (fetch upstream config request) as [[response sent]|] eqn:Hf.
  - exists (response, sent). split; [reflexivity|].
    pose proof (fetch_allow_origin _ _ _ _ _ Hf) as Ho.
    rewrite or_else_truthy. split; [|split; [|exact Ho]]; clear Ho;
      revert Hf; unfold fetch; rewrite Hm, Ha;
      destruct (truthy (resolveTarget (query request)));
      cbn [negb fst snd]; answered; try reflexivity;
      cbn [status statusText resp_body resp_headers]; repeat split.
    now headers_lookup.
  - apply fetch_None in Hf as (_ & Hf & _). congruence.
Qed.

(** X5.  The handler writes an outbound request exactly when the inbound
    request is not a preflight and is admitted: for the resolved target, which
    is not empty, with the method and the body of the inbound request.  When
    the runtime refuses to build that request the handler ends in an error it
    does not catch, and nothing is fetched; otherwise it fetches that one
    request and no other.  In every other case it answers without fetching
    anything. *)
Theorem single_outbound (request : Request) :
  let targetUrl := resolveTarget (query request) in
  let relayed :=
    negb (String.eqb (method request) "OPTIONS")
    && admitted targetUrl (Headers_get (headers request) "Origin") config in
  let newRequest := outboundRequest request (default "" targetUrl) in
  (relayed = true ->
   targetUrl = Some (out_url newRequest) /\ out_url newRequest <> "" /\
   out_method newRequest = method request /\ out_body newRequest = body request)
  /\ match fetch upstream config request with
     | Some r =>
         r.2 = (if relayed then [newRequest] else [])
         /\ (relayed = true -> upstream newRequest <> Refused)
     | None => relayed = true /\ upstream newRequest = Refused
     end.
Proof.
  cbv zeta. split.
  - intros [_ Ha]%andb_prop.
    assert (Ht : truthy (resolveTarget (query request)) = true).
    { unfold admitted in Ha. now apply andb_prop in Ha as [[Ht _]%andb_prop _]. }
    destruct (resolveTarget (query request)) as [t|]; [|discriminate Ht].
    cbn [default outboundRequest out_url out_method out_body] in *.
    apply nonempty_true in Ht. now repeat split.
  - unfold fetch.
    destruct (String.eqb (method request) "OPTIONS"); cbn [negb andb].
    + destruct (admitted _ _ config); cbn [snd]; (split; [reflexivity | discriminate]).
    + destruct (admitted _ _ config) eqn:Ha; cbn [snd].
      * destruct (upstream _); cbn [snd];
          try (split; [reflexivity | discriminate]).
        now split.
      * destruct (negb _); cbn [snd]; (split; [reflexivity | discriminate]).
Qed.

End HandlerBranches.

(** ** Relayed answers *)

Lemma filter_eq_NoDup (names : list string) (k : string) :
  NoDup names ->
  filter (fun n => n = k) names = if decide (k ∈ names) then [k] else [].
Proof.
  induction names as [|n names IH]; intros Hnd.
  - now rewrite decide_False by apply not_elem_of_nil.
  - apply NoDup_cons in Hnd as [Hn Hnd]. rewrite filter_cons, (IH Hnd).
    destruct (decide (n = k)) as [->|Hne].
    + rewrite decide_False by exact Hn.
      now rewrite decide_True by (apply elem_of_cons; now left).
    + destruct (decide (k ∈ names)) as [Hk|Hk].
      * now rewrite decide_True by (apply elem_of_cons; now right).
      * now rewrite decide_False by (intros [?|?]%elem_of_cons; congruence).
Qed.

(** What the iteration yields under one name. *)
Lemma Headers_entries_under (h : Headers) (k : string) :
  filter (fun kv => kv.1 = k) (Headers_entries h)
  = match h !! k with
    | Some values => map (pair k) (entry_values k values)
    | None => []
    end.
Proof.
  unfold Headers_entries.
  pose proof (blocks_filter (fun name => entry_values name (default [] (h !! name)))
                            (fun n => n = k) (Headers_names h)) as Hb.
  cbn beta in Hb. rewrite Hb, (filter_eq_NoDup _ _ (Headers_names_NoDup h)).
  destruct (decide (k ∈ Headers_names h)) as [Hk|Hk].
  - apply Headers_names_elem in Hk as [vs Hvs].
    unfold blocks. cbn [flat_map]. now rewrite app_nil_r, Hvs.
  - destruct (h !! k) as [vs|] eqn:Hvs; [|reflexivity].
    destruct Hk. apply Headers_names_elem. eauto.
Qed.

(** How often [keys()] gives a name: once, and [set-cookie] once per value. *)
Lemma Headers_keys_count (h : Headers) (k : string) :
  length (filter (fun n => n = k) (Headers_keys h))
  = match h !! k with
    | Some values => if String.eqb k "set-cookie" then length values else 1%nat
    | None => 0%nat
    end.
Proof.
  unfold Headers_keys.
  assert (Hf : forall l : list (string * string),
             length (filter (fun n => n = k) (map fst l))
             = length (filter (fun kv : string * string => kv.1 = k) l)).
  { induction l as [|[n v] l IH]; [reflexivity|].
    cbn [map fst]. rewrite !filter_cons. cbn [fst].
    destruct (decide (n = k)); cbn [length]; now rewrite IH. }
  rewrite Hf, Headers_entries_under.
  destruct (h !! k) as [vs|]; [|reflexivity].
  rewrite length_map. unfold entry_values.
  now destruct (String.eqb k "set-cookie").
Qed.

Lemma blocks_keys {V : Type} (values : string -> list V) (names : list string) (k : string) :
  k ∈ map fst (blocks values names) -> k ∈ names.
Proof.
  unfold blocks. induction names as [|n names IH]; [intros H; inversion H|].
  cbn [flat_map]. rewrite map_app, elem_of_app, elem_of_cons.
  intros [Hk | Hk]; [left | right; now apply IH].
  apply list_elem_of_fmap in Hk as ([n' v] & -> & Hin).
  apply list_elem_of_fmap in Hin as (? & [= -> ->] & _). reflexivity.
Qed.

(** [keys()] gives the names in sorted order. *)
Lemma Headers_keys_sorted (h : Headers) : StronglySorted String.le (Headers_keys h).
Proof.
  unfold Headers_keys, Headers_entries.
  generalize (fun name => entry_values name (default [] (h !! name))). intros values.
  pose proof (Headers_names_sorted h) as Hs.
  induction Hs as [|n names Hs IH Hall]; [constructor|].
  unfold blocks. cbn [flat_map]. rewrite map_app.
  apply StronglySorted_app_2.
  - intros x1 x2 H1 H2.
    apply list_elem_of_fmap in H1 as ([n' v] & -> & Hin).
    apply list_elem_of_fmap in Hin as (? & [= -> ->] & _). cbn [fst].
    apply blocks_keys in H2. rewrite Forall_forall in Hall. now apply Hall.
  - induction (values n) as [|v vs IHv]; [constructor|].
    cbn [map fst]. constructor; [exact IHv|].
    apply Forall_forall. intros x Hx.
    apply list_elem_of_fmap in Hx as ([n' v'] & -> & Hin).
    apply list_elem_of_fmap in Hin as (? & [= -> ->] & _). reflexivity.
  - exact IH.
Qed.

(** The object made of the entries has one property per name, holding the
    value of the header map. *)
Lemma Object_fromEntries_props (h : Headers) :
  exists props,
    Object_fromEntries (Headers_entries h) = JObj props
    /\ NoDup props.*1
    /\ (forall k x, (k, x) ∈ props <-> exists v, x = JStr v /\ header_map h !! k = Some v).
Proof.
  eexists. split; [reflexivity|].
  pose proof (props_fold_NoDup JStr (Headers_entries h) [] (NoDup_nil_2)) as Hnd.
  split; [exact Hnd|]. intros k x.
  rewrite (elem_of_list_to_map (M := gmap string)) by exact Hnd.
  rewrite (props_fold_map JStr). cbn [list_to_map foldr].
  rewrite <- (fmap_empty JStr), overlay_fmap, overlay_entries, lookup_fmap.
  destruct (header_map h !! k) as [v|]; cbn.
  - split; [intros [= <-]; eauto | intros (v' & -> & [= <-]); reflexivity].
  - split; [discriminate | intros (v' & _ & [=])].
Qed.

Section Relay.
Context `{P : Platform}.
Variable upstream : OutboundRequest -> FetchResult.
Variable config : Config.

Lemma fetch_relayed (request : Request) (answer : UpstreamResponse) :
  method request <> "OPTIONS" ->
  admitted (resolveTarget (query request))
           (Headers_get (headers request) "Origin") config = true ->
  upstream (outboundRequest request (default "" (resolveTarget (query request))))
  = Fetched answer ->
  fetch upstream config request
  = Some (relayResponse request false (default "" (resolveTarget (query request))) answer,
          [outboundRequest request (default "" (resolveTarget (query request)))]).
Proof.
  intros Hm Ha Hf. apply String.eqb_neq in Hm.
  unfold fetch. now rewrite Hm, Ha, Hf.
Qed.

Lemma Response_accepts_iff (b : Body) (s : Z) :
  Response_accepts b s = true <->
  (200 <= s <= 599)%Z /\ (b = BodyNull \/ ~ In s [101; 103; 204; 205; 304]%Z).
Proof.
  unfold Response_accepts, null_body_status.
  rewrite !andb_true_iff, orb_true_iff, negb_true_iff, !Z.leb_le.
  assert (Hb : body_is_null b = true <-> b = BodyNull)
    by (destruct b; cbn; split; (reflexivity || discriminate)).
  assert (Hs : existsb (Z.eqb s) [101; 103; 204; 205; 304]%Z = false
               <-> ~ In s [101; 103; 204; 205; 304]%Z).
  { rewrite <- not_true_iff_false, existsb_exists. split.
    - intros Hn Hin. apply Hn. exists s. split; [exact Hin | apply Z.eqb_refl].
    - intros Hn (x & Hin & Hx). apply Z.eqb_eq in Hx as <-. contradiction. }
  rewrite Hb, Hs. tauto.
Qed.


(** X7.  A relayed answer tells the caller what the target sent.  Its
    [Access-Control-Expose-Headers] is the comma-separated list of the names
    that the iteration over the target's headers gives, followed by
    [cors-received-headers]: the names come in sorted order, each once, except
    [set-cookie], which comes once for every [Set-Cookie] line.  Its
    [cors-received-headers] is the JSON text of an object with one property
    for each name: the combined value of the header, and for [set-cookie] the
    value of the last line alone. *)
Theorem relay_headers_reported (request : Request) (answer : UpstreamResponse) :
  method request <> "OPTIONS" ->
  admitted (resolveTarget (query request))
           (Headers_get (headers request) "Origin") config = true ->
  upstream (outboundRequest request (default "" (resolveTarget (query request))))
  = Fetched answer ->
  (200 <= up_status answer <= 599)%Z ->
  ~ In (up_status answer) [204; 205; 304]%Z ->
  exists r sent names props,
    fetch upstream config request = Some (r, sent)
    /\ Headers_get (resp_headers r) "Access-Control-Expose-Headers"
       = Some (join "," (names ++ ["cors-received-headers"])%list)
    /\ StronglySorted String.le names
    /\ (forall k,
          length (filter (fun name => name = k) names)
          = match up_headers answer !! k with
            | Some values => if String.eqb k "set-cookie" then length values else 1%nat
            | None => 0%nat
            end)
    /\ Headers_get (resp_headers r) "cors-received-headers"
       = Some (JSON_stringify (JObj props))
    /\ NoDup props.*1
    /\ (forall k x,
          (k, x) ∈ props <->
          exists values,
            up_headers answer !! k = Some values
            /\ Some x
               = JStr <$> (if String.eqb k "set-cookie" then last values
                           else Some (join ", " values))).
Proof.
  intros Hm Ha Hf Hrange Hnull. rewrite (fetch_relayed _ _ Hm Ha Hf).
  destruct (Object_fromEntries_props (up_headers answer)) as (props & Hprops & Hnd & Hin).
  exists (relayResponse request false (default "" (resolveTarget (query request))) answer),
         [outboundRequest request (default "" (resolveTarget (query request)))],
         (Headers_keys (up_headers answer)), props.
  split; [reflexivity|].
  unfold relayResponse. rewrite Hprops.
  rewrite (proj2 (Response_accepts_iff _ _)).
  2:{ split; [exact Hrange | right]. cbn [In] in *. lia. }
  cbn [resp_headers]. headers_lookup.
  split; [reflexivity|]. split; [apply Headers_keys_sorted|].
  split; [apply Headers_keys_count|]. split; [reflexivity|]. split; [exact Hnd|].
  intros k x. rewrite Hin. unfold header_map. rewrite map_lookup_imap.
  destruct (up_headers answer !! k) as [values|]; cbn.
  - unfold entry_values. destruct (String.eqb k "set-cookie"); cbn.
    + split.
      * intros (v & -> & Hl). exists values. rewrite Hl. now split.
      * intros (vs & [= <-] & Hx). destruct (last values) as [v|]; [|discriminate Hx].
        injection Hx as ->. eauto.
    + split.
      * intros (v & -> & [= <-]). exists values. now split.
      * intros (vs & [= <-] & [= ->]). eauto.
  - split; [intros (v & _ & [=]) | intros (vs & [=] & _)].
Qed.

End Relay.


(** ** More on CORS headers *)

(** X8.  [setupCORSHeaders] can be applied again without effect, and it
    touches only names of its own: on an answer that is no preflight the origin
    and credentials headers, on a preflight also the allowed methods, the
    allowed headers and [X-Content-Type-Options].  Every other header is left
    as it was. *)
Theorem setupCORSHeaders_idempotent (request : Request) (isPreflightRequest : bool)
    (h : Headers) :
  setupCORSHeaders request isPreflightRequest
    (setupCORSHeaders request isPreflightRequest h)
  = setupCORSHeaders request isPreflightRequest h
  /\ (forall name,
        ~ In (toLowerCase name)
             ["access-control-allow-origin"; "access-control-allow-credentials"] ->
        Headers_get (setupCORSHeaders request false h) name = Headers_get h name)
  /\ (forall name,
        ~ In (toLowerCase name)
             ["access-control-allow-origin"; "access-control-allow-credentials";
              "access-control-allow-methods"; "access-control-allow-headers";
              "x-content-type-options"] ->
        Headers_get (setupCORSHeaders request true h) name = Headers_get h name).
Proof.
  split; [|split].
  - unfold setupCORSHeaders, Headers_set, Headers_delete.
    destruct isPreflightRequest;
      destruct (truthy (Headers_get (headers request) "Origin"));
      repeat match goal with |- context [if truthy ?v then _ else _] =>
               destruct (truthy v) end;
      apply map_eq; intros i;
      repeat (rewrite ?lookup_delete, ?lookup_insert; repeat case_decide);
      congruence.
  - intros name Hn. cbn [In] in Hn. unfold setupCORSHeaders.
    destruct (truthy _);
      rewrite !Headers_get_set_ne by (cbn; intros E; apply Hn; rewrite <- E; tauto);
      reflexivity.
  - intros name Hn. cbn [In] in Hn. unfold setupCORSHeaders.
    destruct (truthy (Headers_get (headers request) "Origin"));
      repeat match goal with |- context [if truthy ?v then _ else _] =>
               destruct (truthy v) end;
      rewrite Headers_get_delete_ne by (cbn; intros E; apply Hn; rewrite <- E; tauto);
      rewrite !Headers_get_set_ne by (cbn; intros E; apply Hn; rewrite <- E; tauto);
      reflexivity.
Qed.

(** ** Admission under a changing configuration *)

Section AdmissionFacts.
Context `{P : Platform}.

Lemma isListedInWhitelist_mono (uri : option string) (l l' : list string) :
  (forall p, In p l -> In p l') ->
  isListedInWhitelist uri l = true -> isListedInWhitelist uri l' = true.
Proof.
  intros Hsub. destruct uri as [s|]; [|reflexivity].
  rewrite !isListedInWhitelist_true. intros (p & Hp & Hm). eauto.
Qed.

(** X9.  Admission moves one way with the configuration: a request admitted
    under some lists is still admitted when patterns are taken off the
    blacklist or added to the whitelist.  With an empty whitelist the only
    requests admitted are those without an [Origin] header, and with an empty
    blacklist no target is ever blocked. *)
Theorem admission_monotone (targetUrl originHeader : option string)
    (blacklist blacklist' whitelist whitelist' : list string) :
  ((forall p, In p blacklist' -> In p blacklist) ->
   (forall p, In p whitelist -> In p whitelist') ->
   admitted targetUrl originHeader (mkConfig blacklist whitelist) = true ->
   admitted targetUrl originHeader (mkConfig blacklist' whitelist') = true)
  /\ (admitted targetUrl originHeader (mkConfig blacklist []) = true ->
      originHeader = None)
  /\ (admitted targetUrl originHeader (mkConfig [] whitelist)
      = truthy targetUrl && isListedInWhitelist originHeader whitelist).
Proof.
  unfold admitted. cbn [blacklistUrls whitelistOrigins]. split; [|split].
  - intros Hb Hw. rewrite !andb_true_iff, !negb_true_iff.
    intros [[Ht Hbl] Hwl]. repeat split.
    + exact Ht.
    + destruct (isListedInWhitelist targetUrl blacklist') eqn:E; [|reflexivity].
      apply (isListedInWhitelist_mono _ _ _ Hb) in E. congruence.
    + exact (isListedInWhitelist_mono _ _ _ Hw Hwl).
  - rewrite !andb_true_iff. intros [_ Hw].
    destruct originHeader; [discriminate Hw | reflexivity].
  - destruct targetUrl as [t|]; [|reflexivity]. simpl. now rewrite andb_true_r.
Qed.

End AdmissionFacts.

(** ** Targets *)

Section Targets.
Context `{P : Platform} (L : PlatformLaws P).

Lemma extractTarget_url (q v : string) :
  searchParams_get (parse_query q) "url" = Some v -> v <> "" ->
  extractTarget q = Some v.
Proof.
  intros Hv Hne. unfold extractTarget. rewrite Hv. simpl.
  apply nonempty_true in Hne. now rewrite Hne.
Qed.

(** X10.  An explicit, non-empty [url] parameter decides the target alone:
    the rest of the query is not looked at, and the value is not
    percent-decoded again.  When the value is a web URL that parses, the target
    is its serialization. *)
Theorem url_parameter_wins (q q' v : string) :
  searchParams_get (parse_query q) "url" = Some v -> v <> "" ->
  resolveTarget q = href <$> URL_parse (with_scheme v)
  /\ (searchParams_get (parse_query q') "url" = Some v ->
      resolveTarget q' = resolveTarget q)
  /\ (forall u, test_http_scheme v = true -> URL_parse v = Some u ->
        resolveTarget q = Some (href u)).
Proof.
  intros Hv Hne.
  assert (Hq : forall q0, searchParams_get (parse_query q0) "url" = Some v ->
                          resolveTarget q0 = href <$> URL_parse (with_scheme v)).
  { intros q0 H0. unfold resolveTarget. rewrite (extractTarget_url _ _ H0 Hne).
    rewrite (normalizeTarget_Some _ Hne). unfold with_scheme.
    now destruct (test_http_scheme v). }
  split; [|split].
  - now apply Hq.
  - intros Hq'. now rewrite (Hq q Hv), (Hq q' Hq').
  - intros u Ht Hu. rewrite (Hq q Hv). unfold with_scheme. rewrite Ht. simpl.
    now rewrite Hu.
Qed.

(** X11.  A request without a query has no target.  If it is a preflight it
    is refused with status 403; otherwise it gets the informational page with
    status 200.  Neither reaches the target. *)
Theorem empty_query (upstream : OutboundRequest -> FetchResult) (config : Config)
    (request : Request) :
  query request = "" ->
  exists r,
    fetch upstream config request = Some r
    /\ resolveTarget (query request) = None
    /\ r.2 = []
    /\ (if String.eqb (method request) "OPTIONS"
        then status r.1 = 403%Z /\ resp_body r.1 = BodyNull
        else status r.1 = 200%Z /\ resp_body r.1 = BodyInfoPage).
Proof.
  intros Hq.
  assert (Ht : resolveTarget (query request) = None).
  { rewrite Hq. unfold resolveTarget, extractTarget.
    now rewrite parse_query_empty. }
  unfold fetch, admitted. rewrite Ht. cbn [truthy andb negb].
  destruct (String.eqb (method request) "OPTIONS");
    (eexists; split; [reflexivity|]); repeat split.
Qed.

End Targets.

(** ** What the target is handed *)

Lemma fingerprint_slot (targetUrl : string) :
  exists n, Z.to_nat (fingerprintIndex targetUrl) = n /\ (n < 4)%nat.
Proof.
  exists (Z.to_nat (fingerprintIndex targetUrl)). split; [reflexivity|].
  rewrite fingerprintIndex_mod.
  pose proof (Z.mod_pos_bound (Z.abs (fingerprintHash targetUrl)) 4). lia.
Qed.

Lemma defaultBrowserHeaders_wf (targetUrl referer secFetchSite : string) :
  profile_wf (defaultBrowserHeaders targetUrl referer secFetchSite).
Proof.
  apply (browserFingerprints_wf referer secFetchSite).
  unfold defaultBrowserHeaders.
  destruct (fingerprint_slot targetUrl) as (n & -> & Hn).
  destruct (browserFingerprints referer secFetchSite !! n) as [p|] eqn:Hp.
  - now apply list_elem_of_lookup_2 in Hp.
  - apply lookup_ge_None in Hp. rewrite browserFingerprints_length in Hp. lia.
Qed.

(** What every profile holds under three of its names. *)
Lemma defaultBrowserHeaders_fields (targetUrl referer secFetchSite : string) :
  Obj_map (defaultBrowserHeaders targetUrl referer secFetchSite) !! "Referer"
  = Some (JStr referer)
  /\ Obj_map (defaultBrowserHeaders targetUrl referer secFetchSite) !! "Sec-Fetch-Site"
     = Some (JStr secFetchSite)
  /\ is_Some (Obj_map (defaultBrowserHeaders targetUrl referer secFetchSite)
                !! "User-Agent").
Proof.
  unfold defaultBrowserHeaders.
  destruct (fingerprint_slot targetUrl) as (n & -> & Hn).
  do 4 (destruct n as [|n]; [repeat split; eexists; reflexivity|]). lia.
Qed.

Lemma overlay_lookup_notin {V : Type} (l : list (string * V)) (m : gmap string V)
    (k : string) :
  k ∉ l.*1 -> overlay l m !! k = m !! k.
Proof.
  revert m. induction l as [|[k' v] l IH]; intros m Hk; [reflexivity|].
  cbn in Hk. apply not_elem_of_cons in Hk as [Hne Hk].
  rewrite overlay_cons, (IH _ Hk). now apply lookup_insert_ne.
Qed.

Lemma overlay_lookup_is_Some {V : Type} (l : list (string * V)) (m : gmap string V)
    (k : string) :
  is_Some (m !! k) -> is_Some (overlay l m !! k).
Proof.
  revert m. induction l as [|[k' v] l IH]; intros m Hk; [exact Hk|].
  rewrite overlay_cons. apply IH.
  destruct (decide (k' = k)) as [->|Hne];
    [rewrite lookup_insert_eq; eauto | now rewrite lookup_insert_ne].
Qed.

Lemma filter_keys_notin {V : Type} (Q : string * V -> Prop) `{!forall x, Decision (Q x)}
    (l : list (string * V)) (k : string) :
  k ∉ l.*1 -> k ∉ (filter Q l).*1.
Proof.
  intros Hk Hin. apply Hk.
  apply list_elem_of_fmap in Hin as (kv & -> & Hin).
  apply list_elem_of_filter in Hin as [_ Hin].
  apply list_elem_of_fmap. eauto.
Qed.

Section Forwarded.
Context `{P : Platform}.
Variable upstream : OutboundRequest -> FetchResult.
Variable config : Config.

(** X12.  What the worker writes for the target does not depend on the
    inbound headers that match an exclusion pattern, [Origin] and
    [x-cors-headers] apart, which it reads by name: two requests that differ
    only in such headers, a [Referer], a [CF-Connecting-IP] or an
    [X-Forwarded-For] say, are given the same outbound request, down to the
    order of the properties of its headers object, and the same requests are
    fetched for them. *)
Theorem excluded_headers_not_forwarded (request1 request2 : Request) :
  method request1 = method request2 ->
  query request1 = query request2 ->
  body request1 = body request2 ->
  Headers_get (headers request1) "Origin" = Headers_get (headers request2) "Origin" ->
  Headers_get (headers request1) "x-cors-headers"
  = Headers_get (headers request2) "x-cors-headers" ->
  (forall name, excluded name = false -> headers request1 !! name = headers request2 !! name) ->
  (forall targetUrl,
     outboundRequest request1 targetUrl = outboundRequest request2 targetUrl)
  /\ snd <$> fetch upstream config request1 = snd <$> fetch upstream config request2.
Proof.
  intros Hm Hq Hb Ho Hx Hsame.
  assert (Hout : forall targetUrl,
             outboundRequest request1 targetUrl = outboundRequest request2 targetUrl).
  { intros targetUrl. unfold outboundRequest, customHeaders, filteredHeaders.
    now rewrite Hm, Hb, Ho, Hx, (overlay_inbound_ext _ _ _ Hsame). }
  split; [exact Hout|].
  unfold fetch. rewrite Hm, Hq, Ho, Hout.
  destruct (String.eqb (method request2) "OPTIONS").
  - now destruct (admitted _ _ config).
  - destruct (admitted _ _ config).
    + now destruct (upstream _).
    + now destruct (negb _).
Qed.

(** X13.  The headers object the worker writes for the target has a
    property named [Referer] and one named [Sec-Fetch-Site], spelled so, that
    come from the caller's origin and not from the caller's headers of these
    names: unless the custom headers have a member of exactly that name,
    [Referer] is the [Origin] of the request, or a search engine's address
    when the request has none, and [Sec-Fetch-Site] is [cross-site] or [none]
    accordingly.  The object always has a [User-Agent].  (Inbound and custom
    names in another letter case are other properties of the object.) *)
Theorem referer_from_origin (request : Request) (targetUrl : string) :
  Headers_wf (headers request) ->
  let out := Obj_map (out_headers (outboundRequest request targetUrl)) in
  let originHeader := Headers_get (headers request) "Origin" in
  let custom := (custom_entries (Headers_get (headers request) "x-cors-headers")).*1 in
  ("Referer" ∉ custom ->
   out !! "Referer" = Some (JStr (or_else originHeader "https://www.google.com/")))
  /\ ("Sec-Fetch-Site" ∉ custom ->
      out !! "Sec-Fetch-Site"
      = Some (JStr (if truthy originHeader then "cross-site" else "none")))
  /\ is_Some (out !! "User-Agent").
Proof.
  intros Hwf. cbv zeta. unfold outboundRequest. cbn [out_headers].
  rewrite (filteredHeaders_compose _ request Hwf (defaultBrowserHeaders_wf _ _ _)).
  unfold composeOutbound.
  assert (Hin : forall name,
            toLowerCase name <> name ->
            (JStr <$> filter (fun kv => excluded_spec kv.1 = false /\ assignable kv.1 = true)
                             (header_map (headers request))) !! name = None).
  { intros name Hn. rewrite lookup_fmap.
    rewrite (proj2 (map_lookup_filter_None _ _ _)); [reflexivity|].
    left. destruct (header_map (headers request) !! name) as [v|] eqn:E; [|reflexivity].
    apply header_map_dom in E as [vs Hvs]. now destruct (Hn (proj1 (Hwf _ _ Hvs))). }
  destruct (defaultBrowserHeaders_fields targetUrl
              (or_else (Headers_get (headers request) "Origin") "https://www.google.com/")
              (if truthy (Headers_get (headers request) "Origin")
               then "cross-site" else "none")) as (Hr & Hs & Hu).
  split; [|split].
  - intros Hc. rewrite overlay_lookup_notin by now apply filter_keys_notin.
    rewrite lookup_union, Hin, Hr by discriminate. reflexivity.
  - intros Hc. rewrite overlay_lookup_notin by now apply filter_keys_notin.
    rewrite lookup_union, Hin, Hs by discriminate. reflexivity.
  - apply overlay_lookup_is_Some. rewrite lookup_union_is_Some. now right.
Qed.

End Forwarded.

(** ** The further properties at work on the reference runtime *)

Lemma preflight_never_forwarded_witness :
  let request :=
    preflight "url=https://example.com/api"
      [("Origin", "https://app.test"); ("Access-Control-Request-Method", "PUT")] in
  exists r,
    fetch (P := reference_platform) unreachable default_config request = Some r
    /\ r.2 = [] /\ resp_body r.1 = BodyNull /\ status r.1 = 200%Z
    /\ Headers_get (resp_headers r.1) "Access-Control-Allow-Methods" = Some "PUT".
Proof.
  cbv zeta.
  destruct (preflight_never_forwarded (P := reference_platform) unreachable default_config
              (preflight "url=https://example.com/api"
                 [("Origin", "https://app.test");
                  ("Access-Control-Request-Method", "PUT")]) eq_refl)
    as (r & Hf & Hn & Hb & Hs & _ & _ & Hm & _).
  exists r. split; [exact Hf | split; [exact Hn | split; [exact Hb | split]]].
  - rewrite Hs. vm_compute. reflexivity.
  - rewrite Hm. vm_compute. reflexivity.
Defined.

Lemma refused_without_relay_witness :
  let request := plain_get "url=https://ads.example.net/t.js" [] in
  let config := mkConfig ["^https?://ads\."] DEFAULT_WHITELIST_ORIGINS in
  exists r,
    fetch (P := reference_platform) (fun _ => Fetched aws_chunked_response) config request
    = Some r
    /\ r.2 = [] /\ status r.1 = 403%Z
    /\ Headers_get (resp_headers r.1) "Access-Control-Allow-Origin" = Some "*".
Proof.
  cbv zeta.
  destruct (refused_without_relay (P := reference_platform)
              (fun _ => Fetched aws_chunked_response)
              (mkConfig ["^https?://ads\."] DEFAULT_WHITELIST_ORIGINS)
              (plain_get "url=https://ads.example.net/t.js" []))
    as (r & Hf & Hn & Hs & Ho).
  - discriminate.
  - vm_compute. reflexivity.
  - exists r. split; [exact Hf|].
    split; [exact Hn | split; [|rewrite Ho; vm_compute; reflexivity]].
    change (truthy (resolveTarget (P := reference_platform)
                      (query (plain_get "url=https://ads.example.net/t.js" []))))
      with true in Hs.
    exact (proj1 Hs).
Defined.

Lemma relay_headers_reported_witness :
  let request := plain_get "url=https://httpbin.org/cookies/set" [] in
  let answer :=
    mkUpstream 200 "OK"
      (Headers_of_list [("X-Trace", "7"); ("Set-Cookie", "a=1"); ("Set-Cookie", "b=2")])
      (Some "ok") in
  exists r sent names props,
    fetch (P := reference_platform) (fun _ => Fetched answer) default_config request
    = Some (r, sent)
    /\ Headers_get (resp_headers r) "Access-Control-Expose-Headers"
       = Some (join "," (names ++ ["cors-received-headers"])%list)
    /\ length (filter (fun name => name = "set-cookie") names) = 2%nat
    /\ length (filter (fun name => name = "x-trace") names) = 1%nat
    /\ Headers_get (resp_headers r) "cors-received-headers"
       = Some (JSON_stringify (Platform := reference_platform) (JObj props))
    /\ (("set-cookie", JStr "b=2") ∈ props)
    /\ (("set-cookie", JStr "a=1") ∉ props).
Proof.
  cbv zeta.
  destruct (relay_headers_reported (P := reference_platform)
              (fun _ => Fetched (mkUpstream 200 "OK"
                 (Headers_of_list [("X-Trace", "7"); ("Set-Cookie", "a=1");
                                   ("Set-Cookie", "b=2")])
                 (Some "ok")))
              default_config (plain_get "url=https://httpbin.org/cookies/set" [])
              (mkUpstream 200 "OK"
                 (Headers_of_list [("X-Trace", "7"); ("Set-Cookie", "a=1");
                                   ("Set-Cookie", "b=2")])
                 (Some "ok")))
    as (r & sent & names & props & Hf & He & _ & Hcount & Hr & _ & Hprops).
  - discriminate.
  - vm_compute. reflexivity.
  - reflexivity.
  - cbn. lia.
  - cbn. lia.
  - exists r, sent, names, props.
    split; [exact Hf | split; [exact He | split; [|split; [|split; [exact Hr | split]]]]].
    + rewrite Hcount. vm_compute. reflexivity.
    + rewrite Hcount. vm_compute. reflexivity.
    + apply Hprops. eexists. split; vm_compute; reflexivity.
    + intros Hin. apply Hprops in Hin as (values & Hv & Hx).
      vm_compute in Hv. injection Hv as <-. vm_compute in Hx. discriminate Hx.
Defined.

Lemma url_parameter_wins_witness :
  resolveTarget (P := reference_platform) "url=example.com/a%2520b&x=1"
  = Some "https://example.com/a%20b"
  /\ resolveTarget (P := reference_platform) "y=2&url=example.com/a%2520b"
     = resolveTarget (P := reference_platform) "url=example.com/a%2520b&x=1".
Proof.
  destruct (url_parameter_wins (P := reference_platform)
              "url=example.com/a%2520b&x=1" "y=2&url=example.com/a%2520b"
              "example.com/a%20b") as (Hr & Hq & _).
  - vm_compute. reflexivity.
  - discriminate.
  - split; [rewrite Hr; vm_compute; reflexivity | apply Hq; vm_compute; reflexivity].
Defined.

Lemma empty_query_witness :
  exists r,
    fetch (P := reference_platform) unreachable default_config (preflight "" []) = Some r
    /\ r.2 = [] /\ status r.1 = 403%Z /\ resp_body r.1 = BodyNull.
Proof.
  destruct (empty_query (P := reference_platform) reference_laws unreachable
              default_config (preflight "" []) eq_refl) as (r & Hf & _ & Hn & Hs).
  exists r. split; [exact Hf | split; [exact Hn | exact Hs]].
Defined.

Lemma excluded_headers_not_forwarded_witness :
  let inbound :=
    Headers_of_list
      [("Accept", "text/plain"); ("Origin", "https://app.test");
       ("Referer", "https://app.test/secret"); ("CF-Connecting-IP", "203.0.113.9")] in
  let stripped := Headers_delete (Headers_delete inbound "Referer") "CF-Connecting-IP" in
  outboundRequest (P := reference_platform)
    (mkRequest "GET" "url=https://httpbin.org/get" inbound None) "https://httpbin.org/get"
  = outboundRequest (P := reference_platform)
      (mkRequest "GET" "url=https://httpbin.org/get" stripped None)
      "https://httpbin.org/get".
Proof.
  cbv zeta.
  apply (excluded_headers_not_forwarded (P := reference_platform) unreachable default_config
           (mkRequest "GET" "url=https://httpbin.org/get" _ None)
           (mkRequest "GET" "url=https://httpbin.org/get" _ None)).
  - reflexivity.
  - reflexivity.
  - reflexivity.
  - vm_compute. reflexivity.
  - vm_compute. reflexivity.
  - intros name Hname. cbn [headers]. unfold Headers_delete.
    rewrite !lookup_delete_ne; [reflexivity | ..]; intros <-; discriminate Hname.
Defined.

Lemma referer_from_origin_witness :
  let request :=
    plain_get "url=https://httpbin.org/get"
      [("Origin", "https://app.test"); ("Referer", "https://app.test/secret")] in
  let out :=
    Obj_map (out_headers (outboundRequest (P := reference_platform) request
                            "https://httpbin.org/get")) in
  out !! "Referer" = Some (JStr "https://app.test")
  /\ out !! "Sec-Fetch-Site" = Some (JStr "cross-site").
Proof.
  cbv zeta.
  destruct (referer_from_origin (P := reference_platform)
              (plain_get "url=https://httpbin.org/get"
                 [("Origin", "https://app.test");
                  ("Referer", "https://app.test/secret")])
              "https://httpbin.org/get") as (Hr & Hs & _).
  - apply Headers_of_list_wf.
  - split.
    + rewrite Hr; [vm_compute; reflexivity | vm_compute; apply not_elem_of_nil].
    + rewrite Hs; [vm_compute; reflexivity | vm_compute; apply not_elem_of_nil].
Defined.

(** ** The two variants side by side *)

Section Variants.
Context `{P : Platform}.
Variable infoText : Request -> string.
Variable upstream : OutboundRequest -> FetchResult.
Variable config : Config.



(** X15.  What the worker changed for targets without a scheme.  The listener
    takes a non-empty [url] parameter as the target as it is written, so it
    hands a target without a scheme to the network unchanged; the worker puts
    [https://] in front of it and relays to the serialized URL, or has no
    target at all when the result does not parse. *)
Theorem listener_keeps_raw_target (q v : string) :
  searchParams_get (parse_query q) "url" = Some v -> v <> "" ->
  listener_targetUrl q = Some v
  /\ (test_http_scheme v = false ->
      resolveTarget q = href <$> URL_parse ("https://" +:+ v)).
Proof.
  intros Hv Hne. split.
  - unfold listener_targetUrl. rewrite Hv. simpl.
    apply nonempty_true in Hne. now rewrite Hne.
  - intros Hs. unfold resolveTarget. rewrite (extractTarget_url _ _ Hv Hne).
    unfold normalizeTarget, with_scheme. simpl.
    apply nonempty_true in Hne. rewrite Hne, Hs. simpl.
    now destruct (URL_parse _).
Qed.

End Variants.


(** The one case in which the variants differ, on a target that answers 204
    to a caller that accepts an event stream: the worker hands on the [null]
    stream and answers 204, the listener reads an empty buffer and answers
    502. *)
Example variants_differ_when_streamed :
  let request :=
    plain_get "url=https://httpbin.org/status/204" [("Accept", "text/event-stream")] in
  let answer := mkUpstream 204 "No Content" ∅ None in
  exists response response' sent,
    fetch (P := reference_platform) (fun _ => Fetched answer) default_config request
    = Some (response, sent)
    /\ listener (P := reference_platform) (fun _ => "") (fun _ => Fetched answer)
         default_config request
       = Some (response', sent)
    /\ status response = 204%Z /\ resp_body response = BodyNull
    /\ status response' = 502%Z.
Proof.
  cbv zeta. eexists _, _, _.
  split; [vm_compute; reflexivity|]. split; [vm_compute; reflexivity|].
  vm_compute. repeat split.
Qed.

Lemma listener_keeps_raw_target_witness :
  listener_targetUrl (P := reference_platform) "url=example.com/data"
  = Some "example.com/data"
  /\ resolveTarget (P := reference_platform) "url=example.com/data"
     = Some "https://example.com/data".
Proof.
  destruct (listener_keeps_raw_target (P := reference_platform)
              "url=example.com/data" "example.com/data") as (Ho & Hn).
  - vm_compute. reflexivity.
  - discriminate.
  - split; [exact Ho | rewrite Hn; [vm_compute; reflexivity | reflexivity]].
Defined.
